(** * multiview_models: the optimisation core, embedded and verified

    A shallow embedding of [src/models/utils_deep.py] (class
    [Optimisation_VAE]: batch generator factory, data splitter, SNP
    centring, the epoch/batch training driver and batched prediction) and of
    [multiae/base/dataloaders.py] ([MultiviewDataModule.train_test_split]).

    Conventions.
    - Python exceptions are values of [exn]; fallible code returns [result].
    - Methods that mutate [self] are functions in the monad [M]: the instance
      is threaded explicitly and survives an exception, as attributes
      assigned before a [raise] do in Python.
    - Tensors are lists of rows; a row is a list of IEEE-754 binary32
      numbers ([spec_float] with the operations of [SpecFloat] at precision
      24).  Python [float]s are binary64.
    - External libraries (torch's [DataLoader], Python's [random]) are
      modelled by their documented behaviour. *)

From Stdlib Require Import ZArith List Bool Lia Arith PeanoNat.
From Stdlib Require Import Floats.SpecFloat.
From stdpp Require Import base list gmap strings fin_maps.
Import ListNotations.

(* ===================================================================== *)
(** * Python exceptions and fallible results                              *)
(* ===================================================================== *)

Inductive exn : Type :=
| AttributeError
| IndexError
| KeyError
| TypeError
| ValueError
| OverflowError
| RuntimeError
| UnboundLocalError
| Unmodelled.

Inductive result (A : Type) : Type :=
| Ok (a : A)
| Raise (e : exn).
Arguments Ok {A} a.
Arguments Raise {A} e.

Definition rbind {A B} (r : result A) (k : A -> result B) : result B :=
  match r with
  | Ok a => k a
  | Raise e => Raise e
  end.

Declare Scope result_scope.
Delimit Scope result_scope with res.
Notation "'try' x <- e ; k" := (rbind e (fun x => k))
  (at level 10, x pattern, e at level 100, k at level 200) : result_scope.

(** A list comprehension whose body may raise: the first exception aborts. *)
Fixpoint rmap {A B} (f : A -> result B) (l : list A) : result (list B) :=
  match l with
  | [] => Ok []
  | a :: l' =>
      (try b <- f a; try bs <- rmap f l'; Ok (b :: bs))%res
  end.

Definition is_ok {A} (r : result A) : bool :=
  match r with Ok _ => true | Raise _ => false end.

(* ===================================================================== *)
(** * Floating point                                                      *)
(* ===================================================================== *)

(** torch's default dtype ([.float()]): IEEE-754 binary32. *)
Module F32.
Definition prec : Z := 24.
Definition emax : Z := 128.
Definition sub : spec_float -> spec_float -> spec_float := SFsub prec emax.
Definition mul : spec_float -> spec_float -> spec_float := SFmul prec emax.
Definition zero : spec_float := S754_zero false.
(** The literal [2]: mantissa [2^23], exponent [-22]. *)
Definition two : spec_float := S754_finite false 8388608 (-22).
Definition one : spec_float := S754_finite false 8388608 (-23).
Definition isnan (x : spec_float) : bool :=
  match x with S754_nan => true | _ => false end.
End F32.

(** Python's [float]: IEEE-754 binary64. *)
Module F64.
Definition prec : Z := 53.
Definition emax : Z := 1024.
Definition mul : spec_float -> spec_float -> spec_float := SFmul prec emax.

(** [float(n)] for a Python int: round to nearest even; an int beyond the
    largest double raises [OverflowError]. *)
Definition of_int (n : Z) : result spec_float :=
  match binary_normalize prec emax n 0 false with
  | S754_infinity _ => Raise OverflowError
  | x => Ok x
  end.

(** [int(x)]: truncation towards zero; [nan] raises [ValueError],
    an infinity raises [OverflowError]. *)
Definition to_int (x : spec_float) : result Z :=
  match x with
  | S754_nan => Raise ValueError
  | S754_infinity _ => Raise OverflowError
  | S754_zero _ => Ok 0%Z
  | S754_finite s m e =>
      let a := match e with
               | Zneg p => Z.shiftr (Zpos m) (Zpos p)
               | _ => Z.shiftl (Zpos m) e
               end in
      Ok (if s then (- a)%Z else a)
  end.

(** [round(x)]: round half to even (Python 3). *)
Definition round (x : spec_float) : result Z :=
  match x with
  | S754_nan => Raise ValueError
  | S754_infinity _ => Raise OverflowError
  | S754_zero _ => Ok 0%Z
  | S754_finite s m e =>
      let a := match e with
               | Zneg p =>
                   let d := Z.shiftl 1 (Zpos p) in
                   let q := (Zpos m / d)%Z in
                   let r := (Zpos m mod d)%Z in
                   match (2 * r ?= d)%Z with
                   | Lt => q
                   | Gt => (q + 1)%Z
                   | Eq => if Z.even q then q else (q + 1)%Z
                   end
               | _ => Z.shiftl (Zpos m) e
               end in
      Ok (if s then (- a)%Z else a)
  end.

(** The literal [0.8]: [0x1.999999999999ap-1]. *)
Definition lit_0_8 : spec_float := S754_finite false 7205759403792794 (-53).
(** The literal [0.75] (exact). *)
Definition lit_0_75 : spec_float := S754_finite false 6755399441055744 (-53).
End F64.

(** [int(n * f)] for a Python int [n] and a Python float [f]. *)
Definition int_of_product (n : Z) (f : spec_float) : result Z :=
  (try x <- F64.of_int n; F64.to_int (F64.mul x f))%res.

(* ===================================================================== *)
(** * Tensors                                                             *)
(* ===================================================================== *)

Definition row : Type := list spec_float.
(** A 2-D tensor of shape (samples, features), row-major. *)
Definition tensor : Type := list row.
Definition label : Type := Z.

(** [torch.isnan] then masked assignment of [0], element by element. *)
Definition nan_to_zero (x : spec_float) : spec_float :=
  if F32.isnan x then F32.zero else x.

(** Broadcasting of the last axis in [row - v]: equal lengths subtract
    pointwise, a length-1 operand is stretched, anything else is torch's
    size-mismatch [RuntimeError]. *)
Definition broadcast_sub (r v : row) : result row :=
  if Nat.eqb (length r) (length v) then Ok (zip_with F32.sub r v)
  else match v, r with
       | [c], _ => Ok (map (fun x => F32.sub x c) r)
       | _, [x] => Ok (map (fun c => F32.sub x c) v)
       | _, _ => Raise RuntimeError
       end.

(** [Optimisation_VAE.centre_SNPs], utils_deep.py 112-118.  [MAF] is the
    minor-allele-frequency vector.  [data - 2*MAF] broadcasts the vector
    over the rows; [MAF.repeat(data.shape[0], 1)] stacks one copy per row, so
    the second subtraction meets the same vector in every row. *)
Definition centre_SNPs (data : tensor) (MAF : row) : result tensor :=
  let MAF2 := map (F32.mul F32.two) MAF in
  (try data1 <- rmap (fun r => broadcast_sub r MAF2) data;
   try data2 <- rmap (fun r => broadcast_sub r MAF2) data1;
   Ok (map (map nan_to_zero) data2))%res.

(* ===================================================================== *)
(** * Python's [random] module                                            *)
(* ===================================================================== *)

(** The generator behind [random.seed] and [random.sample].  It is an
    external library: the development is parametric in it and relies only on
    the documented contract of [random.sample(range(n), k)] for [k <= n]:
    a list of [k] distinct members of the population. *)
Class RandomGen : Type := {
  rng : Type;
  (** [random.seed(a)]: the state depends on [a] alone. *)
  seed : Z -> rng;
  (** [random.sample(range(n), k)] for [0 <= k <= n], with the next state. *)
  sample : rng -> nat -> nat -> list nat * rng;
  sample_length : forall g n k, k <= n -> length (sample g n k).1 = k;
  sample_NoDup : forall g n k, k <= n -> NoDup (sample g n k).1;
  sample_lt : forall g n k i, k <= n -> i ∈ (sample g n k).1 -> i < n
}.

(** [random.sample(range(n), k)] with its argument check:
    "Sample larger than population or is negative". *)
Definition random_sample `{RG : RandomGen} (g : rng) (n : nat) (k : Z)
  : result (list nat) * rng :=
  if (k <? 0)%Z || (Z.of_nat n <? k)%Z then (Raise ValueError, g)
  else let '(idx, g') := sample g n (Z.to_nat k) in (Ok idx, g').

(** A small concrete generator: a linear congruential state, and a sample
    that reads [k] members off a rotation of the population. *)
Module Lcg.
Definition next (g : Z) : Z := ((1103515245 * g + 12345) mod 2147483648)%Z.
Definition sample (g : Z) (n k : nat) : list nat * Z :=
  let r := Z.to_nat (next g mod Z.of_nat n) in
  (take k (drop r (seq 0 n) ++ take r (seq 0 n)), next g).
End Lcg.

(* ===================================================================== *)
(** * Index selection                                                     *)
(* ===================================================================== *)

(** [np.setdiff1d(list(range(n)), idx)]: the members of [range(n)] that are
    not in [idx], ascending.  The first argument is already sorted and free
    of duplicates, so numpy's [unique] leaves it as it is.  (For [n = 0]
    numpy builds an empty float array, which is not a legal index array; the
    theorems below assume at least one sample.) *)
Definition setdiff1d_range (n : nat) (idx : list nat) : list nat :=
  filter (fun i => i ∉ idx) (seq 0 n).

(** [a[idx, :]]: integer-array indexing of the first axis; a position past
    the end raises [IndexError]. *)
Definition take_rows {A} (idx : list nat) (a : list A) : result (list A) :=
  rmap (fun i => match a !! i with
                 | Some x => Ok x
                 | None => Raise IndexError
                 end) idx.

(** [data[0].shape[0]]. *)
Definition sample_count {A} (data : list (list A)) : result nat :=
  match data with
  | [] => Raise IndexError
  | d :: _ => Ok (length d)
  end.

(* ===================================================================== *)
(** * multiae/base/dataloaders.py                                         *)
(* ===================================================================== *)

Module MultiviewDataModule.

Record t : Type := {
  batch_size : Z;
  is_validate : bool;
  train_size : spec_float;
  data : list tensor;
  labels : option (list label)
}.

(** The two index arrays of [train_test_split], lines 44-46. *)
Definition split_indices `{RG : RandomGen} (g : rng) (self : t)
  : result (list nat * list nat) * rng :=
  match sample_count (data self) with
  | Raise e => (Raise e, g)
  | Ok N =>
      match int_of_product (Z.of_nat N) (train_size self) with
      | Raise e => (Raise e, g)
      | Ok k =>
          match random_sample g N k with
          | (Raise e, g') => (Raise e, g')
          | (Ok train_idx, g') =>
              (Ok (train_idx, setdiff1d_range N train_idx), g')
          end
      end
  end.

(** [train_test_split], lines 42-60: returns
    [(train_data, test_data, train_labels, test_labels)]. *)
Definition train_test_split `{RG : RandomGen} (g : rng) (self : t)
  : result (list tensor * list tensor
            * option (list label) * option (list label)) * rng :=
  match split_indices g self with
  | (Raise e, g') => (Raise e, g')
  | (Ok (train_idx, test_idx), g') =>
      ((try train_data <- rmap (take_rows train_idx) (data self);
        try test_data <- rmap (take_rows test_idx) (data self);
        match labels self with
        | None => Ok (train_data, test_data, None, None)
        | Some l =>
            try train_labels <- take_rows train_idx l;
            try test_labels <- take_rows test_idx l;
            Ok (train_data, test_data, Some train_labels, Some test_labels)
        end)%res, g')
  end.

End MultiviewDataModule.

(* ===================================================================== *)
(** * Dataset adapters and torch's DataLoader                             *)
(* ===================================================================== *)

(** What a [MyDataset_SNPs] object is built around: the tuple of views the
    caller passed, or another adapter object (see [generate_data]). *)
Inductive SnpSource : Type :=
| SnpViews (data : list tensor)
| SnpDataset (inner : SnpSource).

(** Modelled from the spec: the classes [MyDataset], [MyDataset_labels]
    and [MyDataset_SNPs] of [utils/datasets.py] are not among the sources.
    The spec describes them as thin adapters that "wrap raw per-view arrays
    (optionally with labels) into indexable sample providers": sample [i]
    of [MyDataset v] is row [i] of [v], sample [i] of [MyDataset_labels v l]
    is the pair of row [i] and label [i], and both have [len v] samples.
    Nothing is said about the samples of [MyDataset_SNPs]. *)
Inductive Dataset : Type :=
| MyDataset (data : tensor)
| MyDataset_labels (data : tensor) (labels : list label)
| MyDataset_SNPs (wrapped : SnpSource).

(** A collated batch: a stacked tensor, or the pair of a stacked tensor and
    the stacked labels. *)
Inductive batch : Type :=
| BData (x : tensor)
| BLabelled (x : tensor) (y : list label).

Definition batch_data (b : batch) : tensor :=
  match b with BData x => x | BLabelled x _ => x end.

Record DataLoader : Type := {
  dataset : Dataset;
  (** [None]: automatic batching disabled. *)
  loader_batch_size : option Z
}.

(** [DataLoader(dataset, batch_size=b, shuffle=False, **kwargs)]: torch
    refuses a batch size that is not positive. *)
Definition new_DataLoader (d : Dataset) (b : option Z) : result DataLoader :=
  match b with
  | Some z =>
      if (z <=? 0)%Z then Raise ValueError
      else Ok {| dataset := d; loader_batch_size := b |}
  | None => Ok {| dataset := d; loader_batch_size := None |}
  end.

(** [len(generator.dataset)]. *)
Definition dataset_len (d : Dataset) : result nat :=
  match d with
  | MyDataset v => Ok (length v)
  | MyDataset_labels v _ => Ok (length v)
  | MyDataset_SNPs _ => Raise Unmodelled
  end.

(** torch's [BatchSampler] over a sequential sampler with [drop_last=False]:
    indices are appended to the current batch, a full batch is yielded, and
    what is left at the end is yielded if it is not empty. *)
Fixpoint batch_sampler (b : nat) (idxs cur : list nat) : list (list nat) :=
  match idxs with
  | [] => match cur with [] => [] | _ => [cur] end
  | i :: rest =>
      let cur' := cur ++ [i] in
      if Nat.eqb (length cur') b then cur' :: batch_sampler b rest []
      else batch_sampler b rest cur'
  end.

(** Fetch and collate the samples of one index batch. *)
Definition fetch_batch (d : Dataset) (idxs : list nat) : result batch :=
  match d with
  | MyDataset v => (try x <- take_rows idxs v; Ok (BData x))%res
  | MyDataset_labels v l =>
      (try x <- take_rows idxs v;
       try y <- take_rows idxs l;
       Ok (BLabelled x y))%res
  | MyDataset_SNPs _ => Raise Unmodelled
  end.

(** One pass over a generator: the batches in order, each fetched when the
    loop asks for it, so a failing fetch surfaces at its own position.  The
    streams of an SNP adapter and of a loader without batching are outside
    the model: their first fetch is [Unmodelled]. *)
Definition batches (g : DataLoader) : list (result batch) :=
  match dataset g, loader_batch_size g with
  | MyDataset_SNPs _, _ => [Raise Unmodelled]
  | _, None => [Raise Unmodelled]
  | d, Some b =>
      match dataset_len d with
      | Ok n => map (fetch_batch d) (batch_sampler (Z.to_nat b) (seq 0 n) [])
      | Raise e => [Raise e]
      end
  end.

(** [len(generator)]: [(n + b - 1) // b] batches. *)
Definition loader_len (g : DataLoader) : result Z :=
  (try n <- dataset_len (dataset g);
   match loader_batch_size g with
   | Some b => Ok ((Z.of_nat n + b - 1) / b)%Z
   | None => Ok (Z.of_nat n)
   end)%res.

(** The heads of all streams, pulled left to right as [zip] does: [None]
    when a stream is exhausted, an exception when a fetch fails first. *)
Fixpoint pull_heads {A} (ss : list (list (result A)))
  : option (result (list A)) :=
  match ss with
  | [] => Some (Ok [])
  | [] :: _ => None
  | (Raise e :: _) :: _ => Some (Raise e)
  | (Ok b :: _) :: rest =>
      match pull_heads rest with
      | None => None
      | Some (Raise e) => Some (Raise e)
      | Some (Ok bs) => Some (Ok (b :: bs))
      end
  end.

Fixpoint zip_streams {A} (fuel : nat) (ss : list (list (result A)))
  : list (result (list A)) :=
  match fuel with
  | 0 => []
  | S fuel' =>
      match pull_heads ss with
      | None => []
      | Some (Raise e) => [Raise e]
      | Some (Ok bs) => Ok bs :: zip_streams fuel' (map (drop 1) ss)
      end
  end.

(** [zip] over the unpacked generators: synchronized tuples of batches,
    as long as every generator has one; [zip()] of nothing is empty. *)
Definition zip_generators (generators : list DataLoader)
  : list (result (list batch)) :=
  let ss := map batches generators in
  match ss with
  | [] => []
  | s :: _ => zip_streams (length s) ss
  end.

(* ===================================================================== *)
(** * The logger                                                          *)
(* ===================================================================== *)

(** A loss record: named loss components, e.g. [total], [kl], [ll]. *)
Abbreviation loss_record := (gmap string spec_float).

(** Modelled from the spec: the class [Logger] of [utils/io_utils.py] is
    not among the sources.  The spec gives its interface:
    [on_train_init(field_names)] and [on_step_fi(loss_record)], which
    "accumulates a history of named scalar series across epochs".
    [on_train_init] opens an empty series per field name (it is handed the
    names only, no values); [on_step_fi] appends each component of the record
    to the series of its name, and a name without a series is a [KeyError]. *)
Module Logger.
Record t : Type := { logs : gmap string (list spec_float) }.

(** [Logger()]. *)
Definition new : t := {| logs := ∅ |}.

Definition on_train_init (self : t) (keys : list string) : t :=
  {| logs := foldl (fun m k => <[k := []]> m) (logs self) keys |}.

Definition on_step_fi (self : t) (loss : loss_record) : result t :=
  if decide (dom loss ⊆ dom (logs self)) then
    Ok {| logs :=
           merge (fun h v =>
                    match h, v with
                    | Some h, Some v => Some (h ++ [v])
                    | Some h, None => Some h
                    | None, _ => None
                    end) (logs self) loss |}
  else Raise KeyError.
End Logger.

(** [list(loss.keys())]. *)
Definition loss_keys (loss : loss_record) : list string :=
  (map_to_list loss).*1.

(* ===================================================================== *)
(** * The state-and-exception monad of the driver                         *)
(* ===================================================================== *)

Definition M (S A : Type) : Type := S -> result A * S.

Definition ret {S A} (a : A) : M S A := fun s => (Ok a, s).
Definition raise {S A} (e : exn) : M S A := fun s => (Raise e, s).
Definition bind {S A B} (m : M S A) (k : A -> M S B) : M S B :=
  fun s => match m s with
           | (Ok a, s') => k a s'
           | (Raise e, s') => (Raise e, s')
           end.
Definition get {S} : M S S := fun s => (Ok s, s).
Definition modify {S} (f : S -> S) : M S unit := fun s => (Ok tt, f s).
Definition lift {S A} (r : result A) : M S A := fun s => (r, s).

Declare Scope driver_scope.
Delimit Scope driver_scope with drv.
Notation "'do' x <- e ; k" := (bind e (fun x => k))
  (at level 10, x pattern, e at level 100, k at level 200) : driver_scope.
Notation "e ;; k" := (bind e (fun _ => k))
  (at level 100, k at level 200, right associativity) : driver_scope.

(** A [for] loop over [xs] whose body updates the loop's local variables
    [l]; an exception leaves the loop. *)
Fixpoint for_each {S A L} (xs : list A) (body : A -> L -> M S L) (l : L)
  : M S L :=
  match xs with
  | [] => ret l
  | x :: xs' => (do l' <- body x l; for_each xs' body l')%drv
  end.

(** A local variable that is read before any assignment. *)
Definition bound {S A} (v : option A) : M S A :=
  match v with
  | Some a => ret a
  | None => raise UnboundLocalError
  end.

(* ===================================================================== *)
(** * src/models/utils_deep.py: Optimisation_VAE                          *)
(* ===================================================================== *)

(** What a model is handed as [local_batch] / [data]: the list of per-view
    tensors, or the two-element list of that list and the label batch. *)
Inductive net_input : Type :=
| Unlabelled (views : list tensor)
| Labelled (views : list tensor) (y : list label).

(** The latent prediction: one joint tensor or one tensor per view. *)
Inductive latents : Type :=
| Joint (z : tensor)
| PerView (zs : list tensor).

(** The collaborator calls the driver makes, in program order (a ghost
    record: the Python code keeps no such list). *)
Inductive event : Type :=
| EvOptimiseBatch (local_batch : net_input)
| EvValidateBatch (local_batch : net_input)
| EvOptimizerStep
| EvSaveModel
| EvPlotLosses.

(** The model family: the methods a subclass of [Optimisation_VAE] brings
    ([forward], [loss_function], [encode], [reparameterise],
    [apply_threshold]) and what torch does for it ([train], [eval],
    [manual_seed], [zero_grad], [backward], [step]).  [Net] is everything
    the [nn.Module] and the torch runtime hold: weights, optimizer state,
    train/eval mode, torch's random state.  Each method may read and update
    it; the leading [bool] says whether gradients are being tracked
    ([false] inside [torch.no_grad()]). *)
Record Family (Net Fwd Enc : Type) : Type := {
  train : Net -> Net;
  eval : Net -> Net;
  manual_seed : Z -> Net -> Net;
  forward : bool -> net_input -> Net -> result Fwd * Net;
  loss_function : bool -> net_input -> Fwd -> Net -> result loss_record * Net;
  zero_grad : Net -> Net;
  backward : net_input -> Fwd -> Net -> Net;
  step : Net -> Net;
  encode : bool -> net_input -> Net -> result Enc * Net;
  reparameterise : bool -> Enc -> Net -> result latents * Net;
  apply_threshold : latents -> Net -> result latents * Net
}.
Arguments train {Net Fwd Enc} _ _.
Arguments eval {Net Fwd Enc} _ _.
Arguments manual_seed {Net Fwd Enc} _ _ _.
Arguments forward {Net Fwd Enc} _ _ _ _.
Arguments loss_function {Net Fwd Enc} _ _ _ _ _.
Arguments zero_grad {Net Fwd Enc} _ _.
Arguments backward {Net Fwd Enc} _ _ _ _.
Arguments step {Net Fwd Enc} _ _.
Arguments encode {Net Fwd Enc} _ _ _ _.
Arguments reparameterise {Net Fwd Enc} _ _ _ _.
Arguments apply_threshold {Net Fwd Enc} _ _ _.

Module Optimisation_VAE.

(** The attributes of [self] the driver reads or writes.  [batch_size],
    [SNP_model], [sparse], [joint_representation] and [z_dim] exist when
    the constructor returns; the others are assigned by [fit] or
    [predict_latents].  [py_random] is the state of the interpreter's
    [random] module, threaded along with the instance. *)
Record Model (G Net : Type) : Type := {
  batch_size : option Z;
  SNP_model : bool;
  sparse : bool;
  joint_representation : bool;
  z_dim : Z;
  use_GPU : bool;
  save_model : bool;
  n_epochs : Z;
  data : list tensor;
  labels : option (list label);
  MAF_file : option row;
  val_set : bool;
  val_logger : option Logger.t;
  net : Net;
  py_random : G;
  trace : list event
}.
Arguments batch_size {G Net} _.
Arguments SNP_model {G Net} _.
Arguments sparse {G Net} _.
Arguments joint_representation {G Net} _.
Arguments z_dim {G Net} _.
Arguments use_GPU {G Net} _.
Arguments save_model {G Net} _.
Arguments n_epochs {G Net} _.
Arguments data {G Net} _.
Arguments labels {G Net} _.
Arguments MAF_file {G Net} _.
Arguments val_set {G Net} _.
Arguments val_logger {G Net} _.
Arguments net {G Net} _.
Arguments py_random {G Net} _.
Arguments trace {G Net} _.

(** What [fit] hands to [optimise] as [generators] or [data]: one
    collection, or with a validation split the pair [train, validation]. *)
Inductive split (A : Type) : Type :=
| Whole (a : A)
| TrainVal (tr va : A).
Arguments Whole {A} a.
Arguments TrainVal {A} tr va.

Section Driver.
Context `{RG : RandomGen} {Net Fwd Enc : Type}.
Variable F : Family Net Fwd Enc.

Abbreviation Self := (Model rng Net).
Abbreviation Drv := (M Self).

(** Attribute assignments. *)
Definition set_use_GPU v (s : Self) : Self :=
  {| batch_size := batch_size s; SNP_model := SNP_model s; sparse := sparse s;
     joint_representation := joint_representation s; z_dim := z_dim s;
     use_GPU := v; save_model := save_model s; n_epochs := n_epochs s;
     data := data s; labels := labels s; MAF_file := MAF_file s;
     val_set := val_set s; val_logger := val_logger s; net := net s;
     py_random := py_random s; trace := trace s |}.
Definition set_save_model v (s : Self) : Self :=
  {| batch_size := batch_size s; SNP_model := SNP_model s; sparse := sparse s;
     joint_representation := joint_representation s; z_dim := z_dim s;
     use_GPU := use_GPU s; save_model := v; n_epochs := n_epochs s;
     data := data s; labels := labels s; MAF_file := MAF_file s;
     val_set := val_set s; val_logger := val_logger s; net := net s;
     py_random := py_random s; trace := trace s |}.
Definition set_n_epochs v (s : Self) : Self :=
  {| batch_size := batch_size s; SNP_model := SNP_model s; sparse := sparse s;
     joint_representation := joint_representation s; z_dim := z_dim s;
     use_GPU := use_GPU s; save_model := save_model s; n_epochs := v;
     data := data s; labels := labels s; MAF_file := MAF_file s;
     val_set := val_set s; val_logger := val_logger s; net := net s;
     py_random := py_random s; trace := trace s |}.
Definition set_batch_size v (s : Self) : Self :=
  {| batch_size := v; SNP_model := SNP_model s; sparse := sparse s;
     joint_representation := joint_representation s; z_dim := z_dim s;
     use_GPU := use_GPU s; save_model := save_model s; n_epochs := n_epochs s;
     data := data s; labels := labels s; MAF_file := MAF_file s;
     val_set := val_set s; val_logger := val_logger s; net := net s;
     py_random := py_random s; trace := trace s |}.
Definition set_data v (s : Self) : Self :=
  {| batch_size := batch_size s; SNP_model := SNP_model s; sparse := sparse s;
     joint_representation := joint_representation s; z_dim := z_dim s;
     use_GPU := use_GPU s; save_model := save_model s; n_epochs := n_epochs s;
     data := v; labels := labels s; MAF_file := MAF_file s;
     val_set := val_set s; val_logger := val_logger s; net := net s;
     py_random := py_random s; trace := trace s |}.
Definition set_labels v (s : Self) : Self :=
  {| batch_size := batch_size s; SNP_model := SNP_model s; sparse := sparse s;
     joint_representation := joint_representation s; z_dim := z_dim s;
     use_GPU := use_GPU s; save_model := save_model s; n_epochs := n_epochs s;
     data := data s; labels := v; MAF_file := MAF_file s;
     val_set := val_set s; val_logger := val_logger s; net := net s;
     py_random := py_random s; trace := trace s |}.
Definition set_MAF_file v (s : Self) : Self :=
  {| batch_size := batch_size s; SNP_model := SNP_model s; sparse := sparse s;
     joint_representation := joint_representation s; z_dim := z_dim s;
     use_GPU := use_GPU s; save_model := save_model s; n_epochs := n_epochs s;
     data := data s; labels := labels s; MAF_file := v;
     val_set := val_set s; val_logger := val_logger s; net := net s;
     py_random := py_random s; trace := trace s |}.
Definition set_val_set v (s : Self) : Self :=
  {| batch_size := batch_size s; SNP_model := SNP_model s; sparse := sparse s;
     joint_representation := joint_representation s; z_dim := z_dim s;
     use_GPU := use_GPU s; save_model := save_model s; n_epochs := n_epochs s;
     data := data s; labels := labels s; MAF_file := MAF_file s;
     val_set := v; val_logger := val_logger s; net := net s;
     py_random := py_random s; trace := trace s |}.
Definition set_val_logger v (s : Self) : Self :=
  {| batch_size := batch_size s; SNP_model := SNP_model s; sparse := sparse s;
     joint_representation := joint_representation s; z_dim := z_dim s;
     use_GPU := use_GPU s; save_model := save_model s; n_epochs := n_epochs s;
     data := data s; labels := labels s; MAF_file := MAF_file s;
     val_set := val_set s; val_logger := v; net := net s;
     py_random := py_random s; trace := trace s |}.
Definition set_net v (s : Self) : Self :=
  {| batch_size := batch_size s; SNP_model := SNP_model s; sparse := sparse s;
     joint_representation := joint_representation s; z_dim := z_dim s;
     use_GPU := use_GPU s; save_model := save_model s; n_epochs := n_epochs s;
     data := data s; labels := labels s; MAF_file := MAF_file s;
     val_set := val_set s; val_logger := val_logger s; net := v;
     py_random := py_random s; trace := trace s |}.
Definition set_py_random v (s : Self) : Self :=
  {| batch_size := batch_size s; SNP_model := SNP_model s; sparse := sparse s;
     joint_representation := joint_representation s; z_dim := z_dim s;
     use_GPU := use_GPU s; save_model := save_model s; n_epochs := n_epochs s;
     data := data s; labels := labels s; MAF_file := MAF_file s;
     val_set := val_set s; val_logger := val_logger s; net := net s;
     py_random := v; trace := trace s |}.
Definition set_trace v (s : Self) : Self :=
  {| batch_size := batch_size s; SNP_model := SNP_model s; sparse := sparse s;
     joint_representation := joint_representation s; z_dim := z_dim s;
     use_GPU := use_GPU s; save_model := save_model s; n_epochs := n_epochs s;
     data := data s; labels := labels s; MAF_file := MAF_file s;
     val_set := val_set s; val_logger := val_logger s; net := net s;
     py_random := py_random s; trace := v |}.

(** Append to the ghost record. *)
Definition emit (e : event) : Drv unit :=
  modify (fun s => set_trace (trace s ++ [e]) s).

(** A torch call that only updates the module. *)
Definition torch (f : Net -> Net) : Drv unit :=
  modify (fun s => set_net (f (net s)) s).

(** A method of the family: runs on the module, may raise. *)
Definition call {A} (f : Net -> result A * Net) : Drv A :=
  fun s => let '(r, n) := f (net s) in (r, set_net n s).

(** ** [generate_data], lines 16-69 *)

(** The loop of the [SNP_model] branch (lines 20-28).  Its body rebinds
    [data] itself: [data = MyDataset_SNPs(data)].  The iteration runs over
    the views the caller passed, but every generator is built around the
    current value of [data] (first the whole tuple of views, then the
    adapter object of the previous round), never around the view [data_]. *)
Fixpoint snp_generators {A} (views : list A) (data : SnpSource)
    (batch_sz : option Z) : result (list DataLoader) :=
  match views with
  | [] => Ok []
  | _ :: views' =>
      (try generator <- new_DataLoader (MyDataset_SNPs data) batch_sz;
       try generators <- snp_generators views' (SnpDataset data) batch_sz;
       Ok (generator :: generators))%res
  end.

Definition generate_data (self : Self) (data : list tensor)
    (labels : option (list label)) : result (list DataLoader) :=
  let batch_sz := batch_size self in
  if SNP_model self then snp_generators data (SnpViews data) batch_sz
  else match labels with
       | Some labels =>
           rmap (fun data_ =>
                   let batch_sz :=
                     match batch_size self with
                     | Some b => b
                     | None => Z.of_nat (length data_)
                     end in
                   new_DataLoader (MyDataset_labels data_ labels) (Some batch_sz))
                data
       | None =>
           rmap (fun data_ =>
                   let batch_sz_tmp :=
                     match batch_sz with
                     | Some b => b
                     | None => Z.of_nat (length data_)
                     end in
                   new_DataLoader (MyDataset data_) (Some batch_sz_tmp))
                data
       end.

(** ** [data_split], lines 71-83 *)

(** Lines 72-74: the generator is re-seeded with 42 on every call, and the
    training share is the literal [0.8]; the parameter [split] is not read. *)
Definition data_split_indices (data : list tensor)
  : result (list nat * list nat) * rng :=
  let g := seed 42 in
  match sample_count data with
  | Raise e => (Raise e, g)
  | Ok n =>
      match int_of_product (Z.of_nat n) F64.lit_0_8 with
      | Raise e => (Raise e, g)
      | Ok k =>
          match random_sample g n k with
          | (Raise e, g') => (Raise e, g')
          | (Ok idx_1, g') => (Ok (idx_1, setdiff1d_range n idx_1), g')
          end
      end
  end.

(** [g] is the state of [random] when the method is entered. *)
Definition data_split (g : rng) (data : list tensor) (split : spec_float)
  : result (list tensor * list tensor) * rng :=
  match data_split_indices data with
  | (Raise e, g') => (Raise e, g')
  | (Ok (idx_1, idx_2), g') =>
      ((try data_1 <- rmap (take_rows idx_1) data;
        try data_2 <- rmap (take_rows idx_2) data;
        Ok (data_1, data_2))%res, g')
  end.

(** The default of [split]: the literal [0.9]. *)
Definition lit_0_9 : spec_float := S754_finite false 8106479329266893 (-53).

(** ** [preprocess] and [preprocess_run], lines 85-105 *)

(** [[data_.to(self.device) for data_ in data]]: every element of the
    tuple is a tensor. *)
Definition tensors_of (bs : list batch) : result (list tensor) :=
  rmap (fun b => match b with
                 | BData x => Ok x
                 | BLabelled _ _ => Raise AttributeError
                 end) bs.

(** [[data_[0] ...]] and [[data_[1] ...]] over a tuple of (tensor, labels)
    pairs, then [labels[0]].  Indexing a bare tensor this way picks rows
    instead; that use is outside the model. *)
Definition tensors_and_labels (bs : list batch)
  : result (list tensor * list label) :=
  (try data <- rmap (fun b => match b with
                              | BLabelled x _ => Ok x
                              | BData _ => Raise Unmodelled
                              end) bs;
   try labels <- rmap (fun b => match b with
                                | BLabelled _ y => Ok y
                                | BData _ => Raise Unmodelled
                                end) bs;
   match labels with
   | y :: _ => Ok (data, y)
   | [] => Raise IndexError
   end)%res.

(** The last value a loop variable took, if the loop ran at all. *)
Fixpoint last_batch {A} (stream : list (result A)) (cur : option A)
  : result (option A) :=
  match stream with
  | [] => Ok cur
  | Ok b :: rest => last_batch rest (Some b)
  | Raise e :: _ => Raise e
  end.

Definition preprocess_run (generators : list DataLoader) (labels : bool)
  : result net_input :=
  (try last <- last_batch (zip_generators generators) None;
   match last with
   | None => Raise UnboundLocalError
   | Some bs =>
       if labels then
         try dl <- tensors_and_labels bs; Ok (Labelled dl.1 dl.2)
       else
         try data <- tensors_of bs; Ok (Unlabelled data)
   end)%res.

(** With [val_set] the argument is the pair of generator lists; handing it
    a flat list (or the reverse) makes [zip] run over batches instead of
    generators, which is outside the model. *)
Definition preprocess (self : Self) (generators : split (list DataLoader))
    (labels : bool) : result (split net_input) :=
  match val_set self, generators with
  | true, TrainVal tr va =>
      (try d1 <- preprocess_run tr labels;
       try d2 <- preprocess_run va labels;
       Ok (TrainVal d1 d2))%res
  | false, Whole gs =>
      (try d <- preprocess_run gs labels; Ok (Whole d))%res
  | _, _ => Raise Unmodelled
  end.

Definition init_optimisation : Drv unit := torch (train F).
Definition end_optimisation : Drv unit := torch (eval F).

(** ** [optimise_batch] and [validate_batch], lines 178-191 *)

Definition optimise_batch_body (local_batch : net_input)
  : Drv loss_record :=
  (do fwd_return <- call (forward F true local_batch);
   do loss <- call (loss_function F true local_batch fwd_return);
   torch (zero_grad F);;
   match loss !! "total"%string with
   | None => raise KeyError
   | Some _ =>
       torch (backward F local_batch fwd_return);;
       torch (step F);;
       emit EvOptimizerStep;;
       ret loss
   end)%drv.

(** The ghost record notes the entry, then the body runs. *)
Definition optimise_batch (local_batch : net_input) : Drv loss_record :=
  (emit (EvOptimiseBatch local_batch);; optimise_batch_body local_batch)%drv.

Definition validate_batch (local_batch : net_input) : Drv loss_record :=
  (emit (EvValidateBatch local_batch);;
   torch (eval F);;
   do fwd_rtn <- call (forward F false local_batch);
   do loss <- call (loss_function F false local_batch fwd_rtn);
   ret loss)%drv.

(** ** [iterate_batch], lines 160-176 *)

(** Lines 162-170: what becomes of one tuple of batches before the step. *)
Definition prepare_batch (self : Self) (local_batch : list batch)
  : result net_input :=
  (try local_batch <-
     (if SNP_model self then
        match MAF_file self with
        | None => Raise TypeError
        | Some maf =>
            try centred <- rmap (fun b => match b with
                                          | BData t => centre_SNPs t maf
                                          | BLabelled _ _ => Raise TypeError
                                          end) local_batch;
            Ok (map BData centred)
        end
      else Ok local_batch);
   match labels self with
   | Some _ =>
       try dl <- tensors_and_labels local_batch; Ok (Labelled dl.1 dl.2)
   | None =>
       try data <- tensors_of local_batch; Ok (Unlabelled data)
   end)%res.

(** The body of the loop (lines 162-175): [fetched] is what the iterator
    hands over, the second argument is the previous value of [loss]. *)
Definition iterate_step (fetched : result (list batch))
    (_ : option loss_record) : Drv (option loss_record) :=
  (do local_batch <- lift fetched;
   do self <- get;
   do local_batch <- lift (prepare_batch self local_batch);
   do loss <- (if val_set self then validate_batch local_batch
               else optimise_batch local_batch);
   ret (Some loss))%drv.

Definition iterate_batch (generators : list DataLoader) (epoch : Z)
    (verbose : bool) : Drv loss_record :=
  (do loss <- for_each (zip_generators generators) iterate_step None;
   bound loss)%drv.

(** ** [optimise], lines 120-158 *)

(** The train half of one epoch (lines 130-143).  [logger] is the local
    variable of that name: unbound until the first epoch binds it. *)
Definition train_epoch (generators : option (list DataLoader))
    (data : net_input) (epoch : Z) (logger : option Logger.t)
  : Drv (option Logger.t) :=
  (init_optimisation;;
   do self <- get;
   do loss <-
     match batch_size self, generators with
     | Some _, Some gs => iterate_batch gs epoch true
     | _, _ => optimise_batch data
     end;
   if (epoch =? 1)%Z then
     let log_keys := loss_keys loss in
     ret (Some (Logger.on_train_init Logger.new log_keys))
   else
     do logger <- bound logger;
     do logger <- lift (Logger.on_step_fi logger loss);
     ret (Some logger))%drv.

(** The validation half of one epoch (lines 145-157); [val_generators] and
    [val_data] are unbound unless the unpacking at the top bound them. *)
Definition val_epoch (val_generators : option (list DataLoader))
    (val_data : option net_input) (epoch : Z) : Drv unit :=
  (do self <- get;
   if val_set self then
     do val_loss <-
       match batch_size self with
       | Some _ =>
           do vg <- bound val_generators; iterate_batch vg epoch true
       | None =>
           do vd <- bound val_data; validate_batch vd
       end;
     if (epoch =? 1)%Z then
       let log_keys := loss_keys val_loss in
       modify (set_val_logger
                 (Some (Logger.on_train_init Logger.new log_keys)))
     else
       do self <- get;
       match val_logger self with
       | None => raise AttributeError
       | Some vl =>
           do vl <- lift (Logger.on_step_fi vl val_loss);
           modify (set_val_logger (Some vl))
       end
   else ret tt)%drv.

(** The body of the epoch loop, lines 130-157. *)
Definition epoch_step (generators val_generators : option (list DataLoader))
    (data : net_input) (val_data : option net_input) (epoch : Z)
    (logger : option Logger.t) : Drv (option Logger.t) :=
  (do logger <- train_epoch generators data epoch logger;
   val_epoch val_generators val_data epoch;;
   ret logger)%drv.

(** [range(1, n_epochs + 1)]. *)
Definition epochs (n_epochs : Z) : list Z :=
  map (fun i => Z.of_nat i) (seq 1 (Z.to_nat n_epochs)).

(** [generators] is [None] when the caller passed [data=...] and the
    reverse ([data]'s default is the empty list).  [fit] passes the pair
    [train, validation] exactly when [val_set] is set; a call of another
    shape would index into the wrong kind of list and is outside the
    model. *)
Definition optimise (generators : option (split (list DataLoader)))
    (data : option (split net_input)) : Drv Logger.t :=
  (do self <- get;
   do (generators, val_generators, data, val_data) <-
     (if val_set self then
        match generators, data with
        | Some (TrainVal g vg), None =>
            ret (Some g, Some vg, Unlabelled [], None)
        | None, Some (TrainVal d vd) => ret (None, None, d, Some vd)
        | None, None => raise IndexError
        | _, _ => raise Unmodelled
        end
      else
        match generators, data with
        | Some (Whole g), None => ret (Some g, None, Unlabelled [], None)
        | None, Some (Whole d) => ret (None, None, d, None)
        | None, None => ret (None, None, Unlabelled [], None)
        | _, _ => raise Unmodelled
        end);
   do logger <-
     for_each (epochs (n_epochs self))
       (epoch_step generators val_generators data val_data) None;
   bound logger)%drv.

(** ** [fit], lines 220-268 *)

(** The keyword arguments of [fit].  [output_path] only names where the
    model file goes, and extra keywords ([**kwargs], copied into the
    instance dictionary) are not represented: the embedding covers calls
    that pass none. *)
Record fit_kw : Type := {
  kw_labels : option (list label);
  kw_MAF_file : option row;
  kw_use_GPU : bool;
  kw_save_model : bool;
  kw_n_epochs : Z;
  kw_batch_size : option Z;
  kw_val_set : bool
}.

(** The defaults of the signature. *)
Definition fit_defaults : fit_kw :=
  {| kw_labels := None; kw_MAF_file := None; kw_use_GPU := true;
     kw_save_model := false; kw_n_epochs := 200; kw_batch_size := None;
     kw_val_set := true |}.

(** Lines 221-236: the assignments.  The keyword [batch_size] is accepted
    and never read: line 225 assigns the attribute to itself.  (Writing the
    model file and the plots, further down, is I/O; it is recorded in the
    ghost record only, and the prompt loop over an existing path is not
    represented.) *)
Definition fit_assign (data : list tensor) (kw : fit_kw) : Drv unit :=
  (modify (set_use_GPU (kw_use_GPU kw));;
   modify (set_save_model (kw_save_model kw));;
   modify (set_n_epochs (kw_n_epochs kw));;
   modify (fun self => set_batch_size (batch_size self) self);;
   modify (set_data data);;
   modify (set_labels (kw_labels kw));;
   modify (set_MAF_file (kw_MAF_file kw));;
   torch (manual_seed F 42);;
   modify (set_val_set (kw_val_set kw)))%drv.

(** Lines 254-268: back to evaluation mode, the optional save, and the
    logger as the result. *)
Definition fit_finish (logger : Logger.t) : Drv Logger.t :=
  (end_optimisation;;
   do self <- get;
   (if save_model self then
      emit EvSaveModel;;
      emit EvPlotLosses;;
      do self <- get;
      if val_set self then
        match val_logger self with
        | None => raise AttributeError
        | Some _ => emit EvPlotLosses
        end
      else ret tt
    else ret tt);;
   ret logger)%drv.

(** Lines 238-253: generators, then the optimisation. *)
Definition fit_run (data : list tensor) : Drv Logger.t :=
  (do self <- get;
   do generators <-
     (if val_set self then
        do (data_1, data_2) <-
          (fun s => let '(r, g) := data_split (py_random s) data lit_0_9 in
                    (r, set_py_random g s));
        do self <- get;
        do g1 <- lift (generate_data self data_1 (labels self));
        do g2 <- lift (generate_data self data_2 (labels self));
        ret (TrainVal g1 g2)
      else
        do gs <- lift (generate_data self data (labels self));
        ret (Whole gs));
   do self <- get;
   do logger <-
     match batch_size self with
     | Some _ => optimise (Some generators) None
     | None =>
         do data <- lift (preprocess self generators
                            (match labels self with
                             | Some _ => true
                             | None => false
                             end));
         optimise None (Some data)
     end;
   fit_finish logger)%drv.

Definition fit (data : list tensor) (kw : fit_kw) : Drv Logger.t :=
  (fit_assign data kw;; fit_run data)%drv.

(** ** [predict_latents], lines 287-335 *)

(** Lines 319-322 (and the same four lines of every [predict_*] method):
    the slice of the accumulator that batch [batch_idx] is written to. *)
Definition batch_window (num_elements batch_size num_batches batch_idx : Z)
  : Z * Z :=
  let start := (batch_idx * batch_size)%Z in
  let end_ := (start + batch_size)%Z in
  let end_ := if (batch_idx =? num_batches - 1)%Z then num_elements
              else end_ in
  (start, end_).

(** [torch.zeros(num_elements, z_dim)]. *)
Definition zeros (num_elements : nat) (z_dim : Z) : tensor :=
  replicate num_elements (replicate (Z.to_nat z_dim) F32.zero).

(** [acc[start:end, :] = v] for [0 <= start]: the slice is clipped to the
    accumulator, and [v] must have its shape.  A [v] that torch would
    stretch (a single row, or rows of another width) is outside the model;
    any other mismatch is torch's [RuntimeError]. *)
Definition slice_assign (acc : tensor) (start end_ : Z) (v : tensor)
  : result tensor :=
  let n := length acc in
  let s := Nat.min (Z.to_nat start) n in
  let e := Nat.max s (Nat.min (Z.to_nat end_) n) in
  let width := match acc with r :: _ => length r | [] => 0 end in
  if Nat.eqb (length v) (e - s)
     && forallb (fun r => Nat.eqb (length r) width) v
  then Ok (take s acc ++ v ++ drop e acc)
  else if Nat.eqb (length v) 1
          || existsb (fun r => Nat.eqb (length r) 1) v
       then Raise Unmodelled
       else Raise RuntimeError.

(** Lines 323-327: the write of one batch's prediction. *)
Definition write_prediction (joint : bool) (predictions pred : latents)
    (start end_ : Z) : result latents :=
  match joint, predictions, pred with
  | true, Joint acc, Joint z =>
      (try acc <- slice_assign acc start end_ z; Ok (Joint acc))%res
  | true, _, _ => Raise TypeError
  | false, PerView accs, PerView zs =>
      (try accs <-
         (fix go (i : nat) (zs : list tensor) (accs : list tensor)
            : result (list tensor) :=
            match zs with
            | [] => Ok accs
            | pred_ :: zs' =>
                match accs !! i with
                | None => Raise IndexError
                | Some acc =>
                    try acc <- slice_assign acc start end_ pred_;
                    go (S i) zs' (<[i := acc]> accs)
                end
            end) 0 zs accs;
       Ok (PerView accs))%res
  | false, _, _ => Raise Unmodelled
  end.

(** Lines 288-290.  The keyword defaults are [labels=None] and
    [val_set=False]: a caller who leaves one out passes [None] here. *)
Definition predict_latents_assign (data : list tensor)
    (labels : option (option (list label))) (val_set : option bool)
  : Drv unit :=
  (modify (set_data data);;
   modify (set_labels (default None labels));;
   modify (set_val_set (default false val_set)))%drv.

(** Lines 291-335: everything after the three assignments. *)
Definition predict_latents_run : Drv latents :=
  (do self <- get;
   do generators <- lift (generate_data self (Optimisation_VAE.data self)
                            (Optimisation_VAE.labels self));
   do data <-
     match batch_size self with
     | None =>
         do d <- lift (preprocess self (Whole generators)
                         (match Optimisation_VAE.labels self with
                          | Some _ => true
                          | None => false
                          end));
         ret (Some d)
     | Some _ => ret None
     end;
   do g0 <- lift (match generators with
                  | g :: _ => Ok g
                  | [] => Raise IndexError
                  end);
   do num_elements <- lift (dataset_len (dataset g0));
   let batch_size := loader_batch_size g0 in
   do num_batches <- lift (loader_len g0);
   do predictions <-
     match Optimisation_VAE.batch_size self with
     | Some _ =>
         do batch_size <- lift (match batch_size with
                                | Some b => Ok b
                                | None => Raise TypeError
                                end);
         let predictions :=
           if joint_representation self
           then Joint (zeros num_elements (z_dim self))
           else PerView (map (fun _ => zeros num_elements (z_dim self))
                           generators) in
         do out <-
           for_each (zip_generators generators)
             (fun fetched '(batch_idx, predictions) =>
                do local_batch <- lift fetched;
                do self <- get;
                do local_batch <-
                  lift (match Optimisation_VAE.labels self with
                        | Some _ =>
                            try dl <- tensors_and_labels local_batch;
                            Ok (Labelled dl.1 dl.2)
                        | None =>
                            try d <- tensors_of local_batch;
                            Ok (Unlabelled d)
                        end)%res;
                do enc <- call (encode F false local_batch);
                do pred <- call (reparameterise F false enc);
                do pred <- (if sparse self
                            then call (apply_threshold F pred)
                            else ret pred);
                let '(start, end_) :=
                  batch_window (Z.of_nat num_elements) batch_size
                    num_batches batch_idx in
                do predictions <-
                  lift (write_prediction (joint_representation self)
                          predictions pred start end_);
                ret ((batch_idx + 1)%Z, predictions))
             (0%Z, predictions);
         ret out.2
     | None =>
         do data <- bound data;
         do data <- lift (match data with
                          | Whole d => Ok d
                          | TrainVal _ _ => Raise Unmodelled
                          end);
         do enc <- call (encode F false data);
         do predictions <- call (reparameterise F false enc);
         if sparse self then call (apply_threshold F predictions)
         else ret predictions
     end;
   do self <- get;
   match joint_representation self, predictions with
   | true, Joint z => ret (Joint z)
   | true, PerView _ => raise AttributeError
   | false, PerView zs => ret (PerView zs)
   | false, Joint _ => raise Unmodelled
   end)%drv.

Definition predict_latents (data : list tensor)
    (labels : option (option (list label))) (val_set : option bool)
  : Drv latents :=
  (predict_latents_assign data labels val_set;; predict_latents_run)%drv.

End Driver.
End Optimisation_VAE.

(* ===================================================================== *)
(** * A concrete generator and a concrete model family                    *)
(* ===================================================================== *)

Lemma rotation_Permutation (n r : nat) :
  drop r (seq 0 n) ++ take r (seq 0 n) ≡ₚ seq 0 n.
Proof.
  rewrite Permutation_app_comm. by rewrite take_drop.
Qed.

Lemma Lcg_sample_length (g : Z) (n k : nat) :
  k <= n -> length (Lcg.sample g n k).1 = k.
Proof.
  intros Hk. unfold Lcg.sample; simpl.
  rewrite length_take, (Permutation_length (rotation_Permutation n _)).
  rewrite length_seq. lia.
Qed.

Lemma Lcg_sample_NoDup (g : Z) (n k : nat) :
  k <= n -> NoDup (Lcg.sample g n k).1.
Proof.
  intros _. unfold Lcg.sample; simpl.
  eapply sublist_NoDup; [|apply sublist_take].
  rewrite rotation_Permutation. apply NoDup_seq.
Qed.

Lemma Lcg_sample_lt (g : Z) (n k i : nat) :
  k <= n -> i ∈ (Lcg.sample g n k).1 -> i < n.
Proof.
  intros _. unfold Lcg.sample; simpl. intros Hi.
  apply (subseteq_take k) in Hi.
  rewrite rotation_Permutation in Hi.
  apply elem_of_seq in Hi. lia.
Qed.

#[export] Instance Lcg_RandomGen : RandomGen := {|
  rng := Z;
  seed := fun a => a;
  sample := Lcg.sample;
  sample_length := Lcg_sample_length;
  sample_NoDup := Lcg_sample_NoDup;
  sample_lt := Lcg_sample_lt
|}.

(** A family small enough to run: the module counts its optimizer steps
    and remembers its mode and seed; every loss record has the fields
    [total], [kl] and [ll]; the latent of a sample is its first feature. *)
Module Toy.
Record Net : Type := { steps : nat; training : bool; torch_seed : Z }.

Definition loss : loss_record :=
  {[ "total"%string := F32.one; "kl"%string := F32.zero;
     "ll"%string := F32.one ]}.

Definition views_of (x : net_input) : list tensor :=
  match x with Unlabelled v => v | Labelled v _ => v end.

Definition family : Family Net unit (list tensor) := {|
  train := fun n => {| steps := steps n; training := true;
                       torch_seed := torch_seed n |};
  eval := fun n => {| steps := steps n; training := false;
                      torch_seed := torch_seed n |};
  manual_seed := fun z n => {| steps := steps n; training := training n;
                               torch_seed := z |};
  forward := fun _ _ n => (Ok tt, n);
  loss_function := fun _ _ _ n => (Ok loss, n);
  zero_grad := fun n => n;
  backward := fun _ _ n => n;
  step := fun n => {| steps := S (steps n); training := training n;
                      torch_seed := torch_seed n |};
  encode := fun _ x n => (Ok (views_of x), n);
  reparameterise := fun _ enc n =>
    (Ok (PerView (map (map (take 1)) enc)), n);
  apply_threshold := fun z n => (Ok z, n)
|}.

Definition net0 : Net := {| steps := 0; training := false; torch_seed := 0 |}.

(** An instance as the constructor leaves it, before [fit]. *)
Definition model (batch_size : option Z) : Optimisation_VAE.Model Z Net :=
  {| Optimisation_VAE.batch_size := batch_size;
     Optimisation_VAE.SNP_model := false;
     Optimisation_VAE.sparse := false;
     Optimisation_VAE.joint_representation := false;
     Optimisation_VAE.z_dim := 1;
     Optimisation_VAE.use_GPU := false;
     Optimisation_VAE.save_model := false;
     Optimisation_VAE.n_epochs := 0;
     Optimisation_VAE.data := [];
     Optimisation_VAE.labels := None;
     Optimisation_VAE.MAF_file := None;
     Optimisation_VAE.val_set := false;
     Optimisation_VAE.val_logger := None;
     Optimisation_VAE.net := net0;
     Optimisation_VAE.py_random := 0%Z;
     Optimisation_VAE.trace := [] |}.

(** [n] samples of [m] features; sample [i] is filled with the number [i]
    as a binary32 value. *)
Definition sample_row (m i : nat) : row :=
  replicate m (binary_normalize F32.prec F32.emax (Z.of_nat i) 0 false).
Definition view (n m : nat) : tensor := map (sample_row m) (seq 0 n).
End Toy.

(* ===================================================================== *)
(** * The scenario, and the vocabulary of the statements                  *)
(* ===================================================================== *)

(** Events of a training step. *)
Definition is_training_event (e : event) : bool :=
  match e with
  | EvOptimiseBatch _ | EvOptimizerStep => true
  | _ => false
  end.

Definition is_validation_event (e : event) : bool :=
  match e with
  | EvValidateBatch _ => true
  | _ => false
  end.

Module Scenario.
Import Optimisation_VAE.

(** Two views shaped (100, 10) and (100, 8), no labels. *)
Definition views : list tensor := [Toy.view 100 10; Toy.view 100 8].

(** [fit] on the views with [n_epochs=2, batch_size=25], on an instance
    constructed with [batch_size=25]. *)
Definition kw (val_set : bool) : fit_kw :=
  {| kw_labels := None; kw_MAF_file := None; kw_use_GPU := true;
     kw_save_model := false; kw_n_epochs := 2; kw_batch_size := Some 25%Z;
     kw_val_set := val_set |}.

Definition run (val_set : bool)
  : result Logger.t * Model Z Toy.Net :=
  fit Toy.family views (kw val_set) (Toy.model (Some 25%Z)).

(** The same call on views of 100 and 50 samples. *)
Definition run_mismatched : result Logger.t * Model Z Toy.Net :=
  fit Toy.family [Toy.view 100 10; Toy.view 50 8] (kw false)
    (Toy.model (Some 25%Z)).

(** An instance for genetic-variant views. *)
Definition snp_model : Model Z Toy.Net :=
  {| batch_size := Some 25%Z; SNP_model := true; sparse := false;
     joint_representation := false; z_dim := 1; use_GPU := false;
     save_model := false; n_epochs := 0; data := []; labels := None;
     MAF_file := None; val_set := false; val_logger := None;
     net := Toy.net0; py_random := 0%Z; trace := [] |}.
End Scenario.

(** Two views of five samples, five labels, a training share of 0.75. *)
Definition split_example : MultiviewDataModule.t :=
  {| MultiviewDataModule.batch_size := 2%Z;
     MultiviewDataModule.is_validate := true;
     MultiviewDataModule.train_size := F64.lit_0_75;
     MultiviewDataModule.data := [Toy.view 5 2; Toy.view 5 3];
     MultiviewDataModule.labels := Some [0; 1; 0; 1; 1]%Z |}.

(** [train] and [test] split [{0, ..., n-1}]: no index twice, none in both,
    and every index below [n] in one of them. *)
Definition is_partition (n : nat) (train test : list nat) : Prop :=
  NoDup train /\ NoDup test
  /\ (forall i, i ∈ train -> i ∉ test)
  /\ (forall i, i < n <-> i ∈ train \/ i ∈ test).

(** The rows of [a] at the positions [idx], in the order of [idx]. *)
Definition select_rows {A} (idx : list nat) (a : list A) : list A :=
  omap (fun i => a !! i) idx.

(** The positions a slice [[start:end]] addresses. *)
Definition window_indices (w : Z * Z) : list Z := seqZ w.1 (w.2 - w.1).

(** The generator [generate_data] builds for a plain view. *)
Definition plain_loader (b : Z) (v : tensor) : DataLoader :=
  {| dataset := MyDataset v; loader_batch_size := Some b |}.

(** Every series of the logger has at most [n] entries. *)
Definition history_bound (n : nat) (lg : Logger.t) : Prop :=
  map_Forall (fun _ h => length h <= n) (Logger.logs lg).

(** All batches of one pass, if every fetch succeeds. *)
Definition collect (stream : list (result batch)) : result (list batch) :=
  rmap (fun r => r) stream.

(* ===================================================================== *)
(** * Fallible list comprehensions                                        *)
(* ===================================================================== *)

Lemma rmap_ok {A B} (f : A -> result B) (g : A -> B) (l : list A) :
  Forall (fun a => f a = Ok (g a)) l -> rmap f l = Ok (map g l).
Proof.
  induction 1 as [|a l Ha _ IH]; simpl; [done|].
  by rewrite Ha, IH.
Qed.

Lemma rmap_length {A B} (f : A -> result B) (l : list A) (bs : list B) :
  rmap f l = Ok bs -> length bs = length l.
Proof.
  revert bs. induction l as [|a l IH]; simpl; intros bs H.
  - by inversion H.
  - destruct (f a); simpl in H; [|done].
    destruct (rmap f l) as [bs'|]; simpl in H; [|done].
    inversion H; subst; simpl. f_equal. by apply IH.
Qed.

Lemma rmap_lookup {A B} (f : A -> result B) (l : list A) (bs : list B) i a :
  rmap f l = Ok bs -> l !! i = Some a ->
  exists b, bs !! i = Some b /\ f a = Ok b.
Proof.
  revert bs i. induction l as [|x l IH]; simpl; intros bs i H Hi; [done|].
  destruct (f x) as [b|] eqn:Hx; simpl in H; [|done].
  destruct (rmap f l) as [bs'|] eqn:Hl; simpl in H; [|done].
  inversion H; subst. destruct i as [|i]; simpl in *.
  - inversion Hi; subst. eauto.
  - eapply IH; eauto.
Qed.

(* ===================================================================== *)
(** * SNP centring                                                        *)
(* ===================================================================== *)

Lemma F32_sub_zero (x : spec_float) : F32.sub x F32.zero = x.
Proof. by destruct x as [[]|[]| |]. Qed.

Lemma F32_two_zero : F32.mul F32.two F32.zero = F32.zero.
Proof. reflexivity. Qed.

Lemma broadcast_sub_same_length (r v : row) :
  length r = length v -> broadcast_sub r v = Ok (zip_with F32.sub r v).
Proof.
  intros H. unfold broadcast_sub. by rewrite H, Nat.eqb_refl.
Qed.

Lemma centre_row_twice (g : spec_float -> spec_float) (r M : row) :
  map nan_to_zero (zip_with F32.sub (zip_with F32.sub r (map g M)) (map g M))
  = zip_with (fun x f => nan_to_zero (F32.sub (F32.sub x (g f)) (g f))) r M.
Proof.
  revert M. induction r as [|x r IH]; intros [|f M]; simpl; [done..|].
  by rewrite IH.
Qed.

Lemma zip_with_zero_MAF (r M : row) :
  length r = length M -> Forall (fun f => f = F32.zero) M ->
  zip_with (fun x f => nan_to_zero
                         (F32.sub (F32.sub x (F32.mul F32.two f))
                                  (F32.mul F32.two f))) r M
  = map nan_to_zero r.
Proof.
  revert M. induction r as [|x r IH]; intros [|f M] Hlen HM;
    cbn [zip_with map length] in *; try done.
  inversion HM as [|? ? Hf HM']; subst.
  rewrite F32_two_zero, !F32_sub_zero. f_equal. apply IH; [lia|done].
Qed.

Lemma nan_to_zero_id (r : row) :
  Forall (fun x => F32.isnan x = false) r -> map nan_to_zero r = r.
Proof.
  induction 1 as [|x r Hx _ IH]; simpl; [done|].
  unfold nan_to_zero at 1. by rewrite Hx, IH.
Qed.

(** The closed form of [centre_SNPs] on a matrix whose rows are as wide as
    the frequency vector. *)
Lemma centre_SNPs_closed_form (data : tensor) (MAF : row) :
  Forall (fun r => length r = length MAF) data ->
  centre_SNPs data MAF
  = Ok (map (fun r =>
               zip_with (fun x f =>
                           nan_to_zero
                             (F32.sub (F32.sub x (F32.mul F32.two f))
                                      (F32.mul F32.two f))) r MAF) data).
Proof.
  intros Hw. unfold centre_SNPs.
  set (M2 := map (F32.mul F32.two) MAF).
  assert (HM2 : length M2 = length MAF) by apply length_map.
  rewrite (rmap_ok _ (fun r => zip_with F32.sub r M2)); simpl.
  2:{ eapply Forall_impl; [exact Hw|]. intros r Hr; cbn beta in *.
      apply broadcast_sub_same_length. congruence. }
  rewrite (rmap_ok _ (fun r => zip_with F32.sub r M2)); simpl.
  2:{ apply Forall_fmap. eapply Forall_impl; [exact Hw|].
      intros r Hr; cbn beta in *. unfold compose.
      apply broadcast_sub_same_length.
      rewrite length_zip_with. lia. }
  f_equal. rewrite <- !list_fmap_compose.
  apply list_fmap_ext. intros _ r _; simpl.
  apply centre_row_twice.
Qed.

(** C8, as the code has it.  On a matrix whose rows are as wide as the
    frequency vector, [centre_SNPs] subtracts [2 * MAF] from every column
    twice and then replaces every not-a-number entry with zero.  With a zero
    frequency vector the result is the input with its not-a-number entries
    replaced by zero; it is the input itself when the input holds none. *)
Theorem centre_SNPs_twice_then_nan_to_zero (data : tensor) (MAF : row) :
  Forall (fun r => length r = length MAF) data ->
  centre_SNPs data MAF
  = Ok (map (fun r =>
               zip_with (fun x f =>
                           nan_to_zero
                             (F32.sub (F32.sub x (F32.mul F32.two f))
                                      (F32.mul F32.two f))) r MAF) data)
  /\ (Forall (fun f => f = F32.zero) MAF ->
      centre_SNPs data MAF = Ok (map (map nan_to_zero) data)
      /\ (Forall (Forall (fun x => F32.isnan x = false)) data ->
          centre_SNPs data MAF = Ok data)).
Proof.
  intros Hw. pose proof (centre_SNPs_closed_form data MAF Hw) as Hc.
  split; [exact Hc|]. intros Hz.
  assert (Hnan : centre_SNPs data MAF = Ok (map (map nan_to_zero) data)).
  { rewrite Hc. f_equal. apply Forall_fmap_ext_1.
    eapply Forall_impl; [exact Hw|]. intros r Hr; cbn beta in *.
    by apply zip_with_zero_MAF. }
  split; [exact Hnan|]. intros Hclean. rewrite Hnan. f_equal.
  rewrite <- (list_fmap_id data) at 2. apply Forall_fmap_ext_1.
  eapply Forall_impl; [exact Hclean|]. intros r Hr. by apply nan_to_zero_id.
Qed.

(** A 2 x 2 genotype matrix with one missing call and one without, under
    a zero frequency vector. *)
Lemma centre_SNPs_twice_then_nan_to_zero_witness :
  centre_SNPs [[F32.two; S754_nan]; [F32.one; F32.zero]] [F32.zero; F32.zero]
  = Ok [[F32.two; F32.zero]; [F32.one; F32.zero]]
  /\ centre_SNPs [[F32.two; F32.one]; [F32.one; F32.zero]]
       [F32.zero; F32.zero]
     = Ok [[F32.two; F32.one]; [F32.one; F32.zero]].
Proof.
  split.
  - destruct (centre_SNPs_twice_then_nan_to_zero
                [[F32.two; S754_nan]; [F32.one; F32.zero]]
                [F32.zero; F32.zero]) as [_ Hz].
    + repeat constructor.
    + destruct Hz as [Hz _]; [repeat constructor|]. exact Hz.
  - destruct (centre_SNPs_twice_then_nan_to_zero
                [[F32.two; F32.one]; [F32.one; F32.zero]]
                [F32.zero; F32.zero]) as [_ Hz].
    + repeat constructor.
    + destruct Hz as [_ Hz]; [repeat constructor|].
      apply Hz. repeat constructor.
Defined.

(** C8 as stated fails: with a zero frequency vector an input that holds a
    not-a-number entry does not come back unchanged, the entry is zero. *)
Lemma centre_SNPs_zero_MAF_changes_nan_input :
  centre_SNPs [[F32.two; S754_nan]] [F32.zero; F32.zero]
  = Ok [[F32.two; F32.zero]]
  /\ [[F32.two; F32.zero]] <> [[F32.two; S754_nan]].
Proof.
  split; [reflexivity|]. intros H. discriminate H.
Qed.

(* ===================================================================== *)
(** * The data splitters                                                  *)
(* ===================================================================== *)

Section Splitter.
Context `{RG : RandomGen}.

Lemma random_sample_ok (g : rng) (n : nat) (k : Z) :
  (0 <= k <= Z.of_nat n)%Z ->
  exists idx g', random_sample g n k = (Ok idx, g')
                 /\ length idx = Z.to_nat k /\ NoDup idx
                 /\ (forall i, i ∈ idx -> i < n).
Proof.
  intros Hk. unfold random_sample.
  assert (Hle : Z.to_nat k <= n) by lia.
  destruct (Z.ltb_spec k 0); [lia|].
  destruct (Z.ltb_spec (Z.of_nat n) k); [lia|]. simpl.
  pose proof (sample_length g n _ Hle) as Hlen.
  pose proof (sample_NoDup g n _ Hle) as Hnd.
  pose proof (fun i => sample_lt g n _ i Hle) as Hlt.
  destruct (sample g n (Z.to_nat k)) as [idx g']; simpl in *.
  by exists idx, g'.
Qed.

Lemma setdiff1d_range_elem (n : nat) (idx : list nat) (i : nat) :
  i ∈ setdiff1d_range n idx <-> i < n /\ i ∉ idx.
Proof.
  unfold setdiff1d_range. rewrite list_elem_of_filter, elem_of_seq.
  split; intros [? ?]; split; done || lia.
Qed.

Lemma setdiff1d_range_length (n : nat) (idx : list nat) :
  NoDup idx -> (forall i, i ∈ idx -> i < n) ->
  length (setdiff1d_range n idx) = n - length idx.
Proof.
  intros Hnd Hlt. unfold setdiff1d_range.
  pose proof (filter_app_complement (fun i => i ∈ idx) (seq 0 n)) as Hp.
  apply Permutation_length in Hp. rewrite length_app, length_seq in Hp.
  assert (Hin : filter (fun i => i ∈ idx) (seq 0 n) ≡ₚ idx).
  { apply NoDup_Permutation; [apply NoDup_filter, NoDup_seq|done|].
    intros i. rewrite list_elem_of_filter, elem_of_seq.
    split; [by intros [? _]|]. intros Hi. specialize (Hlt i Hi).
    split; [done|lia]. }
  apply Permutation_length in Hin.
  change (fun i => i ∉ idx) with (fun i => ¬ i ∈ idx). lia.
Qed.

Lemma setdiff1d_range_partition (n : nat) (idx : list nat) :
  NoDup idx -> (forall i, i ∈ idx -> i < n) ->
  is_partition n idx (setdiff1d_range n idx).
Proof.
  intros Hnd Hlt. split; [done|]. split; [apply NoDup_filter, NoDup_seq|].
  split.
  - intros i Hi. rewrite setdiff1d_range_elem. tauto.
  - intros i. split.
    + intros Hi. destruct (decide (i ∈ idx)); [by left|right].
      by apply setdiff1d_range_elem.
    + intros [Hi|Hi]; [by apply Hlt|].
      by apply setdiff1d_range_elem in Hi as [? _].
Qed.

Lemma take_rows_in_range {A} (idx : list nat) (a : list A) :
  (forall i, i ∈ idx -> i < length a) ->
  take_rows idx a = Ok (select_rows idx a).
Proof.
  unfold take_rows, select_rows.
  induction idx as [|i idx IH]; intros Hlt; simpl; [done|].
  destruct (lookup_lt_is_Some_2 a i) as [x Hx].
  { apply Hlt. by left. }
  rewrite Hx; simpl. rewrite IH; [done|].
  intros j Hj. apply Hlt. by right.
Qed.

Lemma take_rows_views (idx : list nat) (n : nat) (data : list tensor) :
  (forall i, i ∈ idx -> i < n) -> Forall (fun v => length v = n) data ->
  rmap (take_rows idx) data = Ok (map (select_rows idx) data).
Proof.
  intros Hlt Hn. apply rmap_ok.
  eapply Forall_impl; [exact Hn|]. intros v Hv; cbn beta in *.
  apply take_rows_in_range. by rewrite Hv.
Qed.

Lemma select_rows_length {A} (idx : list nat) (a : list A) :
  (forall i, i ∈ idx -> i < length a) ->
  length (select_rows idx a) = length idx.
Proof.
  intros Hlt. pose proof (take_rows_in_range idx a Hlt) as H.
  by apply rmap_length in H.
Qed.

(** [train_test_split] on well-shaped inputs: the partition and the
    slices. *)
Lemma train_test_split_correct (g : rng) (self : MultiviewDataModule.t)
    (n : nat) (k : Z) :
  sample_count (MultiviewDataModule.data self) = Ok n ->
  Forall (fun v => length v = n) (MultiviewDataModule.data self) ->
  (forall l, MultiviewDataModule.labels self = Some l -> length l = n) ->
  int_of_product (Z.of_nat n) (MultiviewDataModule.train_size self) = Ok k ->
  (0 <= k <= Z.of_nat n)%Z ->
  exists train_idx test_idx g',
    MultiviewDataModule.train_test_split g self
    = (Ok (map (select_rows train_idx) (MultiviewDataModule.data self),
           map (select_rows test_idx) (MultiviewDataModule.data self),
           select_rows train_idx <$> MultiviewDataModule.labels self,
           select_rows test_idx <$> MultiviewDataModule.labels self), g')
    /\ length train_idx = Z.to_nat k
    /\ length test_idx = n - Z.to_nat k
    /\ is_partition n train_idx test_idx.
Proof.
  intros Hn Hviews Hlab Hk Hrange.
  destruct (random_sample_ok g n k Hrange)
    as (idx & g' & Hs & Hlen & Hnd & Hlt).
  exists idx, (setdiff1d_range n idx), g'.
  assert (Hlt2 : forall i, i ∈ setdiff1d_range n idx -> i < n).
  { intros i Hi. by apply setdiff1d_range_elem in Hi as [? _]. }
  split; [|split; [done|split]].
  - unfold MultiviewDataModule.train_test_split,
      MultiviewDataModule.split_indices.
    rewrite Hn, Hk, Hs.
    rewrite (take_rows_views idx n), (take_rows_views _ n) by done. simpl.
    destruct (MultiviewDataModule.labels self) as [l|] eqn:Hl; simpl; [|done].
    specialize (Hlab l eq_refl).
    rewrite !take_rows_in_range by (rewrite Hlab; done). done.
  - rewrite setdiff1d_range_length by done. lia.
  - by apply setdiff1d_range_partition.
Qed.

(** [data_split] on views of equal sample count: the partition and the
    slices; the state of [random] on entry does not matter. *)
Lemma data_split_correct (g : rng) (data : list tensor) (split : spec_float)
    (n : nat) (k : Z) :
  sample_count data = Ok n ->
  Forall (fun v => length v = n) data ->
  int_of_product (Z.of_nat n) F64.lit_0_8 = Ok k ->
  (0 <= k <= Z.of_nat n)%Z ->
  exists idx_1 idx_2 g',
    Optimisation_VAE.data_split g data split
    = (Ok (map (select_rows idx_1) data, map (select_rows idx_2) data), g')
    /\ Optimisation_VAE.data_split_indices data = (Ok (idx_1, idx_2), g')
    /\ length idx_1 = Z.to_nat k
    /\ length idx_2 = n - Z.to_nat k
    /\ is_partition n idx_1 idx_2.
Proof.
  intros Hn Hviews Hk Hrange.
  destruct (random_sample_ok (seed 42) n k Hrange)
    as (idx & g' & Hs & Hlen & Hnd & Hlt).
  exists idx, (setdiff1d_range n idx), g'.
  assert (Hlt2 : forall i, i ∈ setdiff1d_range n idx -> i < n).
  { intros i Hi. by apply setdiff1d_range_elem in Hi as [? _]. }
  assert (Hidx : Optimisation_VAE.data_split_indices data
                 = (Ok (idx, setdiff1d_range n idx), g')).
  { unfold Optimisation_VAE.data_split_indices. by rewrite Hn, Hk, Hs. }
  split; [|split; [done|split; [done|split]]].
  - unfold Optimisation_VAE.data_split. rewrite Hidx.
    by rewrite (take_rows_views idx n), (take_rows_views _ n).
  - rewrite setdiff1d_range_length by done. lia.
  - by apply setdiff1d_range_partition.
Qed.

End Splitter.

(** C2, as the code has it.  For views that share the sample count [n >= 1]
    (and a label vector of that length, when there is one):
    [train_test_split] draws [int(n * train_size)] training indices (the
    product is a double, truncated towards zero) and keeps the other
    [n - int(n * train_size)] for validation; the two index lists split
    [{0, ..., n-1}], and the same two lists slice every view and the label
    vector.  [data_split] splits [{0, ..., n-1}] the same way and slices
    every view with the two lists. *)
Theorem split_is_truncated_partition `{RG : RandomGen}
    (g : rng) (self : MultiviewDataModule.t) (split : spec_float)
    (n : nat) (k k' : Z) :
  0 < n ->
  sample_count (MultiviewDataModule.data self) = Ok n ->
  Forall (fun v => length v = n) (MultiviewDataModule.data self) ->
  (forall l, MultiviewDataModule.labels self = Some l -> length l = n) ->
  int_of_product (Z.of_nat n) (MultiviewDataModule.train_size self) = Ok k ->
  (0 <= k <= Z.of_nat n)%Z ->
  int_of_product (Z.of_nat n) F64.lit_0_8 = Ok k' ->
  (0 <= k' <= Z.of_nat n)%Z ->
  (exists train_idx test_idx g',
      MultiviewDataModule.train_test_split g self
      = (Ok (map (select_rows train_idx) (MultiviewDataModule.data self),
             map (select_rows test_idx) (MultiviewDataModule.data self),
             select_rows train_idx <$> MultiviewDataModule.labels self,
             select_rows test_idx <$> MultiviewDataModule.labels self), g')
      /\ length train_idx = Z.to_nat k
      /\ length test_idx = n - Z.to_nat k
      /\ is_partition n train_idx test_idx)
  /\ (exists idx_1 idx_2 g',
         Optimisation_VAE.data_split g (MultiviewDataModule.data self) split
         = (Ok (map (select_rows idx_1) (MultiviewDataModule.data self),
                map (select_rows idx_2) (MultiviewDataModule.data self)), g')
         /\ length idx_1 = Z.to_nat k'
         /\ length idx_2 = n - Z.to_nat k'
         /\ is_partition n idx_1 idx_2).
Proof.
  intros _ Hn Hviews Hlab Hk Hrange Hk' Hrange'. split.
  - by apply train_test_split_correct.
  - destruct (data_split_correct g _ split n k' Hn Hviews Hk' Hrange')
      as (i1 & i2 & g' & H1 & _ & H2).
    by exists i1, i2, g'.
Qed.

Lemma split_is_truncated_partition_witness :
  (exists train_idx test_idx g',
      MultiviewDataModule.train_test_split (7%Z : @rng Lcg_RandomGen)
        split_example
      = (Ok (map (select_rows train_idx)
               (MultiviewDataModule.data split_example),
             map (select_rows test_idx)
               (MultiviewDataModule.data split_example),
             select_rows train_idx
               <$> MultiviewDataModule.labels split_example,
             select_rows test_idx
               <$> MultiviewDataModule.labels split_example), g')
      /\ length train_idx = 3
      /\ length test_idx = 2
      /\ is_partition 5 train_idx test_idx)
  /\ (exists idx_1 idx_2 g',
         Optimisation_VAE.data_split (7%Z : @rng Lcg_RandomGen)
           (MultiviewDataModule.data split_example) Optimisation_VAE.lit_0_9
         = (Ok (map (select_rows idx_1)
                  (MultiviewDataModule.data split_example),
                map (select_rows idx_2)
                  (MultiviewDataModule.data split_example)), g')
         /\ length idx_1 = 4
         /\ length idx_2 = 1
         /\ is_partition 5 idx_1 idx_2).
Proof.
  apply (split_is_truncated_partition (RG := Lcg_RandomGen) 7%Z
           split_example Optimisation_VAE.lit_0_9 5 3%Z 4%Z).
  - lia.
  - reflexivity.
  - repeat constructor.
  - intros l Hl. injection Hl as <-. reflexivity.
  - reflexivity.
  - lia.
  - reflexivity.
  - lia.
Defined.

(** C2 as stated fails: with [n = 5] samples and a training share of 0.75
    the product is 3.75; the code draws [int(3.75) = 3] training indices and
    keeps 2, where rounding gives 4 and 1. *)
Lemma split_truncates_where_the_claim_rounds :
  (exists train_idx test_idx,
      (MultiviewDataModule.split_indices (7%Z : @rng Lcg_RandomGen)
         split_example).1 = Ok (train_idx, test_idx)
      /\ length train_idx = 3 /\ length test_idx = 2)
  /\ (try x <- F64.of_int 5; F64.round (F64.mul x F64.lit_0_75))%res
     = Ok 4%Z.
Proof.
  split; [|reflexivity].
  eexists _, _. split; [vm_compute; reflexivity|]. split; reflexivity.
Qed.

(** C6.  The split does not depend on anything but the seed and the sample
    count.  [data_split] re-seeds with 42, so whatever state [random] is in
    on entry (and whatever [split] is passed) the same views are split the
    same way, and two collections with the same sample count get the same
    index partition; [train_test_split], entered in the state a seed leaves
    behind, gives two data modules of equal sample count and training share
    the same index partition. *)
Theorem split_deterministic `{RG : RandomGen}
    (g1 g2 : rng) (s : Z) (split1 split2 : spec_float)
    (data1 data2 : list tensor) (dm1 dm2 : MultiviewDataModule.t) :
  sample_count data1 = sample_count data2 ->
  sample_count (MultiviewDataModule.data dm1)
  = sample_count (MultiviewDataModule.data dm2) ->
  MultiviewDataModule.train_size dm1 = MultiviewDataModule.train_size dm2 ->
  Optimisation_VAE.data_split g1 data1 split1
  = Optimisation_VAE.data_split g2 data1 split2
  /\ Optimisation_VAE.data_split_indices data1
     = Optimisation_VAE.data_split_indices data2
  /\ MultiviewDataModule.split_indices (seed s) dm1
     = MultiviewDataModule.split_indices (seed s) dm2.
Proof.
  intros Hn Hm Hf. split; [reflexivity|]. split.
  - unfold Optimisation_VAE.data_split_indices. by rewrite Hn.
  - unfold MultiviewDataModule.split_indices. by rewrite Hm, Hf.
Qed.

Lemma split_deterministic_witness :
  Optimisation_VAE.data_split (1%Z : @rng Lcg_RandomGen)
    [Toy.view 5 2; Toy.view 5 3] Optimisation_VAE.lit_0_9
  = Optimisation_VAE.data_split (2%Z : @rng Lcg_RandomGen)
      [Toy.view 5 2; Toy.view 5 3] F64.lit_0_75
  /\ Optimisation_VAE.data_split_indices (RG := Lcg_RandomGen)
       [Toy.view 5 2; Toy.view 5 3]
     = Optimisation_VAE.data_split_indices (RG := Lcg_RandomGen)
         [Toy.view 5 4]
  /\ MultiviewDataModule.split_indices (RG := Lcg_RandomGen) (seed 42)
       split_example
     = MultiviewDataModule.split_indices (RG := Lcg_RandomGen) (seed 42)
         {| MultiviewDataModule.batch_size := 5%Z;
            MultiviewDataModule.is_validate := true;
            MultiviewDataModule.train_size := F64.lit_0_75;
            MultiviewDataModule.data := [Toy.view 5 4];
            MultiviewDataModule.labels := None |}.
Proof.
  apply (split_deterministic (RG := Lcg_RandomGen)); reflexivity.
Defined.

(* ===================================================================== *)
(** * Batches and the windows of the accumulator                          *)
(* ===================================================================== *)

Lemma batch_sampler_concat (b : nat) (idxs cur : list nat) :
  concat (batch_sampler b idxs cur) = cur ++ idxs.
Proof.
  revert cur. induction idxs as [|i idxs IH]; intros cur; simpl.
  - destruct cur; simpl; [done|]. by rewrite !app_nil_r.
  - destruct (Nat.eqb _ b); simpl; rewrite IH; simpl;
      by rewrite <- app_assoc.
Qed.

Lemma batch_sampler_length (b : nat) (idxs cur : list nat) :
  length cur < b ->
  length (batch_sampler b idxs cur)
  = (length cur + length idxs + b - 1) / b.
Proof.
  revert cur. induction idxs as [|i idxs IH]; intros cur Hcur; simpl.
  - destruct cur as [|c cur]; simpl in *.
    + rewrite Nat.div_small; lia.
    + apply (Nat.div_unique _ b 1 (length cur)); lia.
  - rewrite length_app; simpl.
    destruct (Nat.eqb_spec (length cur + 1) b) as [Hb|Hb]; simpl.
    + rewrite IH by (simpl; lia). simpl.
      replace (length cur + S (length idxs) + b - 1)
        with (1 * b + (length idxs + b - 1)) by lia.
      rewrite Nat.div_add_l by lia. simpl. lia.
    + rewrite IH by (rewrite length_app; simpl; lia).
      rewrite length_app; simpl. f_equal. lia.
Qed.

Lemma batch_sampler_nonempty (b : nat) (idxs cur : list nat) :
  Forall (fun c => c <> []) (batch_sampler b idxs cur).
Proof.
  revert cur. induction idxs as [|i idxs IH]; intros cur; simpl.
  - destruct cur; constructor; done.
  - destruct (Nat.eqb _ b); [constructor|]; auto.
    by destruct cur.
Qed.

Lemma batch_sampler_step (b s n : nat) (cur : list nat) :
  length cur < b -> 0 < length cur + n ->
  batch_sampler b (seq s n) cur
  = (cur ++ seq s (Nat.min (b - length cur) n))
      :: batch_sampler b
           (seq (s + Nat.min (b - length cur) n)
              (n - Nat.min (b - length cur) n)) [].
Proof.
  revert s cur. induction n as [|n IH]; intros s cur Hcur Hpos; simpl.
  - destruct cur as [|c cur]; simpl in *; [lia|].
    by rewrite Nat.min_0_r, app_nil_r.
  - rewrite length_app; simpl.
    destruct (Nat.eqb_spec (length cur + 1) b) as [Hb|Hb].
    + replace (b - length cur) with 1 by lia. simpl.
      by rewrite Nat.add_1_r, Nat.sub_0_r.
    + rewrite IH by (rewrite length_app; simpl; lia).
      rewrite length_app, <- app_assoc; simpl.
      replace (b - length cur) with (S (b - (length cur + 1))) by lia.
      simpl. do 3 f_equal. lia.
Qed.

(** The index batches in closed form: batch [i] holds the positions
    [i*b, ..., min((i+1)*b, n) - 1]. *)
Lemma batch_sampler_lookup (b n i : nat) (c : list nat) :
  0 < b ->
  batch_sampler b (seq 0 n) [] !! i = Some c ->
  c = seq (i * b) (Nat.min b (n - i * b)).
Proof.
  intros Hb.
  assert (H : forall s, batch_sampler b (seq s n) [] !! i = Some c ->
                        c = seq (s + i * b) (Nat.min b (n - i * b))).
  2:{ intros Hc. by apply (H 0). }
  revert n. induction i as [|i IH]; intros n s Hc.
  - destruct n as [|n]; [done|].
    rewrite batch_sampler_step in Hc by (simpl; lia). simpl in Hc.
    injection Hc as <-. f_equal; lia.
  - destruct n as [|n]; [done|].
    rewrite batch_sampler_step in Hc by (simpl; lia).
    cbn [length lookup list_lookup] in Hc. rewrite Nat.sub_0_r in Hc.
    destruct (Nat.min_spec b (S n)) as [[Hlt Hm]|[Hge Hm]]; rewrite Hm in Hc.
    + apply IH in Hc. subst c. f_equal; lia.
    + by rewrite Nat.sub_diag in Hc.
Qed.

Lemma ceil_div_nat_Z (n : nat) (b : Z) :
  (0 < b)%Z ->
  Z.of_nat ((n + Z.to_nat b - 1) / Z.to_nat b)
  = ((Z.of_nat n + b - 1) / b)%Z.
Proof.
  intros Hb. rewrite Nat2Z.inj_div. f_equal; lia.
Qed.

(** A generator over [n] samples yields [len(generator)] batches. *)
Lemma batches_length (d : Dataset) (b : Z) (g : DataLoader) (n : nat) :
  new_DataLoader d (Some b) = Ok g -> dataset_len d = Ok n ->
  loader_len g = Ok ((Z.of_nat n + b - 1) / b)%Z
  /\ Z.of_nat (length (batches g)) = ((Z.of_nat n + b - 1) / b)%Z.
Proof.
  unfold new_DataLoader. destruct (Z.leb_spec b 0) as [|Hb]; [done|].
  intros [= <-] Hn. unfold loader_len, batches; simpl. rewrite Hn; simpl.
  split; [done|].
  destruct d; simpl in Hn; try done; injection Hn as <-;
    rewrite length_map, batch_sampler_length by (simpl; lia);
    rewrite length_seq; simpl; by rewrite <- ceil_div_nat_Z.
Qed.

Lemma windows_prefix (n b nb : Z) (j : nat) :
  (0 <= b)%Z -> (Z.of_nat j <= nb - 1)%Z ->
  concat (map (fun i => window_indices (Optimisation_VAE.batch_window n b nb i))
            (seqZ 0 (Z.of_nat j)))
  = seqZ 0 (Z.of_nat j * b).
Proof.
  intros Hb. induction j as [|j IH]; intros Hj; [done|].
  rewrite seqZ_S, map_app, concat_app, IH, Z.add_0_l by lia. simpl.
  unfold Optimisation_VAE.batch_window, window_indices.
  destruct (Z.eqb_spec (Z.of_nat j) (nb - 1)) as [|_]; [lia|]. simpl.
  rewrite app_nil_r.
  replace (Z.of_nat j * b + b - Z.of_nat j * b)%Z with b by lia.
  replace (Z.of_nat (S j) * b)%Z with (Z.of_nat j * b + b)%Z by lia.
  rewrite seqZ_app by nia. done.
Qed.

Lemma seqZ_last (m n : Z) :
  (0 < n)%Z -> seqZ m n = seqZ m (n - 1) ++ [(m + (n - 1))%Z].
Proof.
  intros Hn. rewrite <- (Z2Nat.id (n - 1)) at 1 2 by lia.
  rewrite <- seqZ_S. f_equal. lia.
Qed.

Lemma windows_cover (n b : Z) :
  (0 <= n)%Z -> (0 < b)%Z ->
  let nb := ((n + b - 1) / b)%Z in
  concat (map (fun i => window_indices (Optimisation_VAE.batch_window n b nb i)) (seqZ 0 nb))
  = seqZ 0 n
  /\ (0 < n -> (Optimisation_VAE.batch_window n b nb (nb - 1)).2 = n)%Z.
Proof.
  intros Hn Hb nb.
  pose proof (Z.div_mod (n + b - 1) b ltac:(lia)) as Hdm.
  pose proof (Z.mod_pos_bound (n + b - 1) b Hb) as Hmod.
  fold nb in Hdm.
  assert (Hnb : (0 <= nb)%Z) by (apply Z.div_pos; lia).
  split.
  - destruct (Z.eq_dec n 0%Z) as [Hn0|Hn0].
    + assert (nb = 0)%Z as -> by (subst nb n; apply Z.div_small; lia).
      by subst n.
    + assert (Hpos : (1 <= nb)%Z) by nia.
      rewrite (seqZ_last 0 nb), map_app, concat_app, Z.add_0_l by lia.
      pose proof (windows_prefix n b nb (Z.to_nat (nb - 1))) as Hp.
      rewrite Z2Nat.id in Hp by lia. rewrite Hp by lia. simpl.
      unfold Optimisation_VAE.batch_window, window_indices. rewrite app_nil_r.
      rewrite Z.eqb_refl. simpl.
      transitivity (seqZ 0 ((nb - 1) * b + (n - (nb - 1) * b))%Z);
        [|f_equal; lia].
      rewrite seqZ_app by nia. by rewrite Z.add_0_l.
  - intros _. unfold Optimisation_VAE.batch_window. by rewrite Z.eqb_refl.
Qed.

Lemma fetch_batch_length (d : Dataset) (c : list nat) (bt : batch) :
  fetch_batch d c = Ok bt -> length (batch_data bt) = length c.
Proof.
  destruct d as [v|v l|w]; simpl; [| |done].
  - destruct (take_rows c v) as [x|] eqn:Hx; simpl; [|done].
    intros [= <-]; simpl. by apply rmap_length in Hx.
  - destruct (take_rows c v) as [x|] eqn:Hx; simpl; [|done].
    destruct (take_rows c l) as [y|] eqn:Hy; simpl; [|done].
    intros [= <-]; simpl. by apply rmap_length in Hx.
Qed.

(** Batch [i] of a generator has as many rows as its window is wide. *)
Lemma batch_fits_window (d : Dataset) (b : Z) (g : DataLoader) (n i : nat)
    (bt : batch) :
  new_DataLoader d (Some b) = Ok g -> dataset_len d = Ok n ->
  batches g !! i = Some (Ok bt) ->
  let w := Optimisation_VAE.batch_window (Z.of_nat n) b
             ((Z.of_nat n + b - 1) / b) (Z.of_nat i) in
  Z.of_nat (length (batch_data bt)) = (w.2 - w.1)%Z.
Proof.
  intros Hg Hn Hi.
  assert (Hb : (0 < b)%Z).
  { unfold new_DataLoader in Hg. by destruct (Z.leb_spec b 0). }
  destruct (batches_length d b g n Hg Hn) as [_ Hlen].
  pose proof (lookup_lt_Some _ _ _ Hi) as Hlt.
  unfold new_DataLoader in Hg. destruct (Z.leb_spec b 0); [lia|].
  injection Hg as <-. unfold batches in Hi; simpl in Hi.
  assert (Hchunk : exists c,
             batch_sampler (Z.to_nat b) (seq 0 n) [] !! i = Some c
             /\ fetch_batch d c = Ok bt).
  { destruct d; simpl in Hn; try done; injection Hn as <-;
      rewrite list_lookup_fmap in Hi;
      destruct (batch_sampler _ _ _ !! i) as [c|]; try done;
      injection Hi as Hi; eauto. }
  destruct Hchunk as (c & Hc & Hf).
  apply batch_sampler_lookup in Hc; [|lia].
  apply fetch_batch_length in Hf. rewrite Hf, Hc, length_seq.
  set (nb := ((Z.of_nat n + b - 1) / b)%Z) in *.
  pose proof (Z.div_mod (Z.of_nat n + b - 1) b ltac:(lia)) as Hdm.
  pose proof (Z.mod_pos_bound (Z.of_nat n + b - 1) b Hb) as Hmod.
  fold nb in Hdm. cbv zeta. unfold Optimisation_VAE.batch_window.
  destruct (Z.eqb_spec (Z.of_nat i) (nb - 1)) as [Hlast|Hmid]; simpl.
  - destruct (Nat.min_spec (Z.to_nat b) (n - i * Z.to_nat b))
      as [[? ->]|[? ->]]; nia.
  - destruct (Nat.min_spec (Z.to_nat b) (n - i * Z.to_nat b))
      as [[? ->]|[? ->]]; nia.
Qed.

(** C4.  For a generator over [n] samples with batch size [b] (torch only
    builds one for [b >= 1]): the loop meets [len(generator)] batches, the
    windows [[start:end]] it writes for the batch indices
    [0 .. len(generator) - 1], laid end to end, are exactly the positions
    [0, 1, ..., n-1] (each one once), the last window ends at [n] whatever
    [n mod b] is, and every batch has as many rows as its window is wide. *)
Theorem batch_windows_cover_once (d : Dataset) (b : Z) (g : DataLoader)
    (n : nat) :
  new_DataLoader d (Some b) = Ok g ->
  dataset_len d = Ok n ->
  exists num_batches,
    loader_len g = Ok num_batches
    /\ Z.of_nat (length (batches g)) = num_batches
    /\ concat (map (fun batch_idx =>
                      window_indices
                        (Optimisation_VAE.batch_window (Z.of_nat n) b
                           num_batches batch_idx))
                 (seqZ 0 num_batches))
       = seqZ 0 (Z.of_nat n)
    /\ (0 < n ->
        (Optimisation_VAE.batch_window (Z.of_nat n) b num_batches
           (num_batches - 1)).2
        = Z.of_nat n)
    /\ Forall2 (fun batch_idx fetched =>
                  forall bt, fetched = Ok bt ->
                    let w := Optimisation_VAE.batch_window (Z.of_nat n) b
                               num_batches batch_idx in
                    Z.of_nat (length (batch_data bt)) = (w.2 - w.1)%Z)
         (seqZ 0 num_batches) (batches g).
Proof.
  intros Hg Hn.
  assert (Hb : (0 < b)%Z).
  { unfold new_DataLoader in Hg. by destruct (Z.leb_spec b 0). }
  destruct (batches_length d b g n Hg Hn) as [Hlen Hbs].
  exists ((Z.of_nat n + b - 1) / b)%Z.
  destruct (windows_cover (Z.of_nat n) b ltac:(lia) Hb) as [Hc Hlast].
  split; [done|]. split; [done|]. split; [done|].
  split; [intros ?; apply Hlast; lia|].
  apply Forall2_same_length_lookup. split.
  - rewrite length_seqZ. lia.
  - intros i batch_idx fetched Hidx Hf bt ->.
    apply lookup_seqZ in Hidx as [-> _]. rewrite Z.add_0_l.
    by eapply batch_fits_window.
Qed.

(** Five samples in batches of two: windows [0:2], [2:4], [4:5]. *)
Lemma batch_windows_cover_once_witness :
  exists num_batches,
    loader_len {| dataset := MyDataset (Toy.view 5 2);
                  loader_batch_size := Some 2%Z |} = Ok num_batches
    /\ Z.of_nat (length (batches {| dataset := MyDataset (Toy.view 5 2);
                                    loader_batch_size := Some 2%Z |}))
       = num_batches
    /\ concat (map (fun batch_idx =>
                      window_indices
                        (Optimisation_VAE.batch_window 5 2 num_batches
                           batch_idx))
                 (seqZ 0 num_batches))
       = seqZ 0 5
    /\ (0 < 5 ->
        (Optimisation_VAE.batch_window 5 2 num_batches (num_batches - 1)).2
        = 5%Z)
    /\ Forall2 (fun batch_idx fetched =>
                  forall bt, fetched = Ok bt ->
                    let w := Optimisation_VAE.batch_window 5 2 num_batches
                               batch_idx in
                    Z.of_nat (length (batch_data bt)) = (w.2 - w.1)%Z)
         (seqZ 0 num_batches)
         (batches {| dataset := MyDataset (Toy.view 5 2);
                     loader_batch_size := Some 2%Z |}).
Proof.
  apply (batch_windows_cover_once (MyDataset (Toy.view 5 2)) 2%Z _ 5);
    reflexivity.
Defined.

(* ===================================================================== *)
(** * The first batch of a generator                                      *)
(* ===================================================================== *)

Lemma select_rows_seq {A} (v : list A) (s k : nat) :
  select_rows (seq s k) v = take k (drop s v).
Proof.
  unfold select_rows. revert s. induction k as [|k IH]; intros s; simpl.
  - by rewrite take_0.
  - rewrite IH. destruct (v !! s) as [x|] eqn:Hx; simpl.
    + by rewrite (drop_S v x s Hx).
    + apply lookup_ge_None in Hx.
      rewrite (drop_ge v s), (drop_ge v (S s)) by lia.
      by rewrite !take_nil.
Qed.

Lemma take_rows_seq {A} (v : list A) (k : nat) :
  k <= length v -> take_rows (seq 0 k) v = Ok (take k v).
Proof.
  intros Hk. rewrite take_rows_in_range.
  - by rewrite select_rows_seq, drop_0.
  - intros i Hi. apply elem_of_seq in Hi. lia.
Qed.

Lemma batch_sampler_head (b s n : nat) (cur : list nat) :
  length cur < b -> 0 < length cur + n ->
  exists rest,
    batch_sampler b (seq s n) cur
    = (cur ++ seq s (Nat.min (b - length cur) n)) :: rest.
Proof.
  revert s cur. induction n as [|n IH]; intros s cur Hcur Hpos; simpl.
  - destruct cur as [|c cur]; simpl in *; [lia|].
    exists []. by rewrite Nat.min_0_r, app_nil_r.
  - rewrite length_app; simpl.
    destruct (Nat.eqb_spec (length cur + 1) b) as [Hb|Hb].
    + eexists. f_equal. f_equal.
      replace (b - length cur) with 1 by lia. done.
    + destruct (IH (S s) (cur ++ [s])) as [rest Hrest].
      { rewrite length_app; simpl; lia. }
      { rewrite length_app; simpl; lia. }
      exists rest. rewrite Hrest, length_app, <- app_assoc; simpl.
      do 2 f_equal.
      replace (b - length cur) with (S (b - (length cur + 1))) by lia.
      done.
Qed.

Lemma batches_first (b : Z) (v : tensor) :
  (0 < b)%Z -> v <> [] ->
  exists rest,
    batches (plain_loader b v) = Ok (BData (take (Z.to_nat b) v)) :: rest.
Proof.
  intros Hb Hv. unfold batches, plain_loader; simpl.
  destruct (batch_sampler_head (Z.to_nat b) 0 (length v) []) as [rest Hr].
  { simpl; lia. }
  { destruct v; simpl in *; [done|lia]. }
  rewrite Hr; simpl. eexists. f_equal.
  rewrite Nat.sub_0_r, take_rows_seq by lia. simpl. do 2 f_equal.
  destruct (Nat.min_spec (Z.to_nat b) (length v)) as [[? ->]|[? ->]];
    [done|].
  by rewrite !take_ge by lia.
Qed.

Lemma pull_heads_first (b : Z) (views : list tensor) :
  (0 < b)%Z -> Forall (fun v => v <> []) views ->
  pull_heads (map batches (map (plain_loader b) views))
  = Some (Ok (map (fun v => BData (take (Z.to_nat b) v)) views)).
Proof.
  intros Hb. induction 1 as [|v views Hv _ IH]; simpl; [done|].
  destruct (batches_first b v Hb Hv) as [rest ->]. by rewrite IH.
Qed.

(** The first tuple [zip] yields: the first [b] rows of every view,
    whether or not the views have the same number of rows. *)
Lemma zip_generators_first (b : Z) (views : list tensor) :
  (0 < b)%Z -> views <> [] -> Forall (fun v => v <> []) views ->
  exists rest,
    zip_generators (map (plain_loader b) views)
    = Ok (map (fun v => BData (take (Z.to_nat b) v)) views) :: rest.
Proof.
  intros Hb Hne Hviews. unfold zip_generators.
  pose proof (pull_heads_first b views Hb Hviews) as Hp.
  destruct views as [|v views]; [done|]. simpl in *.
  inversion Hviews as [|? ? Hv _]; subst.
  destruct (batches_first b v Hb Hv) as [rest Hr].
  rewrite Hr in *. simpl. rewrite Hp. eauto.
Qed.

Lemma tensors_of_BData (ts : list tensor) :
  Optimisation_VAE.tensors_of (map BData ts) = Ok ts.
Proof.
  unfold Optimisation_VAE.tensors_of. induction ts as [|t ts IH]; simpl; [done|].
  by rewrite IH.
Qed.

(* ===================================================================== *)
(** * The driver on the two-view scenario                                 *)
(* ===================================================================== *)

(** The scenario with [val_set=True]: over two epochs the four
    training batches and the one validation batch of each epoch all go to
    [validate_batch]; [optimise_batch] is never entered and no optimizer
    step is taken. *)
Lemma fit_with_val_set_validates_the_training_batches :
  is_ok (Scenario.run true).1 = true
  /\ map is_validation_event (Optimisation_VAE.trace (Scenario.run true).2)
     = replicate 10 true
  /\ existsb is_training_event
       (Optimisation_VAE.trace (Scenario.run true).2) = false
  /\ Toy.steps (Optimisation_VAE.net (Scenario.run true).2) = 0.
Proof.
  repeat split; vm_compute; reflexivity.
Qed.

(** The same scenario without a validation split: every batch is a training
    step (four batches per epoch, each followed by its optimizer step). *)
Lemma fit_without_val_set_trains :
  map is_training_event (Optimisation_VAE.trace (Scenario.run false).2)
  = replicate 16 true
  /\ Toy.steps (Optimisation_VAE.net (Scenario.run false).2) = 8.
Proof.
  split; vm_compute; reflexivity.
Qed.

(** The scenario with [n_epochs=2] and [val_set=False]: the returned
    logger holds one entry per loss field, not two. *)
Lemma fit_two_epochs_logs_one_record_per_field :
  exists logger,
    (Scenario.run false).1 = Ok logger
    /\ map_to_list (Logger.logs logger)
       = [("kl"%string, [F32.zero]); ("ll"%string, [F32.one]);
          ("total"%string, [F32.one])].
Proof.
  eexists. split; vm_compute; reflexivity.
Qed.

(** On the scenario's views with [SNP_model] set, neither generator is
    built around its view.  The first wraps the whole tuple of views, the
    second wraps the adapter object of the first round. *)
Lemma generate_data_SNP_on_the_scenario :
  Optimisation_VAE.generate_data Scenario.snp_model Scenario.views None
  = Ok [ {| dataset := MyDataset_SNPs (SnpViews Scenario.views);
            loader_batch_size := Some 25%Z |};
         {| dataset :=
              MyDataset_SNPs (SnpDataset (SnpViews Scenario.views));
            loader_batch_size := Some 25%Z |} ].
Proof.
  reflexivity.
Qed.

(** C9 as stated fails: [fit] on views of 100 and 50 samples raises
    nothing.  In each of the two epochs the two synchronized batches that
    exist are handed to the training step, and the logger is returned. *)
Lemma fit_on_mismatched_views_trains :
  is_ok Scenario.run_mismatched.1 = true
  /\ map is_training_event
       (Optimisation_VAE.trace Scenario.run_mismatched.2)
     = replicate 8 true
  /\ Toy.steps (Optimisation_VAE.net Scenario.run_mismatched.2) = 4.
Proof.
  repeat split; vm_compute; reflexivity.
Qed.

(* ===================================================================== *)
(** * What a run of the driver leaves alone                               *)
(* ===================================================================== *)

Section DriverFacts.
Import Optimisation_VAE.
Context `{RG : RandomGen} {Net Fwd Enc : Type}.
Variable F : Family Net Fwd Enc.

Abbreviation Self := (Model rng Net).

(** The attributes that only [fit] and [predict_latents] assign. *)
Definition config (s : Self) :=
  (batch_size s, SNP_model s, sparse s, joint_representation s, z_dim s,
   use_GPU s, save_model s, n_epochs s, data s, labels s, MAF_file s,
   val_set s).

(** [s'] is [s] some driver steps later: the configuration is the same and
    the ghost record grew by events that satisfy [Pev]. *)
Definition evolves (Pev : event -> Prop) (s s' : Self) : Prop :=
  config s' = config s
  /\ exists evs, trace s' = trace s ++ evs /\ Forall Pev evs.

Lemma evolves_refl Pev s : evolves Pev s s.
Proof. split; [done|]. exists []. by rewrite app_nil_r. Qed.

Lemma evolves_silent Pev s s' :
  config s' = config s -> trace s' = trace s -> evolves Pev s s'.
Proof.
  intros Hc Ht. split; [done|]. exists []. by rewrite app_nil_r.
Qed.

Lemma evolves_trans Pev s1 s2 s3 :
  evolves Pev s1 s2 -> evolves Pev s2 s3 -> evolves Pev s1 s3.
Proof.
  intros [Hc1 (e1 & Ht1 & Hp1)] [Hc2 (e2 & Ht2 & Hp2)].
  split; [congruence|]. exists (e1 ++ e2).
  rewrite Ht2, Ht1, app_assoc. split; [done|]. by apply Forall_app.
Qed.

Section Keeps.
(** A condition on the configuration, and the events allowed under it. *)
Variable Q : Self -> Prop.
Variable Pev : event -> Prop.
Hypothesis Q_config : forall s s', config s' = config s -> Q s -> Q s'.

(** From any state that satisfies [Q], [m] only evolves the state. *)
Definition keeps {A} (m : M Self A) : Prop :=
  forall s, Q s -> evolves Pev s (m s).2.

Lemma keeps_ret {A} (a : A) : keeps (ret a).
Proof. intros s _. apply evolves_refl. Qed.

Lemma keeps_raise {A} (e : exn) : keeps (raise (A := A) e).
Proof. intros s _. apply evolves_refl. Qed.

Lemma keeps_lift {A} (r : result A) : keeps (lift r).
Proof. intros s _. apply evolves_refl. Qed.

Lemma keeps_read : keeps get.
Proof. intros s _. apply evolves_refl. Qed.

Lemma keeps_bound {A} (v : option A) : keeps (bound v).
Proof. destruct v; [apply keeps_ret|apply keeps_raise]. Qed.

Lemma keeps_bind {A B} (m : M Self A) (k : A -> M Self B) :
  keeps m -> (forall a, keeps (k a)) -> keeps (bind m k).
Proof.
  intros Hm Hk s HQ. unfold bind. specialize (Hm s HQ).
  destruct (m s) as [[a|e] s1]; simpl in *; [|done].
  eapply evolves_trans; [exact Hm|]. apply Hk.
  destruct Hm as [Hc _]. by eapply Q_config.
Qed.

(** [do self <- get; k self]: the continuation may use [Q self]. *)
Lemma keeps_get {B} (k : Self -> M Self B) :
  (forall self, Q self -> keeps (k self)) -> keeps (bind get k).
Proof. intros Hk s HQ. unfold bind, get. by apply Hk. Qed.

Lemma keeps_for_each {A L} (xs : list A) (body : A -> L -> M Self L) l :
  (forall x l, keeps (body x l)) -> keeps (for_each xs body l).
Proof.
  intros Hb. revert l. induction xs as [|x xs IH]; intros l; simpl.
  - apply keeps_ret.
  - apply keeps_bind; [apply Hb|]. intros l'. apply IH.
Qed.

Lemma keeps_emit (e : event) : Pev e -> keeps (emit e).
Proof.
  intros He s _. split; [done|]. exists [e]. split; [done|].
  by constructor.
Qed.

Lemma keeps_torch (f : Net -> Net) : keeps (torch f).
Proof. intros s _. by apply evolves_silent. Qed.

Lemma keeps_call {A} (f : Net -> result A * Net) : keeps (call f).
Proof.
  intros s _. unfold call. destruct (f (net s)) as [r n]; simpl.
  by apply evolves_silent.
Qed.

Lemma keeps_set_val_logger v : keeps (modify (set_val_logger v)).
Proof. intros s _. by apply evolves_silent. Qed.

Lemma keeps_validate_batch (b : net_input) :
  Pev (EvValidateBatch b) -> keeps (validate_batch F b).
Proof.
  intros He. unfold validate_batch.
  repeat first [ apply keeps_bind; [|intros ?] | apply keeps_emit; exact He
               | apply keeps_torch | apply keeps_call | apply keeps_ret ].
Qed.

Lemma keeps_optimise_batch_body (b : net_input) :
  Pev EvOptimizerStep -> keeps (optimise_batch_body F b).
Proof.
  intros Hs. unfold optimise_batch_body.
  apply keeps_bind; [apply keeps_call|intros fwd].
  apply keeps_bind; [apply keeps_call|intros loss].
  apply keeps_bind; [apply keeps_torch|intros _].
  destruct (loss !! _); [|apply keeps_raise].
  repeat first [ apply keeps_bind; [|intros ?] | by apply keeps_emit
               | apply keeps_torch | apply keeps_ret ].
Qed.

Lemma keeps_optimise_batch (b : net_input) :
  Pev (EvOptimiseBatch b) -> Pev EvOptimizerStep ->
  keeps (optimise_batch F b).
Proof.
  intros He Hs. unfold optimise_batch.
  apply keeps_bind; [by apply keeps_emit|intros _].
  by apply keeps_optimise_batch_body.
Qed.

(** Training events are allowed. *)
Definition training_allowed : Prop :=
  (forall b, Pev (EvOptimiseBatch b)) /\ Pev EvOptimizerStep.

Hypothesis Pev_validate : forall b, Pev (EvValidateBatch b).
Hypothesis Pev_io : Pev EvSaveModel /\ Pev EvPlotLosses.
(** Under [Q], either training events are allowed, or the instance is in
    the mini-batch path with a validation split. *)
Hypothesis Q_path : forall self,
  Q self ->
  training_allowed \/ (val_set self = true /\ is_Some (batch_size self)).

Ltac keeps_auto :=
  repeat lazymatch goal with
    | |- keeps (ret _) => apply keeps_ret
    | |- keeps get => apply keeps_read
    | |- keeps (raise _) => apply keeps_raise
    | |- keeps (lift _) => apply keeps_lift
    | |- keeps (bound _) => apply keeps_bound
    | |- keeps (torch _) => apply keeps_torch
    | |- keeps (call _) => apply keeps_call
    | |- keeps (modify (set_val_logger _)) => apply keeps_set_val_logger
    | |- keeps (validate_batch _ _) =>
        apply keeps_validate_batch, Pev_validate
    | |- keeps (bind _ _) => apply keeps_bind; [|intros ?]
    end.

Lemma keeps_iterate_step fetched loss :
  keeps (iterate_step F fetched loss).
Proof.
  unfold iterate_step.
  apply keeps_bind; [apply keeps_lift|intros lb].
  apply keeps_get. intros self Hself.
  apply keeps_bind; [apply keeps_lift|intros lb'].
  apply keeps_bind; [|intros ?; apply keeps_ret].
  destruct (val_set self) eqn:Hv; [keeps_auto|].
  destruct (Q_path self Hself) as [[Ho Hs]|[Hv' _]]; [|congruence].
  by apply keeps_optimise_batch.
Qed.

Lemma keeps_iterate_batch gs epoch verbose :
  keeps (iterate_batch F gs epoch verbose).
Proof.
  unfold iterate_batch. apply keeps_bind; [|intros ?; apply keeps_bound].
  apply keeps_for_each. apply keeps_iterate_step.
Qed.

Lemma keeps_train_epoch generators data epoch logger :
  is_Some generators \/ training_allowed ->
  keeps (train_epoch F generators data epoch logger).
Proof.
  intros Hg. unfold train_epoch, init_optimisation.
  apply keeps_bind; [apply keeps_torch|intros _].
  apply keeps_get. intros self Hself.
  apply keeps_bind.
  - destruct (batch_size self) as [b|] eqn:Hb, generators as [gs|];
      try apply keeps_iterate_batch.
    + destruct Hg as [[? [=]]|[Ho Hs]]. by apply keeps_optimise_batch.
    + destruct (Q_path self Hself) as [[Ho Hs]|[_ [? Hb']]];
        [by apply keeps_optimise_batch|congruence].
    + destruct Hg as [[? [=]]|[Ho Hs]]. by apply keeps_optimise_batch.
  - intros loss. destruct (epoch =? 1)%Z; keeps_auto.
Qed.

Lemma keeps_val_epoch val_generators val_data epoch :
  keeps (val_epoch F val_generators val_data epoch).
Proof.
  unfold val_epoch. apply keeps_get. intros self Hself.
  destruct (val_set self); [|apply keeps_ret].
  apply keeps_bind.
  - destruct (batch_size self); keeps_auto. apply keeps_iterate_batch.
  - intros val_loss. destruct (epoch =? 1)%Z; [keeps_auto|].
    apply keeps_get. intros self' _.
    destruct (val_logger self'); keeps_auto.
Qed.

Lemma keeps_epoch_step gens vgens d vd epoch logger :
  is_Some gens \/ training_allowed ->
  keeps (epoch_step F gens vgens d vd epoch logger).
Proof.
  intros Hg. unfold epoch_step.
  apply keeps_bind; [by apply keeps_train_epoch|intros ?].
  apply keeps_bind; [apply keeps_val_epoch|intros ?; apply keeps_ret].
Qed.

Lemma keeps_bind_ret {A B} (a : A) (k : A -> M Self B) :
  keeps (k a) -> keeps (bind (ret a) k).
Proof. intros H. exact H. Qed.

Lemma keeps_bind_raise {A B} (e : exn) (k : A -> M Self B) :
  keeps (bind (raise e) k).
Proof. intros s _. apply evolves_refl. Qed.

Lemma keeps_optimise generators data :
  is_Some generators \/ training_allowed ->
  keeps (optimise F generators data).
Proof.
  intros Hg. unfold optimise. apply keeps_get. intros self Hself.
  assert (Hloop : forall gens vgens d vd,
             is_Some gens \/ training_allowed ->
             keeps (do logger <-
                      for_each (epochs (n_epochs self))
                        (epoch_step F gens vgens d vd) None;
                    bound logger)%drv).
  { intros gens vgens d vd Hgens.
    apply keeps_bind; [|intros ?; apply keeps_bound].
    apply keeps_for_each. intros epoch logger.
    by apply keeps_epoch_step. }
  assert (Hnone : is_Some (@None (split (list DataLoader)))
                  \/ training_allowed -> training_allowed).
  { intros [[? [=]]|?]; done. }
  destruct (val_set self), generators as [[g|g vg]|], data as [[d|d vd]|];
    first [ apply keeps_bind_raise
          | apply keeps_bind_ret; cbn beta iota; apply Hloop;
            first [ by left; eauto | right; by apply Hnone ] ].
Qed.

Lemma keeps_data_split data split :
  keeps (fun s : Self =>
           let '(r, g) := data_split (py_random s) data split in
           (r, set_py_random g s)).
Proof.
  intros s _. destruct (data_split _ _ _) as [r g]; simpl.
  by apply evolves_silent.
Qed.

Lemma keeps_fit_finish logger : keeps (fit_finish F logger).
Proof.
  unfold fit_finish, end_optimisation.
  apply keeps_bind; [apply keeps_torch|intros _].
  apply keeps_get. intros self3 _. destruct Pev_io as [Hsave Hplot].
  apply keeps_bind; [|intros ?; apply keeps_ret].
  destruct (save_model self3); [|apply keeps_ret].
  apply keeps_bind; [by apply keeps_emit|intros _].
  apply keeps_bind; [by apply keeps_emit|intros _].
  apply keeps_get. intros self4 _.
  destruct (val_set self4); [|apply keeps_ret].
  destruct (val_logger self4); [by apply keeps_emit|apply keeps_raise].
Qed.

Lemma keeps_fit_run data : keeps (fit_run F data).
Proof.
  unfold fit_run. apply keeps_get. intros self Hself.
  apply keeps_bind.
  { destruct (val_set self).
    - apply keeps_bind; [apply keeps_data_split|intros [d1 d2]]. keeps_auto.
    - keeps_auto. }
  intros generators. apply keeps_get. intros self2 Hself2.
  apply keeps_bind.
  { destruct (batch_size self2) as [b|] eqn:Hb.
    - apply keeps_optimise. left. eauto.
    - apply keeps_bind; [apply keeps_lift|intros d].
      apply keeps_optimise. right.
      destruct (Q_path self2 Hself2) as [?|[_ [? ?]]]; [done|congruence]. }
  intros logger. apply keeps_fit_finish.
Qed.

Lemma keeps_predict_latents_run : keeps (predict_latents_run F).
Proof.
  unfold predict_latents_run. apply keeps_get. intros self _.
  apply keeps_bind; [apply keeps_lift|intros generators].
  apply keeps_bind; [destruct (batch_size self); keeps_auto|intros d].
  apply keeps_bind; [apply keeps_lift|intros g0].
  apply keeps_bind; [apply keeps_lift|intros num_elements].
  apply keeps_bind; [apply keeps_lift|intros num_batches].
  apply keeps_bind.
  - destruct (batch_size self); [|destruct (sparse self); keeps_auto].
    apply keeps_bind; [apply keeps_lift|intros b].
    apply keeps_bind; [|intros ?; apply keeps_ret].
    apply keeps_for_each. intros fetched [batch_idx predictions].
    apply keeps_bind; [apply keeps_lift|intros lb].
    apply keeps_get. intros self' _.
    apply keeps_bind; [apply keeps_lift|intros lb'].
    apply keeps_bind; [apply keeps_call|intros enc].
    apply keeps_bind; [apply keeps_call|intros pred].
    apply keeps_bind; [destruct (sparse self'); keeps_auto|intros pred'].
    destruct (batch_window _ _ _ _) as [start end_]. keeps_auto.
  - intros predictions. apply keeps_get. intros self' _.
    destruct (joint_representation self'), predictions; keeps_auto.
Qed.

End Keeps.

(** Any run of [fit_run] or [predict_latents_run] leaves the configuration
    as it was. *)
Lemma fit_run_config data (s : Self) :
  evolves (fun _ => True) s (fit_run F data s).2.
Proof.
  apply (keeps_fit_run (fun _ => True) (fun _ => True));
    try done. intros ? _. by left.
Qed.

Lemma predict_latents_run_config (s : Self) :
  evolves (fun _ => True) s (predict_latents_run F s).2.
Proof.
  by apply (keeps_predict_latents_run (fun _ => True) (fun _ => True)).
Qed.

(** The state after the assignments of [fit]. *)
Lemma fit_unfold data kw (s : Self) :
  fit F data kw s = fit_run F data (fit_assign F data kw s).2.
Proof. reflexivity. Qed.

Lemma predict_latents_unfold data labels vs (s : Self) :
  predict_latents F data labels vs s
  = predict_latents_run F (predict_latents_assign data labels vs s).2.
Proof. reflexivity. Qed.

Section LeadsWith.
Variable Q : Self -> Prop.
Hypothesis Q_config : forall s s', config s' = config s -> Q s -> Q s'.
Variable e : event.

Abbreviation keeps_any := (keeps Q (fun _ => True)).

(** From any state that satisfies [Q], the first event [m] adds to the
    ghost record is [e]. *)
Definition leads_with {A} (m : M Self A) : Prop :=
  forall s, Q s ->
    config (m s).2 = config s
    /\ exists evs, trace (m s).2 = trace s ++ e :: evs.

Lemma leads_emit {B} (k : unit -> M Self B) :
  keeps_any (k tt) -> leads_with (bind (emit e) k).
Proof.
  intros Hk s HQ. unfold bind, emit, modify; simpl.
  destruct (Hk (set_trace (trace s ++ [e]) s)) as [Hc (evs & Ht & _)].
  { by eapply Q_config; [|exact HQ]. }
  split; [by rewrite Hc|]. exists evs. rewrite Ht; simpl.
  by rewrite <- app_assoc.
Qed.

Lemma leads_bind {A B} (m : M Self A) (k : A -> M Self B) :
  leads_with m -> (forall a, keeps_any (k a)) -> leads_with (bind m k).
Proof.
  intros Hm Hk s HQ. unfold bind. destruct (Hm s HQ) as [Hc (evs & Ht)].
  destruct (m s) as [[a|err] s1]; simpl in *; [|eauto].
  destruct (Hk a s1) as [Hc' (evs' & Ht' & _)].
  { by eapply Q_config; [|exact HQ]. }
  split; [congruence|]. exists (evs ++ evs').
  by rewrite Ht', Ht, <- app_assoc.
Qed.

Lemma leads_get {B} (k : Self -> M Self B) :
  (forall self, Q self -> leads_with (k self)) -> leads_with (bind get k).
Proof. intros Hk s HQ. unfold bind, get. by apply Hk. Qed.

Lemma leads_lift {A B} (a : A) (k : A -> M Self B) :
  leads_with (k a) -> leads_with (bind (lift (Ok a)) k).
Proof. intros H. exact H. Qed.

Lemma leads_ret {A B} (a : A) (k : A -> M Self B) :
  leads_with (k a) -> leads_with (bind (ret a) k).
Proof. intros H. exact H. Qed.

Lemma leads_torch {B} (f : Net -> Net) (k : unit -> M Self B) :
  leads_with (k tt) -> leads_with (bind (torch f) k).
Proof.
  intros Hk s HQ. unfold bind, torch, modify; simpl.
  destruct (Hk (set_net (f (net s)) s)) as [Hc Ht].
  { by eapply Q_config; [|exact HQ]. }
  split; [by rewrite Hc|]. exact Ht.
Qed.

End LeadsWith.

Lemma config_fields (s s' : Self) :
  config s' = config s ->
  data s' = data s /\ labels s' = labels s /\ val_set s' = val_set s
  /\ batch_size s' = batch_size s /\ SNP_model s' = SNP_model s
  /\ n_epochs s' = n_epochs s.
Proof.
  unfold config. intros H. injection H. intros. repeat split; assumption.
Qed.

(** C10.  Whatever state the instance is in, [predict_latents] leaves it
    with [data], [labels] and [val_set] set to the call's arguments
    ([labels] defaulting to [None], [val_set] to [False]), also when the
    call ends in an exception.  [fit] leaves [val_set] at the value it was
    called with; so an instance fitted with [val_set=True] reads
    [val_set=False], and the prediction inputs as its [data], after any
    [predict_latents] call that does not pass [val_set]. *)
Theorem predict_latents_overwrites_configuration
    (pred_data : list tensor) (pred_labels : option (option (list label)))
    (pred_val_set : option bool) (views : list tensor) (kw : fit_kw)
    (s : Self) :
  let after_predict :=
    (predict_latents F pred_data pred_labels pred_val_set s).2 in
  let fitted := (fit F views kw s).2 in
  let fitted_then_predict :=
    (predict_latents F pred_data pred_labels pred_val_set fitted).2 in
  (data after_predict = pred_data
   /\ labels after_predict = default None pred_labels
   /\ val_set after_predict = default false pred_val_set)
  /\ (val_set fitted = kw_val_set kw
      /\ data fitted = views
      /\ labels fitted = kw_labels kw)
  /\ (data fitted_then_predict = pred_data
      /\ labels fitted_then_predict = default None pred_labels
      /\ val_set fitted_then_predict = default false pred_val_set).
Proof.
  assert (Hpred : forall s0 : Self,
             let s1 := (predict_latents F pred_data pred_labels
                          pred_val_set s0).2 in
             data s1 = pred_data
             /\ labels s1 = default None pred_labels
             /\ val_set s1 = default false pred_val_set).
  { intros s0. cbv zeta. rewrite predict_latents_unfold.
    destruct (predict_latents_run_config
                (predict_latents_assign pred_data pred_labels
                   pred_val_set s0).2) as [Hc _].
    apply config_fields in Hc as (Hd & Hl & Hv & _).
    rewrite Hd, Hl, Hv. repeat split. }
  cbv zeta. split; [apply Hpred|]. split; [|apply Hpred].
  rewrite fit_unfold.
  destruct (fit_run_config views (fit_assign F views kw s).2) as [Hc _].
  apply config_fields in Hc as (Hd & Hl & Hv & _).
  rewrite Hd, Hl, Hv. repeat split.
Qed.

(** C1, what the code does instead.  In the mini-batch path ([batch_size]
    set) a [fit] call with [val_set=True] never enters [optimise_batch] and
    never takes an optimizer step: every batch, of the training generators
    as of the validation generators, goes to [validate_batch]. *)
Theorem fit_with_val_set_never_optimises
    (views : list tensor) (kw : fit_kw) (s : Self) :
  kw_val_set kw = true ->
  is_Some (batch_size s) ->
  exists evs,
    trace (fit F views kw s).2 = trace s ++ evs
    /\ Forall (fun ev => is_training_event ev = false) evs.
Proof.
  intros Hv Hb. rewrite fit_unfold.
  set (s1 := (fit_assign F views kw s).2).
  assert (Hk : evolves (fun ev => is_training_event ev = false) s1
                 (fit_run F views s1).2).
  { apply (keeps_fit_run
             (fun s => val_set s = true /\ is_Some (batch_size s))
             (fun ev => is_training_event ev = false)).
    - intros s2 s3 Hc. apply config_fields in Hc as (_ & _ & -> & -> & _).
      done.
    - done.
    - done.
    - intros self H. by right.
    - split; [exact Hv|exact Hb]. }
  destruct Hk as [_ Hevs]. exact Hevs.
Qed.

Lemma generate_data_plain (self : Self) (views : list tensor) (b : Z) :
  SNP_model self = false -> batch_size self = Some b -> (0 < b)%Z ->
  generate_data self views None = Ok (map (plain_loader b) views).
Proof.
  intros Hs Hb Hpos. unfold generate_data. rewrite Hs, Hb.
  apply rmap_ok, Forall_forall. intros v _. unfold new_DataLoader.
  by destruct (Z.leb_spec b 0); [lia|].
Qed.

Lemma prepare_batch_plain (self : Self) (n : nat) (views : list tensor) :
  SNP_model self = false -> labels self = None ->
  prepare_batch self (map (fun v => BData (take n v)) views)
  = Ok (Unlabelled (map (take n) views)).
Proof.
  intros Hs Hl. unfold prepare_batch. rewrite Hs, Hl; simpl.
  replace (map (fun v => BData (take n v)) views)
    with (map BData (map (take n) views))
    by (by rewrite <- list_fmap_compose).
  by rewrite tensors_of_BData.
Qed.

Section FirstBatch.
Variable b : Z.
Variable views : list tensor.
Hypothesis b_pos : (0 < b)%Z.
Hypothesis views_ne : views <> [].
Hypothesis views_rows : Forall (fun v => v <> []) views.

(** The mini-batch path without validation split, labels or SNP
    centring, for at least one epoch. *)
Definition plain_minibatch (s : Self) : Prop :=
  batch_size s = Some b /\ val_set s = false /\ labels s = None
  /\ SNP_model s = false /\ (1 <= n_epochs s)%Z.

Lemma plain_minibatch_config (s s' : Self) :
  config s' = config s -> plain_minibatch s -> plain_minibatch s'.
Proof.
  unfold plain_minibatch. intros Hc.
  apply config_fields in Hc as (_ & -> & -> & -> & -> & ->). done.
Qed.

Lemma plain_minibatch_any_event (self : Self) :
  plain_minibatch self ->
  training_allowed (fun _ => True)
  \/ (val_set self = true /\ is_Some (batch_size self)).
Proof. intros _. by left. Qed.

(** The first synchronized batch: the first [b] rows of every view. *)
Definition first_batch : net_input :=
  Unlabelled (map (take (Z.to_nat b)) views).

Abbreviation leads :=
  (leads_with plain_minibatch (EvOptimiseBatch first_batch)).
Abbreviation keeps_plain := (keeps plain_minibatch (fun _ => True)).

Lemma leads_iterate_batch epoch verbose :
  leads (iterate_batch F (map (plain_loader b) views) epoch verbose).
Proof.
  unfold iterate_batch.
  destruct (zip_generators_first b views b_pos views_ne views_rows)
    as [rest ->].
  apply leads_bind; [apply plain_minibatch_config| |intros ?; apply keeps_bound].
  cbn [for_each].
  apply leads_bind; [apply plain_minibatch_config| |].
  2:{ intros l. apply keeps_for_each; [apply plain_minibatch_config|].
      intros x l'. apply keeps_iterate_step; try done.
      - apply plain_minibatch_config.
      - apply plain_minibatch_any_event. }
  unfold iterate_step. apply leads_lift.
  apply leads_get. intros self (Hb & Hv & Hl & Hs & He).
  rewrite prepare_batch_plain by done. apply leads_lift.
  rewrite Hv. apply leads_bind; [apply plain_minibatch_config| |].
  2:{ intros ?. apply keeps_ret. }
  unfold optimise_batch. apply leads_emit; [apply plain_minibatch_config|].
  apply keeps_optimise_batch_body; [apply plain_minibatch_config|done].
Qed.

Lemma leads_train_epoch data epoch logger :
  leads (train_epoch F (Some (map (plain_loader b) views)) data epoch
           logger).
Proof.
  unfold train_epoch, init_optimisation.
  apply leads_torch; [apply plain_minibatch_config|].
  apply leads_get. intros self (Hb & Hv & Hl & Hs & He). rewrite Hb.
  apply leads_bind; [apply plain_minibatch_config| |].
  - apply leads_iterate_batch.
  - intros loss. destruct (epoch =? 1)%Z.
    + apply keeps_ret.
    + apply keeps_bind; [apply plain_minibatch_config|apply keeps_bound|].
      intros ?. apply keeps_bind; [apply plain_minibatch_config| |].
      * apply keeps_lift.
      * intros ?. apply keeps_ret.
Qed.

Lemma epochs_first (n : Z) :
  (1 <= n)%Z -> exists rest, epochs n = 1%Z :: rest.
Proof.
  intros Hn. unfold epochs.
  destruct (Z.to_nat n) as [|k] eqn:Hk; [lia|]. simpl. eauto.
Qed.

Lemma leads_optimise :
  leads (optimise F (Some (Whole (map (plain_loader b) views))) None).
Proof.
  unfold optimise.
  apply leads_get. intros self (Hb & Hv & Hl & Hs & He). rewrite Hv.
  apply leads_ret. cbn beta iota.
  destruct (epochs_first _ He) as [rest ->]. cbn [for_each].
  apply leads_bind; [apply plain_minibatch_config| |intros ?; apply keeps_bound].
  apply leads_bind; [apply plain_minibatch_config| |].
  2:{ intros l. apply keeps_for_each; [apply plain_minibatch_config|].
      intros x l'. apply keeps_epoch_step; try done.
      - apply plain_minibatch_config.
      - apply plain_minibatch_any_event.
      - left. eauto. }
  unfold epoch_step.
  apply leads_bind; [apply plain_minibatch_config| |].
  - apply leads_train_epoch.
  - intros logger.
    apply keeps_bind; [apply plain_minibatch_config| |intros ?; apply keeps_ret].
    apply keeps_val_epoch; try done.
    + apply plain_minibatch_config.
    + apply plain_minibatch_any_event.
Qed.

Lemma leads_fit_run : leads (fit_run F views).
Proof.
  unfold fit_run.
  apply leads_get. intros self (Hb & Hv & Hl & Hs & He).
  rewrite Hv, Hl, (generate_data_plain self views b) by done.
  change (leads (bind (ret (Whole (map (plain_loader b) views))) ?k))
    with (leads (k (Whole (map (plain_loader b) views)))).
  cbn beta.
  apply leads_get. intros self2 (Hb2 & _). rewrite Hb2.
  apply leads_bind; [apply plain_minibatch_config| |].
  - apply leads_optimise.
  - intros logger. apply keeps_fit_finish; try done.
    apply plain_minibatch_config.
Qed.

End FirstBatch.

(** C9, as the code has it.  [fit] compares no sample counts.  In the
    mini-batch path (batch size [b >= 1], no validation split, no labels, no
    SNP centring, at least one epoch), on views that hold at least one
    sample each, whether their sample counts agree or not, the first thing
    the run does with the data is the training step on the first
    synchronized batch: the first [b] rows of every view.  No exception
    comes before it. *)
Theorem fit_trains_first_batch_unchecked
    (views : list tensor) (kw : fit_kw) (s : Self) (b : Z) :
  batch_size s = Some b ->
  (0 < b)%Z ->
  SNP_model s = false ->
  kw_val_set kw = false ->
  kw_labels kw = None ->
  (1 <= kw_n_epochs kw)%Z ->
  views <> [] ->
  Forall (fun v => v <> []) views ->
  exists evs,
    trace (fit F views kw s).2
    = trace s
      ++ EvOptimiseBatch (Unlabelled (map (take (Z.to_nat b)) views)) :: evs.
Proof.
  intros Hb Hpos Hs Hv Hl He Hne Hrows. rewrite fit_unfold.
  destruct (leads_fit_run b views Hpos Hne Hrows
              (fit_assign F views kw s).2) as [_ H].
  - repeat split; assumption.
  - exact H.
Qed.

End DriverFacts.

Lemma fit_with_val_set_never_optimises_witness :
  exists evs,
    Optimisation_VAE.trace (Scenario.run true).2 = [] ++ evs
    /\ Forall (fun ev => is_training_event ev = false) evs.
Proof.
  apply (fit_with_val_set_never_optimises (RG := Lcg_RandomGen)
           Toy.family Scenario.views
           (Scenario.kw true) (Toy.model (Some 25%Z))).
  - reflexivity.
  - by eexists.
Defined.

(** Views of 100 and 50 samples in batches of 25. *)
Lemma fit_trains_first_batch_unchecked_witness :
  exists evs,
    Optimisation_VAE.trace Scenario.run_mismatched.2
    = [] ++ EvOptimiseBatch
              (Unlabelled
                 (map (take 25) [Toy.view 100 10; Toy.view 50 8])) :: evs.
Proof.
  apply (fit_trains_first_batch_unchecked (RG := Lcg_RandomGen) Toy.family
           [Toy.view 100 10; Toy.view 50 8] (Scenario.kw false)
           (Toy.model (Some 25%Z)) 25%Z).
  - reflexivity.
  - lia.
  - reflexivity.
  - reflexivity.
  - reflexivity.
  - simpl. lia.
  - discriminate.
  - repeat constructor; discriminate.
Defined.

(* ===================================================================== *)
(** * How many records the logger holds                                   *)
(* ===================================================================== *)

Lemma on_train_init_bound (lg : Logger.t) (keys : list string) (n : nat) :
  history_bound n lg -> history_bound n (Logger.on_train_init lg keys).
Proof.
  unfold history_bound, Logger.on_train_init; simpl.
  generalize (Logger.logs lg) as m. induction keys as [|k keys IH];
    intros m Hm; simpl; [done|].
  apply IH. apply map_Forall_insert_2; [simpl; lia|done].
Qed.

Lemma new_logger_bound : history_bound 0 Logger.new.
Proof. apply map_Forall_empty. Qed.

Lemma on_step_fi_bound (lg lg' : Logger.t) (loss : loss_record) (n : nat) :
  history_bound n lg -> Logger.on_step_fi lg loss = Ok lg' ->
  history_bound (S n) lg'.
Proof.
  unfold history_bound, Logger.on_step_fi. intros Hn H.
  destruct (decide _) as [_|_]; [|done]. injection H as <-; simpl.
  intros k h'. rewrite lookup_merge.
  destruct (Logger.logs lg !! k) as [h|] eqn:Hk; simpl;
    [|by destruct (loss !! k)].
  specialize (Hn k h Hk); simpl in Hn.
  destruct (loss !! k); simpl; intros [= <-];
    [rewrite length_app; simpl|]; lia.
Qed.

Lemma bind_Ok_inv {S A B} (m : M S A) (k : A -> M S B) s b s' :
  bind m k s = (Ok b, s') ->
  exists a s1, m s = (Ok a, s1) /\ k a s1 = (Ok b, s').
Proof.
  unfold bind. destruct (m s) as [[a|e] s1]; [eauto|done].
Qed.

Section LoggerCount.
Import Optimisation_VAE.
Context `{RG : RandomGen} {Net Fwd Enc : Type}.
Variable F : Family Net Fwd Enc.

Abbreviation Self := (Model rng Net).

(** What a successful [train_epoch] returns: a fresh logger in the first
    epoch, afterwards the logger it was given with one step recorded. *)
Lemma train_epoch_logger generators data epoch logger (s s' : Self) l' :
  train_epoch F generators data epoch logger s = (Ok l', s') ->
  exists lg,
    l' = Some lg
    /\ ((epoch = 1%Z /\ history_bound 0 lg)
        \/ (epoch <> 1%Z
            /\ exists lg0, logger = Some lg0
                 /\ forall n, history_bound n lg0 ->
                              history_bound (S n) lg)).
Proof.
  unfold train_epoch. intros H.
  apply bind_Ok_inv in H as (_ & s1 & _ & H).
  apply bind_Ok_inv in H as (self & s2 & _ & H).
  apply bind_Ok_inv in H as (loss & s3 & _ & H).
  destruct (Z.eqb_spec epoch 1) as [He|He].
  - injection H as <- <-. eexists. split; [done|]. left. split; [done|].
    apply on_train_init_bound, new_logger_bound.
  - apply bind_Ok_inv in H as (lg0 & s4 & Hb & H).
    apply bind_Ok_inv in H as (lg & s5 & Hstep & H).
    injection H as <- <-. exists lg. split; [done|]. right.
    split; [done|]. destruct logger as [lg0'|]; [|done].
    injection Hb as -> _. exists lg0. split; [done|].
    unfold lift in Hstep. injection Hstep as Hstep _.
    intros n Hn. by eapply on_step_fi_bound.
Qed.

Lemma epoch_step_logger gens vgens d vd epoch logger (s s' : Self) l' :
  epoch_step F gens vgens d vd epoch logger s = (Ok l', s') ->
  exists s1, train_epoch F gens d epoch logger s = (Ok l', s1).
Proof.
  unfold epoch_step. intros H.
  apply bind_Ok_inv in H as (l1 & s1 & Ht & H).
  apply bind_Ok_inv in H as (_ & s2 & _ & H).
  injection H as <- _. eauto.
Qed.

Lemma epoch_loop_logger gens vgens d vd (k j : nat) logger (s s' : Self) l' :
  for_each (map (fun i => Z.of_nat i) (seq j k))
    (epoch_step F gens vgens d vd) logger s = (Ok l', s') ->
  1 <= j ->
  (2 <= j -> exists lg, logger = Some lg /\ history_bound (j - 2) lg) ->
  (k = 0 /\ l' = logger)
  \/ (0 < k /\ exists lg, l' = Some lg /\ history_bound (j + k - 2) lg).
Proof.
  revert j logger s. induction k as [|k IH]; intros j logger s H Hj Hinv.
  - injection H as <- _. by left.
  - right. split; [lia|]. simpl in H.
    apply bind_Ok_inv in H as (l1 & s1 & Hstep & H).
    apply epoch_step_logger in Hstep as [s1' Hstep].
    apply train_epoch_logger in Hstep as (lg1 & -> & Hcase).
    assert (Hb1 : history_bound (S j - 2) lg1).
    { destruct Hcase as [[He Hb]|[He (lg0 & -> & Hb)]].
      - replace j with 1 by lia. exact Hb.
      - destruct Hinv as (lg0' & [= <-] & Hb0); [lia|].
        replace (S j - 2) with (S (j - 2)) by lia. by apply Hb. }
    destruct (IH (S j) (Some lg1) s1 H) as [[-> ->]|[Hk (lg & -> & Hb)]].
    + lia.
    + intros _. eauto.
    + exists lg1. split; [done|]. by replace (j + 1 - 2) with (S j - 2) by lia.
    + exists lg. split; [done|].
      by replace (j + S k - 2) with (S j + k - 2) by lia.
Qed.

Lemma optimise_logger generators data (s s' : Self) logger :
  optimise F generators data s = (Ok logger, s') ->
  (1 <= n_epochs s)%Z
  /\ history_bound (Z.to_nat (n_epochs s) - 1) logger.
Proof.
  unfold optimise. intros H.
  apply bind_Ok_inv in H as (self & s1 & Hget & H).
  injection Hget as <- <-.
  apply bind_Ok_inv in H as ([[[gens vgens] d] vd] & s2 & Hu & H).
  assert (s2 = s) as ->.
  { destruct (val_set s), generators as [[?|? ?]|], data as [[?|? ?]|];
      by injection Hu. }
  apply bind_Ok_inv in H as (l' & s3 & Hloop & H).
  destruct l' as [lg|]; [|done]. injection H as <- _.
  destruct (epoch_loop_logger _ _ _ _ _ 1 None s s3 (Some lg) Hloop)
    as [[_ [=]]|[Hk (lg' & [= <-] & Hb)]]; try lia; try (intros ?; lia).
  split; [lia|].
  by replace (1 + Z.to_nat (n_epochs s) - 2)
    with (Z.to_nat (n_epochs s) - 1) in Hb by lia.
Qed.

Lemma fit_finish_result lg lg' (s s' : Self) :
  fit_finish F lg s = (Ok lg', s') -> lg' = lg.
Proof.
  unfold fit_finish. intros H.
  apply bind_Ok_inv in H as (_ & s1 & _ & H).
  apply bind_Ok_inv in H as (self & s2 & _ & H).
  apply bind_Ok_inv in H as (_ & s3 & _ & H).
  by injection H.
Qed.

Lemma fit_run_logger views (s s' : Self) logger :
  fit_run F views s = (Ok logger, s') ->
  (1 <= n_epochs s)%Z
  /\ history_bound (Z.to_nat (n_epochs s) - 1) logger.
Proof.
  unfold fit_run. intros H.
  apply bind_Ok_inv in H as (self & s1 & Hget & H).
  injection Hget as <- <-.
  apply bind_Ok_inv in H as (generators & s2 & Hgens & H).
  assert (He : n_epochs s2 = n_epochs s).
  { destruct (val_set s).
    - apply bind_Ok_inv in Hgens as ([d1 d2] & s3 & Hsplit & Hgens).
      destruct (data_split _ _ _) as [r g]. injection Hsplit as _ <-.
      apply bind_Ok_inv in Hgens as (self & s4 & [= <- <-] & Hgens).
      apply bind_Ok_inv in Hgens as (g1 & s5 & [= _ <-] & Hgens).
      apply bind_Ok_inv in Hgens as (g2 & s6 & [= _ <-] & Hgens).
      by injection Hgens as _ <-.
    - apply bind_Ok_inv in Hgens as (gs & s3 & [= _ <-] & Hgens).
      by injection Hgens as _ <-. }
  apply bind_Ok_inv in H as (self2 & s3 & [= <- <-] & H).
  apply bind_Ok_inv in H as (lg & s4 & Hopt & H).
  apply fit_finish_result in H as ->. rewrite <- He.
  destruct (batch_size s2).
  - by apply optimise_logger in Hopt.
  - apply bind_Ok_inv in Hopt as (d & s5 & [= _ <-] & Hopt).
    by apply optimise_logger in Hopt.
Qed.

(** C3, what the code does instead.  Whenever [fit] returns a logger, the
    run had [E >= 1] epochs and no loss field of the logger holds more than
    [E - 1] records: the record of the first epoch is never logged. *)
Theorem fit_logs_fewer_records_than_epochs
    (views : list tensor) (kw : fit_kw) (s s' : Self) (logger : Logger.t) :
  fit F views kw s = (Ok logger, s') ->
  (1 <= kw_n_epochs kw)%Z
  /\ map_Forall (fun _ h => (Z.of_nat (length h) <= kw_n_epochs kw - 1)%Z)
       (Logger.logs logger).
Proof.
  rewrite fit_unfold. intros H.
  apply fit_run_logger in H as [He Hb]. simpl in He, Hb.
  split; [exact He|].
  eapply map_Forall_impl; [exact Hb|]. intros k h Hh; simpl in *. lia.
Qed.

End LoggerCount.

(** The scenario with two epochs: at most one record per field. *)
Lemma fit_logs_fewer_records_than_epochs_witness :
  exists logger,
    (Scenario.run false).1 = Ok logger
    /\ (1 <= 2)%Z
    /\ map_Forall (fun _ h => (Z.of_nat (length h) <= 2 - 1)%Z)
         (Logger.logs logger).
Proof.
  eexists. split; [vm_compute; reflexivity|].
  eapply (fit_logs_fewer_records_than_epochs (RG := Lcg_RandomGen)
            Toy.family Scenario.views (Scenario.kw false)
            (Toy.model (Some 25%Z))).
  vm_compute. reflexivity.
Defined.

(* ===================================================================== *)
(** * The generators of plain and labelled views                          *)
(* ===================================================================== *)

Lemma select_rows_concat {A} (chunks : list (list nat)) (v : list A) :
  select_rows (concat chunks) v
  = concat (map (fun c => select_rows c v) chunks).
Proof.
  unfold select_rows. induction chunks as [|c chunks IH]; simpl; [done|].
  by rewrite omap_app, IH.
Qed.

Lemma collect_fetch (d : Dataset) (chunks : list (list nat))
    (f : list nat -> batch) :
  Forall (fun c => fetch_batch d c = Ok (f c)) chunks ->
  collect (map (fetch_batch d) chunks) = Ok (map f chunks).
Proof.
  unfold collect. induction 1 as [|c chunks Hc _ IH]; simpl; [done|].
  by rewrite Hc, IH.
Qed.

Lemma batch_sampler_in_range (b n : nat) :
  Forall (fun c => forall i, i ∈ c -> i < n) (batch_sampler b (seq 0 n) []).
Proof.
  apply Forall_forall. intros c Hc i Hi.
  assert (Hin : i ∈ concat (batch_sampler b (seq 0 n) [])).
  { apply list_elem_of_In, in_concat. exists c.
    split; by apply list_elem_of_In. }
  rewrite batch_sampler_concat in Hin. simpl in Hin.
  apply elem_of_seq in Hin. lia.
Qed.

(** One generator over a plain or labelled view: [ceil(n/b)] batches whose
    data, laid end to end, is the view. *)
Lemma loader_recovers_view (d : Dataset) (b : Z) (v : tensor) :
  (0 < b)%Z ->
  d = MyDataset v
  \/ (exists l, d = MyDataset_labels v l /\ length v <= length l) ->
  exists bs,
    collect (batches {| dataset := d; loader_batch_size := Some b |}) = Ok bs
    /\ concat (map batch_data bs) = v
    /\ length bs = (length v + Z.to_nat b - 1) / Z.to_nat b.
Proof.
  intros Hb Hd.
  set (chunks := batch_sampler (Z.to_nat b) (seq 0 (length v)) []).
  assert (Hlen : length chunks = (length v + Z.to_nat b - 1) / Z.to_nat b).
  { unfold chunks. rewrite batch_sampler_length by (simpl; lia).
    by rewrite length_seq. }
  assert (Hcat : concat (map (fun c => select_rows c v) chunks) = v).
  { rewrite <- select_rows_concat. unfold chunks.
    rewrite batch_sampler_concat; simpl.
    by rewrite select_rows_seq, drop_0, firstn_all. }
  pose proof (batch_sampler_in_range (Z.to_nat b) (length v)) as Hrange.
  fold chunks in Hrange.
  destruct Hd as [->|(l & -> & Hl)]; unfold batches; simpl; fold chunks.
  - exists (map (fun c => BData (select_rows c v)) chunks).
    split; [|split].
    + apply collect_fetch. eapply Forall_impl; [exact Hrange|].
      intros c Hc; simpl. by rewrite take_rows_in_range.
    + by rewrite <- list_fmap_compose.
    + by rewrite length_map.
  - exists (map (fun c => BLabelled (select_rows c v) (select_rows c l))
              chunks).
    split; [|split].
    + apply collect_fetch. eapply Forall_impl; [exact Hrange|].
      intros c Hc; simpl.
      rewrite !take_rows_in_range; [done| |done].
      intros i Hi. specialize (Hc i Hi). lia.
    + by rewrite <- list_fmap_compose.
    + by rewrite length_map.
Qed.

(** The two branches of [generate_data] that wrap the view ([SNP_model]
    unset), for views of [n] samples each and labels that reach that far:
    one generator per view; with a batch size [b] each yields
    [ceil(n/b)] batches, with the whole-dataset policy exactly one; and the
    data of a generator's batches, laid end to end, is its view. *)
Theorem generators_recover_views `{RG : RandomGen} {Net : Type}
    (self : Optimisation_VAE.Model rng Net) (views : list tensor)
    (labels : option (list label)) (n : nat) :
  Optimisation_VAE.SNP_model self = false ->
  Forall (fun v => length v = n) views ->
  (forall l, labels = Some l -> n <= length l) ->
  match Optimisation_VAE.batch_size self with
  | Some b => (0 < b)%Z
  | None => 0 < n
  end ->
  exists gens,
    Optimisation_VAE.generate_data self views labels = Ok gens
    /\ Forall2 (fun g v =>
                  exists bs,
                    collect (batches g) = Ok bs
                    /\ concat (map batch_data bs) = v
                    /\ length bs
                       = match Optimisation_VAE.batch_size self with
                         | Some b => (n + Z.to_nat b - 1) / Z.to_nat b
                         | None => 1
                         end) gens views.
Proof.
  intros Hs Hn Hl Hb.
  set (bsz := match Optimisation_VAE.batch_size self with
              | Some b => b
              | None => Z.of_nat n
              end).
  set (ds := fun v => match labels with
                      | Some l => MyDataset_labels v l
                      | None => MyDataset v
                      end).
  assert (Hpos : (0 < bsz)%Z).
  { unfold bsz. destruct (Optimisation_VAE.batch_size self); lia. }
  exists (map (fun v => {| dataset := ds v; loader_batch_size := Some bsz |})
            views).
  split.
  - unfold Optimisation_VAE.generate_data. rewrite Hs.
    assert (Hnew : forall v, new_DataLoader (ds v) (Some bsz)
                             = Ok {| dataset := ds v;
                                     loader_batch_size := Some bsz |}).
    { intros v. unfold new_DataLoader. by destruct (Z.leb_spec bsz 0); [lia|]. }
    unfold ds, bsz in *.
    destruct labels as [l|]; apply rmap_ok;
      (eapply Forall_impl; [exact Hn|]); intros v Hv; cbn beta in *;
      rewrite <- Hnew; destruct (Optimisation_VAE.batch_size self);
      by rewrite ?Hv.
  - induction Hn as [|v views Hv _ IH]; simpl; constructor; [|exact IH].
    destruct (loader_recovers_view (ds v) bsz v Hpos) as (bs & H1 & H2 & H3).
    { unfold ds. destruct labels as [l|]; [right|by left].
      exists l. split; [done|]. rewrite Hv. by apply Hl. }
    exists bs. split; [done|]. split; [done|]. rewrite H3, Hv. unfold bsz.
    destruct (Optimisation_VAE.batch_size self); [done|].
    rewrite Nat2Z.id. symmetry.
    apply (Nat.div_unique _ n 1 (n - 1)); lia.
Qed.

(** The scenario's two views in batches of 25, and as one batch each. *)
Lemma generators_recover_views_witness :
  (exists gens,
      Optimisation_VAE.generate_data (Toy.model (Some 25%Z)) Scenario.views
        None = Ok gens
      /\ Forall2 (fun g v =>
                    exists bs,
                      collect (batches g) = Ok bs
                      /\ concat (map batch_data bs) = v
                      /\ length bs = (100 + 25 - 1) / 25) gens Scenario.views)
  /\ (exists gens,
         Optimisation_VAE.generate_data (Toy.model None) Scenario.views
           None = Ok gens
         /\ Forall2 (fun g v =>
                       exists bs,
                         collect (batches g) = Ok bs
                         /\ concat (map batch_data bs) = v
                         /\ length bs = 1) gens Scenario.views).
Proof.
  split.
  - apply (generators_recover_views (RG := Lcg_RandomGen)
             (Toy.model (Some 25%Z)) Scenario.views None 100).
    + reflexivity.
    + repeat constructor.
    + intros l Hl. discriminate Hl.
    + simpl. lia.
  - apply (generators_recover_views (RG := Lcg_RandomGen)
             (Toy.model None) Scenario.views None 100).
    + reflexivity.
    + repeat constructor.
    + intros l Hl. discriminate Hl.
    + simpl. lia.
Defined.

(* ===================================================================== *)
(** * Predicting twice                                                    *)
(* ===================================================================== *)

Section PredictTwice.
Import Optimisation_VAE.
Context `{RG : RandomGen} {Net Fwd Enc : Type}.
Variable F : Family Net Fwd Enc.

Abbreviation Self := (Model rng Net).

(** The inference methods of the family leave the module as it is: no
    random draw, no change of mode or weights. *)
Definition inference_is_pure : Prop :=
  (forall g x n, (encode F g x n).2 = n)
  /\ (forall g e n, (reparameterise F g e n).2 = n)
  /\ (forall z n, (apply_threshold F z n).2 = n).

(** [m] leaves the instance exactly as it found it. *)
Definition idle {A} (m : M Self A) : Prop := forall s, (m s).2 = s.

Lemma idle_ret {A} (a : A) : idle (ret a).
Proof. done. Qed.

Lemma idle_raise {A} (e : exn) : idle (raise (A := A) e).
Proof. done. Qed.

Lemma idle_lift {A} (r : result A) : idle (lift r).
Proof. done. Qed.

Lemma idle_bound {A} (v : option A) : idle (bound v).
Proof. by destruct v. Qed.

Lemma idle_bind {A B} (m : M Self A) (k : A -> M Self B) :
  idle m -> (forall a, idle (k a)) -> idle (bind m k).
Proof.
  intros Hm Hk s. unfold bind. specialize (Hm s).
  destruct (m s) as [[a|e] s1]; simpl in *; subst; [apply Hk|done].
Qed.

Lemma idle_get {B} (k : Self -> M Self B) :
  (forall self, idle (k self)) -> idle (bind get k).
Proof. intros Hk s. apply Hk. Qed.

Lemma idle_for_each {A L} (xs : list A) (body : A -> L -> M Self L) l :
  (forall x l, idle (body x l)) -> idle (for_each xs body l).
Proof.
  intros Hb. revert l. induction xs as [|x xs IH]; intros l; simpl.
  - apply idle_ret.
  - apply idle_bind; [apply Hb|]. intros l'. apply IH.
Qed.

Lemma idle_call {A} (f : Net -> result A * Net) :
  (forall n, (f n).2 = n) -> idle (call f).
Proof.
  intros Hf s. unfold call. specialize (Hf (net s)).
  destruct (f (net s)) as [r n]; simpl in *. subst n. by destruct s.
Qed.

Lemma idle_predict_latents_run :
  inference_is_pure -> idle (predict_latents_run F).
Proof.
  intros (Henc & Hrep & Hthr). unfold predict_latents_run.
  apply idle_get. intros self.
  apply idle_bind; [apply idle_lift|intros generators].
  apply idle_bind.
  { destruct (batch_size self); [apply idle_ret|].
    apply idle_bind; [apply idle_lift|intros ?; apply idle_ret]. }
  intros d.
  apply idle_bind; [apply idle_lift|intros g0].
  apply idle_bind; [apply idle_lift|intros num_elements].
  apply idle_bind; [apply idle_lift|intros num_batches].
  apply idle_bind.
  - destruct (batch_size self).
    + apply idle_bind; [apply idle_lift|intros b].
      apply idle_bind; [|intros ?; apply idle_ret].
      apply idle_for_each. intros fetched [batch_idx predictions].
      apply idle_bind; [apply idle_lift|intros lb].
      apply idle_get. intros self'.
      apply idle_bind; [apply idle_lift|intros lb'].
      apply idle_bind; [by apply idle_call|intros enc].
      apply idle_bind; [by apply idle_call|intros pred].
      apply idle_bind.
      { destruct (sparse self'); [by apply idle_call|apply idle_ret]. }
      intros pred'. destruct (batch_window _ _ _ _) as [start end_].
      apply idle_bind; [apply idle_lift|intros ?; apply idle_ret].
    + apply idle_bind; [apply idle_bound|intros d'].
      apply idle_bind; [apply idle_lift|intros d''].
      apply idle_bind; [by apply idle_call|intros enc].
      apply idle_bind; [by apply idle_call|intros pred].
      destruct (sparse self); [by apply idle_call|apply idle_ret].
  - intros predictions. apply idle_get. intros self'.
    destruct (joint_representation self'), predictions;
      first [apply idle_ret|apply idle_raise].
Qed.

(** When the family's inference methods are pure, a second
    [predict_latents] call with the same arguments returns what the first
    returned and leaves the instance as the first left it. *)
Theorem predict_latents_twice_when_pure
    (data : list tensor) (labels : option (option (list label)))
    (val_set : option bool) (s : Self) :
  inference_is_pure ->
  predict_latents F data labels val_set
    (predict_latents F data labels val_set s).2
  = predict_latents F data labels val_set s.
Proof.
  intros Hpure.
  rewrite (predict_latents_unfold F data labels val_set s).
  rewrite (idle_predict_latents_run Hpure).
  reflexivity.
Qed.

End PredictTwice.

Lemma predict_latents_twice_when_pure_witness :
  Optimisation_VAE.predict_latents Toy.family Scenario.views None None
    (Optimisation_VAE.predict_latents Toy.family Scenario.views None None
       (Toy.model (Some 25%Z))).2
  = Optimisation_VAE.predict_latents Toy.family Scenario.views None None
      (Toy.model (Some 25%Z)).
Proof.
  apply (predict_latents_twice_when_pure (RG := Lcg_RandomGen) Toy.family).
  repeat split.
Defined.

(* ===================================================================== *)
(** * The generators of genetic-variant views                             *)
(* ===================================================================== *)

Lemma snp_generators_wrap {A} (views : list A) (src : SnpSource)
    (batch_sz : option Z) (gens : list DataLoader) :
  Optimisation_VAE.snp_generators views src batch_sz = Ok gens ->
  length gens = length views
  /\ forall i g, gens !! i = Some g ->
       dataset g = MyDataset_SNPs (Nat.iter i SnpDataset src).
Proof.
  revert src gens. induction views as [|v views IH]; intros src gens; simpl.
  - intros [= <-]. split; [done|]. intros i g Hi. done.
  - destruct (new_DataLoader _ _) as [g0|] eqn:Hg0; simpl; [|done].
    destruct (Optimisation_VAE.snp_generators _ _ _) as [gs|] eqn:Hgs;
      simpl; [|done].
    intros [= <-]. destruct (IH _ _ Hgs) as [Hlen Hwrap].
    split; [simpl; by rewrite Hlen|].
    intros [|i] g Hi; simpl in Hi.
    + injection Hi as <-. unfold new_DataLoader in Hg0.
      destruct batch_sz as [z|]; [destruct (z <=? 0)%Z; [done|]|];
        by injection Hg0 as <-.
    + rewrite (Hwrap i g Hi). by rewrite Nat.iter_succ_r.
Qed.

(** C5, what the [SNP_model] branch does instead.  Whenever
    [generate_data] returns on an instance with [SNP_model] set, it returns
    one generator per view, but the generator at position [i] is built
    around the whole tuple of views wrapped [i + 1] times in the adapter,
    never around view [i]: its batches cannot be that view's samples. *)
Theorem generate_data_SNP_ignores_the_view `{RG : RandomGen} {Net : Type}
    (self : Optimisation_VAE.Model rng Net) (views : list tensor)
    (labels : option (list label)) (gens : list DataLoader) :
  Optimisation_VAE.SNP_model self = true ->
  Optimisation_VAE.generate_data self views labels = Ok gens ->
  length gens = length views
  /\ forall i g, gens !! i = Some g ->
       dataset g = MyDataset_SNPs (Nat.iter i SnpDataset (SnpViews views)).
Proof.
  intros Hs. unfold Optimisation_VAE.generate_data. rewrite Hs.
  apply snp_generators_wrap.
Qed.

(** The scenario's two views on an instance with [SNP_model] set. *)
Lemma generate_data_SNP_ignores_the_view_witness :
  let g0 := {| dataset := MyDataset_SNPs (SnpViews Scenario.views);
               loader_batch_size := Some 25%Z |} in
  let g1 := {| dataset :=
                 MyDataset_SNPs (SnpDataset (SnpViews Scenario.views));
               loader_batch_size := Some 25%Z |} in
  Optimisation_VAE.generate_data Scenario.snp_model Scenario.views None
  = Ok [g0; g1]
  /\ length [g0; g1] = length Scenario.views
  /\ dataset g0 = MyDataset_SNPs (SnpViews Scenario.views)
  /\ dataset g1 = MyDataset_SNPs (SnpDataset (SnpViews Scenario.views)).
Proof.
  intros g0 g1. split; [reflexivity|].
  destruct (generate_data_SNP_ignores_the_view (RG := Lcg_RandomGen)
              Scenario.snp_model Scenario.views None [g0; g1]
              eq_refl eq_refl) as [Hlen Hwrap].
  split; [exact Hlen|]. split.
  - exact (Hwrap 0 g0 eq_refl).
  - exact (Hwrap 1 g1 eq_refl).
Defined.


(* ===================================================================== *)
(** * SNP centring: what comes out, and what is refused                   *)
(* ===================================================================== *)

Lemma nan_to_zero_not_nan (x : spec_float) :
  F32.isnan (nan_to_zero x) = false.
Proof. by destruct x. Qed.

Lemma F32_sub_nan_l (y : spec_float) : F32.sub S754_nan y = S754_nan.
Proof. by destruct y. Qed.

(** Whatever the shapes of the matrix and of the frequency vector, a
    [centre_SNPs] call that returns hands back as many rows as it was given
    and no not-a-number entry. *)
Theorem centre_SNPs_output_has_no_nan (data out : tensor) (MAF : row) :
  centre_SNPs data MAF = Ok out ->
  length out = length data
  /\ Forall (Forall (fun x => F32.isnan x = false)) out.
Proof.
  unfold centre_SNPs. intros H.
  destruct (rmap _ data) as [data1|] eqn:H1; simpl in H; [|done].
  destruct (rmap _ data1) as [data2|] eqn:H2; simpl in H; [|done].
  injection H as <-. split.
  - rewrite length_map. apply rmap_length in H1. apply rmap_length in H2.
    exact (eq_trans H2 H1).
  - apply Forall_fmap, Forall_forall. intros r _; simpl.
    apply Forall_fmap, Forall_forall. intros x _; simpl.
    apply nan_to_zero_not_nan.
Qed.

(** Two genotype rows with a missing call and an infinite entry. *)
Lemma centre_SNPs_output_has_no_nan_witness :
  length [[S754_finite true 8388608 (-22); F32.zero];
          [F32.zero; S754_infinity true]]
  = length [[F32.two; S754_infinity false]; [S754_nan; F32.two]]
  /\ Forall (Forall (fun x => F32.isnan x = false))
       [[S754_finite true 8388608 (-22); F32.zero];
        [F32.zero; S754_infinity true]].
Proof.
  apply (centre_SNPs_output_has_no_nan
           [[F32.two; S754_infinity false]; [S754_nan; F32.two]] _
           [F32.one; S754_infinity false]).
  vm_compute. reflexivity.
Defined.

(** On a matrix as wide as the frequency vector, an entry that is
    not-a-number on the way in (a missing call) is zero on the way out,
    whatever the frequencies are. *)
Theorem centre_SNPs_missing_call_becomes_zero (data : tensor) (MAF : row)
    (i j : nat) (r : row) :
  Forall (fun r => length r = length MAF) data ->
  data !! i = Some r ->
  r !! j = Some S754_nan ->
  exists out r',
    centre_SNPs data MAF = Ok out
    /\ out !! i = Some r'
    /\ r' !! j = Some F32.zero.
Proof.
  intros Hw Hi Hj. unfold tensor, row in *.
  set (centre := fun r : list spec_float =>
         zip_with (fun x f => nan_to_zero
                                (F32.sub (F32.sub x (F32.mul F32.two f))
                                         (F32.mul F32.two f))) r MAF).
  exists (centre <$> data), (centre r).
  split; [by apply centre_SNPs_closed_form|]. split.
  - by rewrite list_lookup_fmap, Hi.
  - assert (Hlen : length r = length MAF).
    { eapply Forall_lookup_1 in Hw; [|exact Hi]. exact Hw. }
    destruct (lookup_lt_is_Some_2 MAF j) as [f Hf].
    { rewrite <- Hlen. by eapply lookup_lt_Some. }
    unfold centre. rewrite lookup_zip_with, Hj, Hf.
    cbn -[F32.sub F32.mul]. by rewrite !F32_sub_nan_l.
Qed.

Lemma centre_SNPs_missing_call_becomes_zero_witness :
  exists out r',
    centre_SNPs [[F32.two; F32.one]; [F32.one; S754_nan]] [F32.one; F32.two]
    = Ok out
    /\ out !! 1 = Some r'
    /\ r' !! 1 = Some F32.zero.
Proof.
  apply (centre_SNPs_missing_call_becomes_zero
           [[F32.two; F32.one]; [F32.one; S754_nan]] [F32.one; F32.two]
           1 1 [F32.one; S754_nan]).
  - repeat constructor.
  - reflexivity.
  - reflexivity.
Defined.

(** A frequency vector that is not as long as the rows are wide is
    refused: unless one of the two lengths is 1 (torch would stretch it),
    [centre_SNPs] on a matrix that has rows fails with torch's
    size-mismatch [RuntimeError]. *)
Theorem centre_SNPs_rejects_wrong_width (data : tensor) (MAF : row) (w : nat) :
  data <> [] ->
  Forall (fun r => length r = w) data ->
  w <> length MAF -> w <> 1 -> length MAF <> 1 ->
  centre_SNPs data MAF = Raise RuntimeError.
Proof.
  intros Hne Hw Hm Hw1 Hm1. destruct data as [|r data]; [done|].
  inversion Hw as [|? ? Hr _]; subst.
  unfold centre_SNPs; simpl.
  assert (Hb : broadcast_sub r (map (F32.mul F32.two) MAF)
               = Raise RuntimeError).
  { unfold broadcast_sub. rewrite length_map.
    destruct (Nat.eqb_spec (length r) (length MAF)) as [|_]; [done|].
    destruct MAF as [|c [|c' M]]; simpl in *; try done;
      by destruct r as [|x [|x' r]]. }
  by rewrite Hb.
Qed.

Lemma centre_SNPs_rejects_wrong_width_witness :
  centre_SNPs [[F32.two; F32.one]; [F32.one; F32.zero]]
    [F32.zero; F32.zero; F32.zero]
  = Raise RuntimeError.
Proof.
  apply (centre_SNPs_rejects_wrong_width _ _ 2).
  - discriminate.
  - repeat constructor.
  - simpl. lia.
  - lia.
  - simpl. lia.
Defined.

(* ===================================================================== *)
(** * The splitters on views of unequal sample counts                     *)
(* ===================================================================== *)

Lemma take_rows_raise {A} (idx : list nat) (a : list A) (e : exn) :
  take_rows idx a = Raise e -> e = IndexError.
Proof.
  unfold take_rows. induction idx as [|i idx IH]; simpl; [done|].
  destruct (a !! i); simpl; [|by intros [= <-]].
  destruct (rmap _ idx); simpl; [done|]. intros [= <-]. by apply IH.
Qed.

Lemma take_rows_out_of_range {A} (idx : list nat) (a : list A) (i : nat) :
  i ∈ idx -> length a <= i -> take_rows idx a = Raise IndexError.
Proof.
  intros Hi Hlen.
  destruct (take_rows idx a) as [x|e] eqn:H.
  - apply list_elem_of_lookup in Hi as [p Hp].
    destruct (rmap_lookup _ _ _ _ _ H Hp) as (b & _ & Hb).
    rewrite (lookup_ge_None_2 a i Hlen) in Hb. done.
  - by rewrite (take_rows_raise _ _ _ H).
Qed.

Lemma rmap_take_rows_raise {A} (idx : list nat) (data : list (list A))
    (e : exn) :
  rmap (take_rows idx) data = Raise e -> e = IndexError.
Proof.
  induction data as [|v data IH]; simpl; [done|].
  destruct (take_rows idx v) eqn:Hv; simpl.
  - destruct (rmap _ data); simpl; [done|]. intros [= <-]. by apply IH.
  - intros [= <-]. by eapply take_rows_raise.
Qed.

Lemma rmap_take_rows_short {A} (idx : list nat) (data : list (list A))
    (v : list A) (i : nat) :
  v ∈ data -> i ∈ idx -> length v <= i ->
  rmap (take_rows idx) data = Raise IndexError.
Proof.
  intros Hv Hi Hlen.
  destruct (rmap (take_rows idx) data) as [x|e] eqn:H.
  - apply list_elem_of_lookup in Hv as [p Hp].
    destruct (rmap_lookup _ _ _ _ _ H Hp) as (b & _ & Hb).
    by rewrite (take_rows_out_of_range idx v i) in Hb.
  - by rewrite (rmap_take_rows_raise _ _ _ H).
Qed.

(** Slicing every view with both index lists of a partition of
    [{0, ..., n-1}] fails as soon as one view has fewer than [n] rows. *)
Lemma slices_of_short_view {A B} (n : nat) (idx_1 idx_2 : list nat)
    (data : list (list A)) (v : list A)
    (k : list (list A) -> list (list A) -> result B) :
  0 < n -> is_partition n idx_1 idx_2 -> v ∈ data -> length v < n ->
  (try data_1 <- rmap (take_rows idx_1) data;
   try data_2 <- rmap (take_rows idx_2) data;
   k data_1 data_2)%res = Raise IndexError.
Proof.
  intros Hn (_ & _ & _ & Hcover) Hv Hlen.
  destruct (proj1 (Hcover (n - 1)) ltac:(lia)) as [Hi|Hi].
  - rewrite (rmap_take_rows_short idx_1 data v (n - 1)); [done..|lia].
  - destruct (rmap (take_rows idx_1) data) as [d1|e] eqn:H1; simpl.
    + rewrite (rmap_take_rows_short idx_2 data v (n - 1)); [done..|lia].
    + by rewrite (rmap_take_rows_raise _ _ _ H1).
Qed.

Lemma take_rows_long_views (idx : list nat) (n : nat) (data : list tensor) :
  (forall i, i ∈ idx -> i < n) -> Forall (fun v => n <= length v) data ->
  rmap (take_rows idx) data = Ok (map (select_rows idx) data).
Proof.
  intros Hlt Hn. apply rmap_ok.
  eapply Forall_impl; [exact Hn|]. intros v Hv; cbn beta in *.
  apply take_rows_in_range. intros i Hi. specialize (Hlt i Hi). lia.
Qed.

Lemma select_rows_below {A} (idx : list nat) (n : nat) (a : list A) :
  (forall i, i ∈ idx -> i < n) -> n <= length a ->
  select_rows idx a = select_rows idx (take n a).
Proof.
  intros Hlt Hn. unfold select_rows.
  induction idx as [|i idx IH]; csimpl; [done|].
  rewrite lookup_take_lt by (apply Hlt; by left).
  rewrite IH; [done|]. intros j Hj. apply Hlt. by right.
Qed.

Section UnequalViews.
Context `{RG : RandomGen}.

(** [data_split] takes the sample count [n] from the first view alone.
    A view with fewer rows makes the call fail with [IndexError]; views
    with more rows are accepted in silence, and their rows from position
    [n] on reach neither part: the call returns what it returns on the
    views cut down to their first [n] rows. *)
Theorem data_split_measures_the_first_view
    (g : rng) (data : list tensor) (split : spec_float) (n : nat) (k : Z) :
  0 < n ->
  sample_count data = Ok n ->
  int_of_product (Z.of_nat n) F64.lit_0_8 = Ok k ->
  (0 <= k <= Z.of_nat n)%Z ->
  ((exists v, v ∈ data /\ length v < n) ->
   (Optimisation_VAE.data_split g data split).1 = Raise IndexError)
  /\ (Forall (fun v => n <= length v) data ->
      is_ok (Optimisation_VAE.data_split g data split).1 = true
      /\ Optimisation_VAE.data_split g data split
         = Optimisation_VAE.data_split g (map (take n) data) split).
Proof.
  intros Hpos Hn Hk Hrange.
  destruct (random_sample_ok (seed 42) n k Hrange)
    as (idx & g' & Hs & Hlen & Hnd & Hlt).
  pose proof (setdiff1d_range_partition n idx Hnd Hlt) as Hpart.
  assert (Hlt2 : forall i, i ∈ setdiff1d_range n idx -> i < n).
  { intros i Hi. by apply setdiff1d_range_elem in Hi as [? _]. }
  assert (Hidx : Optimisation_VAE.data_split_indices data
                 = (Ok (idx, setdiff1d_range n idx), g')).
  { unfold Optimisation_VAE.data_split_indices. by rewrite Hn, Hk, Hs. }
  split.
  - intros (v & Hv & Hshort). unfold Optimisation_VAE.data_split.
    rewrite Hidx; simpl.
    by apply (slices_of_short_view n idx _ data v).
  - intros Hlong.
    assert (Hn' : sample_count (map (take n) data) = Ok n).
    { destruct data as [|v0 data]; [done|]. simpl in *.
      injection Hn as Hn. inversion Hlong; subst.
      by rewrite length_take, Nat.min_l. }
    assert (Hidx' : Optimisation_VAE.data_split_indices (map (take n) data)
                    = (Ok (idx, setdiff1d_range n idx), g')).
    { unfold Optimisation_VAE.data_split_indices. by rewrite Hn', Hk, Hs. }
    unfold Optimisation_VAE.data_split. rewrite Hidx, Hidx'.
    rewrite !(take_rows_long_views _ n data) by done.
    rewrite !(take_rows_long_views _ n (map (take n) data)); try done.
    2,3: apply Forall_fmap; eapply Forall_impl; [exact Hlong|];
         intros v Hv; simpl in *; rewrite length_take; lia.
    simpl. split; [done|]. do 3 f_equal.
    + rewrite <- list_fmap_compose. apply Forall_fmap_ext_1.
      eapply Forall_impl; [exact Hlong|]. intros v Hv; simpl in *.
      by apply select_rows_below.
    + rewrite <- list_fmap_compose. apply Forall_fmap_ext_1.
      eapply Forall_impl; [exact Hlong|]. intros v Hv; simpl in *.
      by apply select_rows_below.
Qed.

(** [train_test_split], too, measures the first view only.  A view or a
    label vector with fewer entries than the first view has rows makes the
    call fail with [IndexError]. *)
Theorem train_test_split_rejects_short_inputs
    (g : rng) (self : MultiviewDataModule.t) (n : nat) (k : Z) :
  0 < n ->
  sample_count (MultiviewDataModule.data self) = Ok n ->
  int_of_product (Z.of_nat n) (MultiviewDataModule.train_size self) = Ok k ->
  (0 <= k <= Z.of_nat n)%Z ->
  (exists v, v ∈ MultiviewDataModule.data self /\ length v < n)
  \/ (exists l, MultiviewDataModule.labels self = Some l /\ length l < n) ->
  (MultiviewDataModule.train_test_split g self).1 = Raise IndexError.
Proof.
  intros Hpos Hn Hk Hrange Hshort.
  destruct (random_sample_ok g n k Hrange)
    as (idx & g' & Hs & Hlen & Hnd & Hlt).
  pose proof (setdiff1d_range_partition n idx Hnd Hlt) as Hpart.
  unfold MultiviewDataModule.train_test_split,
    MultiviewDataModule.split_indices.
  rewrite Hn, Hk, Hs; simpl.
  destruct Hshort as [(v & Hv & Hshort)|(l & Hl & Hshort)].
  - by apply (slices_of_short_view n idx _ _ v).
  - rewrite Hl.
    destruct (rmap (take_rows idx) _) as [d1|e] eqn:H1; simpl;
      [|by rewrite (rmap_take_rows_raise _ _ _ H1)].
    destruct (rmap (take_rows (setdiff1d_range n idx)) _) as [d2|e] eqn:H2;
      simpl; [|by rewrite (rmap_take_rows_raise _ _ _ H2)].
    destruct Hpart as (_ & _ & _ & Hcover).
    destruct (proj1 (Hcover (n - 1)) ltac:(lia)) as [Hi|Hi].
    + rewrite (take_rows_out_of_range idx l (n - 1)); [done..|lia].
    + destruct (take_rows idx l) as [tl|e] eqn:H3; simpl.
      * rewrite (take_rows_out_of_range _ l (n - 1)); [done..|lia].
      * by rewrite (take_rows_raise _ _ _ H3).
Qed.

(** [random.sample] refuses a sample that is negative or larger than the
    population: a [train_size] for which [int(N * train_size)] falls
    outside [0 .. N] makes [train_test_split] fail with [ValueError], before
    anything is drawn from the generator. *)
Theorem train_test_split_refuses_size_out_of_range
    (g : rng) (self : MultiviewDataModule.t) (n : nat) (k : Z) :
  sample_count (MultiviewDataModule.data self) = Ok n ->
  int_of_product (Z.of_nat n) (MultiviewDataModule.train_size self) = Ok k ->
  (k < 0 \/ Z.of_nat n < k)%Z ->
  MultiviewDataModule.train_test_split g self = (Raise ValueError, g).
Proof.
  intros Hn Hk Hrange.
  unfold MultiviewDataModule.train_test_split,
    MultiviewDataModule.split_indices, random_sample.
  rewrite Hn, Hk.
  destruct (Z.ltb_spec k 0); [done|].
  destruct (Z.ltb_spec (Z.of_nat n) k); [done|lia].
Qed.

End UnequalViews.

(** Views of 5 and 3 rows, and views of 5 and 7 rows. *)
Lemma data_split_measures_the_first_view_witness :
  (Optimisation_VAE.data_split (7%Z : @rng Lcg_RandomGen)
     [Toy.view 5 2; Toy.view 3 2] Optimisation_VAE.lit_0_9).1
  = Raise IndexError
  /\ is_ok (Optimisation_VAE.data_split (7%Z : @rng Lcg_RandomGen)
              [Toy.view 5 2; Toy.view 7 2] Optimisation_VAE.lit_0_9).1
     = true
  /\ Optimisation_VAE.data_split (7%Z : @rng Lcg_RandomGen)
       [Toy.view 5 2; Toy.view 7 2] Optimisation_VAE.lit_0_9
     = Optimisation_VAE.data_split (7%Z : @rng Lcg_RandomGen)
         (map (take 5) [Toy.view 5 2; Toy.view 7 2])
         Optimisation_VAE.lit_0_9.
Proof.
  split.
  - destruct (data_split_measures_the_first_view (RG := Lcg_RandomGen) 7%Z
                [Toy.view 5 2; Toy.view 3 2] Optimisation_VAE.lit_0_9 5 4%Z)
      as [H _]; [lia|reflexivity|reflexivity|lia|].
    apply H. exists (Toy.view 3 2). split; [|simpl; lia].
    apply list_elem_of_In. simpl. tauto.
  - destruct (data_split_measures_the_first_view (RG := Lcg_RandomGen) 7%Z
                [Toy.view 5 2; Toy.view 7 2] Optimisation_VAE.lit_0_9 5 4%Z)
      as [_ H]; [lia|reflexivity|reflexivity|lia|].
    apply H. repeat constructor; simpl; lia.
Defined.

(** The example module with a label vector of four entries. *)
Lemma train_test_split_rejects_short_inputs_witness :
  (MultiviewDataModule.train_test_split (7%Z : @rng Lcg_RandomGen)
     {| MultiviewDataModule.batch_size := 2%Z;
        MultiviewDataModule.is_validate := true;
        MultiviewDataModule.train_size := F64.lit_0_75;
        MultiviewDataModule.data := [Toy.view 5 2; Toy.view 5 3];
        MultiviewDataModule.labels := Some [0; 1; 0; 1]%Z |}).1
  = Raise IndexError.
Proof.
  apply (train_test_split_rejects_short_inputs (RG := Lcg_RandomGen) 7%Z
           _ 5 3%Z).
  - lia.
  - reflexivity.
  - reflexivity.
  - lia.
  - right. eexists. split; [reflexivity|simpl; lia].
Defined.

(** Five samples and a training share of 2: [int(5 * 2.0) = 10 > 5]. *)
Lemma train_test_split_refuses_size_out_of_range_witness :
  MultiviewDataModule.train_test_split (7%Z : @rng Lcg_RandomGen)
    {| MultiviewDataModule.batch_size := 2%Z;
       MultiviewDataModule.is_validate := true;
       MultiviewDataModule.train_size := S754_finite false 4503599627370496 (-51);
       MultiviewDataModule.data := [Toy.view 5 2; Toy.view 5 3];
       MultiviewDataModule.labels := None |}
  = (Raise ValueError, 7%Z).
Proof.
  apply (train_test_split_refuses_size_out_of_range (RG := Lcg_RandomGen)
           7%Z _ 5 10%Z).
  - reflexivity.
  - reflexivity.
  - lia.
Defined.

(* ===================================================================== *)
(** * The generator factory: when it fails, and the whole-dataset policy  *)
(* ===================================================================== *)

Lemma rmap_raise {A B} (f : A -> result B) (l : list A) (E : exn) :
  (forall a e, a ∈ l -> f a = Raise e -> e = E) ->
  Exists (fun a => is_ok (f a) = false) l ->
  rmap f l = Raise E.
Proof.
  intros Hall Hex. induction l as [|a l IH]; simpl; [by inversion Hex|].
  destruct (f a) as [b|e] eqn:Ha; simpl.
  - rewrite IH; [done| |].
    + intros a' e' Ha'. apply Hall. by right.
    + inversion Hex as [? ? Hh|]; subst; [|done]. by rewrite Ha in Hh.
  - f_equal. eapply Hall; [|exact Ha]. by left.
Qed.

(** The batch size a generator over the view [v] is given when the
    view is wrapped (lines 34-37 and 54-57): the instance's batch size, or
    with the whole-dataset policy the sample count of the view. *)
Definition batch_size_for {G Net} (self : Optimisation_VAE.Model G Net)
    (v : tensor) : Z :=
  match Optimisation_VAE.batch_size self with
  | Some b => b
  | None => Z.of_nat (length v)
  end.

Section Factory.
Context `{RG : RandomGen} {Net : Type}.
Implicit Types self : Optimisation_VAE.Model rng Net.

Lemma generate_data_unfold self views labels :
  Optimisation_VAE.SNP_model self = false ->
  Optimisation_VAE.generate_data self views labels
  = rmap (fun v =>
            new_DataLoader
              (match labels with
               | Some l => MyDataset_labels v l
               | None => MyDataset v
               end) (Some (batch_size_for self v))) views.
Proof.
  intros Hs. unfold Optimisation_VAE.generate_data, batch_size_for.
  rewrite Hs. by destruct labels.
Qed.

(** The only thing [generate_data] checks, through torch, is the batch
    size.  With [SNP_model] unset it returns one generator per view exactly
    when every view's batch size is positive, and fails with [ValueError]
    otherwise: on a batch size of zero or less when there is a view, and
    under the whole-dataset policy on a view without samples.  Neither the
    sample counts of the views nor the length of the labels are compared. *)
Theorem generate_data_checks_batch_size_only self views labels :
  Optimisation_VAE.SNP_model self = false ->
  (Forall (fun v => (0 < batch_size_for self v)%Z) views ->
   exists gens,
     Optimisation_VAE.generate_data self views labels = Ok gens
     /\ length gens = length views)
  /\ (~ Forall (fun v => (0 < batch_size_for self v)%Z) views ->
      Optimisation_VAE.generate_data self views labels = Raise ValueError).
Proof.
  intros Hs. rewrite generate_data_unfold by done. split.
  - intros Hpos. eexists. split; [|apply length_map].
    apply rmap_ok. eapply Forall_impl; [exact Hpos|].
    intros v Hv; cbn beta in *. unfold new_DataLoader.
    by destruct (Z.leb_spec (batch_size_for self v) 0); [lia|].
  - intros Hneg. apply not_Forall_Exists in Hneg; [|apply _].
    apply rmap_raise.
    + intros v e _. unfold new_DataLoader.
      destruct (_ <=? 0)%Z; [by intros [= <-]|done].
    + eapply Exists_impl; [exact Hneg|]. intros v Hv.
      unfold compose in Hv. unfold new_DataLoader.
      by destruct (Z.leb_spec (batch_size_for self v) 0); [|lia].
Qed.

End Factory.

(** Views of 100 and 50 samples in batches of 25; a view without samples
    under the whole-dataset policy. *)
Lemma generate_data_checks_batch_size_only_witness :
  (exists gens,
      Optimisation_VAE.generate_data (Toy.model (Some 25%Z))
        [Toy.view 100 10; Toy.view 50 8] (Some [0; 1]%Z) = Ok gens
      /\ length gens = 2)
  /\ Optimisation_VAE.generate_data (Toy.model None)
       [Toy.view 100 10; Toy.view 0 8] None = Raise ValueError.
Proof.
  split.
  - destruct (generate_data_checks_batch_size_only (RG := Lcg_RandomGen)
                (Toy.model (Some 25%Z)) [Toy.view 100 10; Toy.view 50 8]
                (Some [0; 1]%Z) eq_refl) as [H _].
    apply H. repeat constructor.
  - destruct (generate_data_checks_batch_size_only (RG := Lcg_RandomGen)
                (Toy.model None) [Toy.view 100 10; Toy.view 0 8]
                None eq_refl) as [_ H].
    apply H. intros Hall. inversion Hall as [|? ? _ Hall']; subst.
    inversion Hall' as [|? ? H0 _]; subst. vm_compute in H0. discriminate.
Defined.

Lemma batch_sampler_whole (n : nat) :
  0 < n -> batch_sampler n (seq 0 n) [] = [seq 0 n].
Proof.
  intros Hn. rewrite batch_sampler_step by (simpl; lia). simpl.
  rewrite Nat.sub_0_r, Nat.min_id, Nat.sub_diag. done.
Qed.

Lemma take_rows_whole {A} (v : list A) :
  take_rows (seq 0 (length v)) v = Ok v.
Proof. rewrite take_rows_seq by done. by rewrite firstn_all. Qed.

(** One pass over the generator of the whole-dataset policy: one batch,
    the view itself (with the labels of its positions). *)
Lemma batches_whole (v : tensor) (labels : option (list label)) :
  v <> [] ->
  (forall l, labels = Some l -> length v <= length l) ->
  batches {| dataset := match labels with
                        | Some l => MyDataset_labels v l
                        | None => MyDataset v
                        end;
             loader_batch_size := Some (Z.of_nat (length v)) |}
  = [Ok match labels with
        | Some l => BLabelled v (take (length v) l)
        | None => BData v
        end].
Proof.
  intros Hv Hl. assert (0 < length v) by (destruct v; simpl; [done|lia]).
  unfold batches. destruct labels as [l|]; simpl;
    rewrite Nat2Z.id, batch_sampler_whole by done; simpl;
    rewrite take_rows_whole; simpl; [|done].
  by rewrite take_rows_seq by (by apply Hl).
Qed.

Lemma pull_heads_single {A} (ss : list (list (result A))) (bs : list A) :
  Forall2 (fun s b => s = [Ok b]) ss bs -> pull_heads ss = Some (Ok bs).
Proof.
  induction 1 as [|s b ss bs -> _ IH]; simpl; [done|]. by rewrite IH.
Qed.

Lemma zip_generators_single (gens : list DataLoader) (bs : list batch) :
  gens <> [] ->
  Forall2 (fun g b => batches g = [Ok b]) gens bs ->
  zip_generators gens = [Ok bs].
Proof.
  intros Hne H. unfold zip_generators.
  assert (Hss : Forall2 (fun s b => s = [Ok b]) (map batches gens) bs).
  { by apply Forall2_fmap_l. }
  pose proof (pull_heads_single _ _ Hss) as Hp.
  destruct H as [|g b gens bs Hg _]; [done|]. simpl in *.
  rewrite Hg in *. simpl. by rewrite Hp.
Qed.

Section WholeDataset.
Context `{RG : RandomGen} {Net : Type}.
Implicit Types self : Optimisation_VAE.Model rng Net.

(** The whole-dataset policy ([batch_size] is [None], [SNP_model] unset):
    what [preprocess_run] makes of the generators is the views themselves,
    every row of every view in its place, whether or not the views have the
    same number of rows; with labels, the data comes with the labels of the
    first view's positions. *)
Theorem whole_dataset_preprocess_returns_the_views self views labels :
  Optimisation_VAE.SNP_model self = false ->
  Optimisation_VAE.batch_size self = None ->
  views <> [] ->
  Forall (fun v => v <> []) views ->
  (forall l, labels = Some l -> Forall (fun v => length v <= length l) views) ->
  exists gens,
    Optimisation_VAE.generate_data self views labels = Ok gens
    /\ Optimisation_VAE.preprocess_run gens
         (match labels with Some _ => true | None => false end)
       = Ok match labels with
            | Some l => Labelled views (take (length (hd [] views)) l)
            | None => Unlabelled views
            end.
Proof.
  intros Hs Hb Hne Hrows Hl.
  set (ds := fun v : tensor => match labels with
                               | Some l => MyDataset_labels v l
                               | None => MyDataset v
                               end).
  set (bt := fun v : tensor => match labels with
                               | Some l => BLabelled v (take (length v) l)
                               | None => BData v
                               end).
  exists (map (fun v => {| dataset := ds v;
                           loader_batch_size := Some (Z.of_nat (length v)) |})
            views).
  split.
  - rewrite generate_data_unfold by done. apply rmap_ok.
    eapply Forall_impl; [exact Hrows|]. intros v Hv; cbn beta in *.
    unfold batch_size_for, new_DataLoader. rewrite Hb.
    destruct (Z.leb_spec (Z.of_nat (length v)) 0); [|done].
    destruct v; simpl in *; [done|lia].
  - unfold Optimisation_VAE.preprocess_run.
    rewrite (zip_generators_single _ (map bt views)).
    2:{ by destruct views. }
    2:{ apply Forall2_fmap, Forall_Forall2_diag, Forall_forall.
        intros v Hv. unfold ds, bt. apply batches_whole.
        - by eapply Forall_forall in Hrows.
        - intros l ->. specialize (Hl l eq_refl).
          by eapply Forall_forall in Hl. }
    simpl. unfold bt. destruct labels as [l|].
    + unfold Optimisation_VAE.tensors_and_labels.
      rewrite (rmap_ok _ (fun b => batch_data b)),
        (rmap_ok _ (fun b => match b with
                             | BLabelled _ y => y
                             | BData _ => []
                             end));
        try (apply Forall_fmap, Forall_forall; by intros v _).
      simpl. rewrite <- !list_fmap_compose.
      destruct views as [|v0 views]; [done|]. simpl.
      do 3 f_equal. by rewrite list_fmap_id.
    + rewrite tensors_of_BData. done.
Qed.

End WholeDataset.

(** Views of 100 and 50 samples, without labels. *)
Lemma whole_dataset_preprocess_returns_the_views_witness :
  exists gens,
    Optimisation_VAE.generate_data (Toy.model None)
      [Toy.view 100 10; Toy.view 50 8] None = Ok gens
    /\ Optimisation_VAE.preprocess_run gens false
       = Ok (Unlabelled [Toy.view 100 10; Toy.view 50 8]).
Proof.
  apply (whole_dataset_preprocess_returns_the_views (RG := Lcg_RandomGen)
           (Toy.model None) [Toy.view 100 10; Toy.view 50 8] None).
  - reflexivity.
  - reflexivity.
  - discriminate.
  - repeat constructor; discriminate.
  - intros l Hl. discriminate Hl.
Defined.


(* ===================================================================== *)
(** * A training run, step by step                                        *)
(* ===================================================================== *)

(** The index batches of a sequential pass in closed form: batch [i] holds
    the positions [i*b, ..., min((i+1)*b, n) - 1]. *)
Lemma batch_sampler_closed (b n : nat) :
  0 < b ->
  batch_sampler b (seq 0 n) []
  = map (fun i => seq (i * b) (Nat.min b (n - i * b)))
      (seq 0 ((n + b - 1) / b)).
Proof.
  intros Hb. apply list_eq_same_length with ((n + b - 1) / b).
  - by rewrite length_map, length_seq.
  - rewrite batch_sampler_length by (simpl; lia). by rewrite length_seq.
  - intros i c c' Hi Hc Hc'.
    apply batch_sampler_lookup in Hc; [|done].
    rewrite list_lookup_fmap, lookup_seq_lt in Hc' by done.
    simpl in Hc'. congruence.
Qed.

(** The rows of batch [i] of a view. *)
Definition batch_rows {A} (b i : nat) (v : list A) : list A :=
  take b (drop (i * b) v).

Lemma select_rows_batch {A} (b n i : nat) (v : list A) :
  length v = n ->
  select_rows (seq (i * b) (Nat.min b (n - i * b))) v = batch_rows b i v.
Proof.
  intros Hn. rewrite select_rows_seq. unfold batch_rows.
  destruct (Nat.min_spec b (n - i * b)) as [[_ ->]|[Hle ->]]; [done|].
  rewrite !take_ge; [done|rewrite length_drop; lia..].
Qed.

Lemma batches_plain (b : Z) (v : tensor) :
  (0 < b)%Z ->
  batches (plain_loader b v)
  = map (fun i => Ok (BData (batch_rows (Z.to_nat b) i v)))
      (seq 0 ((length v + Z.to_nat b - 1) / Z.to_nat b)).
Proof.
  intros Hb. unfold batches, plain_loader; simpl.
  rewrite batch_sampler_closed by lia. rewrite <- list_fmap_compose.
  apply list_fmap_ext. intros _ i _; simpl.
  rewrite take_rows_in_range.
  - by rewrite (select_rows_batch _ (length v)).
  - intros j Hj. apply elem_of_seq in Hj. lia.
Qed.

(** [zip] over streams that all hold [k] successful fetches. *)
Lemma zip_streams_all_ok {A V} (f : V -> nat -> A) (views : list V)
    (s k : nat) :
  zip_streams k (map (fun v => map (fun i => Ok (f v i)) (seq s k)) views)
  = map (fun i => Ok (map (fun v => f v i) views)) (seq s k).
Proof.
  revert s. induction k as [|k IH]; intros s; simpl; [done|].
  assert (Hp : pull_heads
                 (map (fun v => Ok (f v s)
                                  :: map (fun i => Ok (f v i)) (seq (S s) k))
                    views)
               = Some (Ok (map (fun v => f v s) views))).
  { clear IH. induction views as [|v views IHv]; [done|].
    cbn [map pull_heads]. by rewrite IHv. }
  rewrite Hp. f_equal. rewrite <- IH. f_equal.
  rewrite <- list_fmap_compose. by apply list_fmap_ext.
Qed.

(** One pass over the generators of views that share their sample count:
    the synchronized tuples are the batches of every view, in order. *)
Lemma zip_generators_plain (b : Z) (n : nat) (views : list tensor) :
  (0 < b)%Z -> views <> [] -> Forall (fun v => length v = n) views ->
  zip_generators (map (plain_loader b) views)
  = map (fun i => Ok (map (fun v => BData (batch_rows (Z.to_nat b) i v))
                        views))
      (seq 0 ((n + Z.to_nat b - 1) / Z.to_nat b)).
Proof.
  intros Hb Hne Hn. unfold zip_generators.
  set (k := (n + Z.to_nat b - 1) / Z.to_nat b).
  assert (Hss : map batches (map (plain_loader b) views)
                = map (fun v => map (fun i =>
                                       Ok (BData (batch_rows (Z.to_nat b) i v)))
                                  (seq 0 k)) views).
  { rewrite <- list_fmap_compose. apply Forall_fmap_ext_1.
    eapply Forall_impl; [exact Hn|]. intros v Hv; simpl in *.
    rewrite batches_plain by done. by rewrite Hv. }
  rewrite Hss. destruct views as [|v views]; [done|].
  cbn [map]. rewrite length_map, length_seq.
  apply (zip_streams_all_ok
           (fun v i => BData (batch_rows (Z.to_nat b) i v)) (v :: views) 0 k).
Qed.

(** Every series of the logger has exactly [j] entries, and the series are
    those of the loss fields [K]. *)
Definition logged (K : gset string) (j : nat) (lg : Logger.t) : Prop :=
  dom (Logger.logs lg) = K
  /\ map_Forall (fun _ h => length h = j) (Logger.logs lg).

Lemma on_train_init_logged (loss : loss_record) :
  logged (dom loss) 0 (Logger.on_train_init Logger.new (loss_keys loss)).
Proof.
  unfold logged, Logger.on_train_init, loss_keys; simpl.
  assert (H : forall (keys : list string) (m : gmap string (list spec_float)),
             map_Forall (fun _ h => length h = 0) m ->
             dom (foldl (fun m k => <[k := []]> m) m keys)
             = dom m ∪ list_to_set keys
             /\ map_Forall (fun _ h => length h = 0)
                  (foldl (fun m k => <[k := []]> m) m keys)).
  { induction keys as [|k keys IH]; intros m Hm; simpl.
    - split; [by rewrite (right_id_L ∅ (∪))|done].
    - destruct (IH (<[k := []]> m)) as [Hd Hf].
      { by apply map_Forall_insert_2. }
      split; [|done]. rewrite Hd, dom_insert_L.
      by rewrite (comm_L (∪) {[k]}), (assoc_L (∪)). }
  destruct (H (map_to_list loss).*1 ∅) as [Hd Hf]; [apply map_Forall_empty|].
  split; [|done]. rewrite Hd, dom_empty_L, (left_id_L ∅ (∪)).
  apply leibniz_equiv. symmetry. apply dom_alt.
Qed.

Lemma on_step_fi_logged (K : gset string) (j : nat) (lg : Logger.t)
    (loss : loss_record) :
  logged K j lg -> dom loss = K ->
  exists lg', Logger.on_step_fi lg loss = Ok lg' /\ logged K (S j) lg'.
Proof.
  intros [Hd Hf] Hl. unfold Logger.on_step_fi.
  destruct (decide _) as [_|Hn]; [|exfalso; apply Hn; by rewrite Hl, Hd].
  eexists. split; [done|]. split; simpl.
  - apply set_eq. intros k. rewrite <- Hd, !elem_of_dom, lookup_merge.
    destruct (Logger.logs lg !! k) as [h|] eqn:Hk; simpl.
    + split; [by eauto|]. intros _. destruct (loss !! k); by eauto.
    + destruct (loss !! k); simpl; split; by intros [? ?].
  - intros k h'. rewrite lookup_merge.
    destruct (Logger.logs lg !! k) as [h|] eqn:Hk; simpl;
      [|by destruct (loss !! k)].
    assert (Hin : is_Some (loss !! k)).
    { apply elem_of_dom. rewrite Hl, <- Hd. apply elem_of_dom. eauto. }
    destruct Hin as [v ->]. simpl. intros [= <-].
    rewrite length_app. simpl. rewrite (Hf k h Hk). lia.
Qed.

Section ExactRun.
Import Optimisation_VAE.
Context `{RG : RandomGen} {Net Fwd Enc : Type}.
Variable F : Family Net Fwd Enc.

Abbreviation Self := (Model rng Net).

Section Runs.
(** A condition on the configuration. *)
Variable Q : Self -> Prop.
Hypothesis Q_config : forall s s', config s' = config s -> Q s -> Q s'.

(** From any state that satisfies [Q], [m] returns a value that satisfies
    [R], leaves the configuration as it was and adds exactly the events
    [evs] to the ghost record. *)
Definition runs {A} (m : M Self A) (evs : list event) (R : A -> Prop)
  : Prop :=
  forall s, Q s ->
    exists a s', m s = (Ok a, s') /\ config s' = config s
                 /\ trace s' = trace s ++ evs /\ R a.

Lemma runs_ret {A} (a : A) (R : A -> Prop) : R a -> runs (ret a) [] R.
Proof. intros Ha s _. exists a, s. by rewrite app_nil_r. Qed.

Lemma runs_bind {A B} (m : M Self A) (k : A -> M Self B) evs1 evs2
    (R1 : A -> Prop) (R2 : B -> Prop) :
  runs m evs1 R1 -> (forall a, R1 a -> runs (k a) evs2 R2) ->
  runs (bind m k) (evs1 ++ evs2) R2.
Proof.
  intros Hm Hk s HQ. destruct (Hm s HQ) as (a & s1 & Hs1 & Hc1 & Ht1 & Ha).
  destruct (Hk a Ha s1) as (b & s2 & Hs2 & Hc2 & Ht2 & Hb).
  { by eapply Q_config. }
  exists b, s2. unfold bind. rewrite Hs1. split; [done|].
  split; [congruence|]. split; [|done]. by rewrite Ht2, Ht1, app_assoc.
Qed.

Lemma runs_get {B} (k : Self -> M Self B) evs (R : B -> Prop) :
  (forall self, Q self -> runs (k self) evs R) -> runs (bind get k) evs R.
Proof. intros Hk s HQ. unfold bind, get. by apply Hk. Qed.

Lemma runs_lift {A} (a : A) (R : A -> Prop) : R a -> runs (lift (Ok a)) [] R.
Proof. intros Ha s _. exists a, s. by rewrite app_nil_r. Qed.

Lemma runs_emit (e : event) : runs (emit e) [e] (fun _ => True).
Proof. intros s _. by eexists tt, _. Qed.

Lemma runs_torch (f : Net -> Net) : runs (torch f) [] (fun _ => True).
Proof. intros s _. eexists tt, _. split; [done|]. by rewrite app_nil_r. Qed.

Lemma runs_call {A} (f : Net -> result A * Net) (R : A -> Prop) :
  (forall n, exists a n', f n = (Ok a, n') /\ R a) -> runs (call f) [] R.
Proof.
  intros Hf s _. destruct (Hf (net s)) as (a & n' & Hn & Ha).
  exists a, (set_net n' s). unfold call. rewrite Hn.
  split; [done|]. split; [done|]. by rewrite app_nil_r.
Qed.

Lemma runs_lift_bind {A B} (a : A) (k : A -> M Self B) evs (R : B -> Prop) :
  runs (k a) evs R -> runs (bind (lift (Ok a)) k) evs R.
Proof. intros H. exact H. Qed.

Lemma runs_ret_bind {A B} (a : A) (k : A -> M Self B) evs (R : B -> Prop) :
  runs (k a) evs R -> runs (bind (ret a) k) evs R.
Proof. intros H. exact H. Qed.

Lemma runs_weaken {A} (m : M Self A) evs evs' (R R' : A -> Prop) :
  runs m evs R -> evs = evs' -> (forall a, R a -> R' a) -> runs m evs' R'.
Proof.
  intros Hm <- HR s HQ. destruct (Hm s HQ) as (a & s' & ? & ? & ? & ?).
  exists a, s'. eauto.
Qed.

(** A loop whose body, at position [i], takes the loop variables from
    [I i] to [I (S i)]. *)
Lemma runs_for_each {A L} (xs : list A) (body : A -> L -> M Self L)
    (ev : A -> list event) (I : nat -> L -> Prop) (l : L) :
  I 0 l ->
  (forall i x l, xs !! i = Some x -> I i l ->
                 runs (body x l) (ev x) (I (S i))) ->
  runs (for_each xs body l) (concat (map ev xs)) (I (length xs)).
Proof.
  revert I l. induction xs as [|x xs IH]; intros I l Hl Hbody; simpl.
  - by apply runs_ret.
  - eapply runs_bind; [by apply (Hbody 0)|]. intros l' Hl'.
    apply (IH (fun i => I (S i))); [done|].
    intros i x' l'' Hx. by apply (Hbody (S i)).
Qed.

End Runs.

Lemma prepare_batch_data (self : Self) (f : tensor -> tensor)
    (views : list tensor) :
  SNP_model self = false -> labels self = None ->
  prepare_batch self (map (fun v => BData (f v)) views)
  = Ok (Unlabelled (map f views)).
Proof.
  intros Hs Hl. unfold prepare_batch. rewrite Hs, Hl; simpl.
  replace (map (fun v => BData (f v)) views) with (map BData (map f views))
    by (by rewrite <- list_fmap_compose).
  by rewrite tensors_of_BData.
Qed.

Section PlainRun.
Variables (b E : Z) (sm : bool) (views : list tensor) (n : nat).
Variable K : gset string.
Hypothesis b_pos : (0 < b)%Z.
Hypothesis E_pos : (1 <= E)%Z.
Hypothesis views_ne : views <> [].
Hypothesis views_n : Forall (fun v => length v = n) views.
Hypothesis n_pos : 0 < n.
Hypothesis forward_ok : forall x net,
  exists fwd net', forward F true x net = (Ok fwd, net').
Hypothesis loss_ok : forall x fwd net,
  exists loss net',
    loss_function F true x fwd net = (Ok loss, net') /\ dom loss = K.
Hypothesis total_K : "total"%string ∈ K.

(** The mini-batch path without validation split, labels or SNP
    centring, for [E] epochs. *)
Definition plain_run (s : Self) : Prop :=
  batch_size s = Some b /\ val_set s = false /\ labels s = None
  /\ SNP_model s = false /\ n_epochs s = E /\ save_model s = sm.

Lemma plain_run_config (s s' : Self) :
  config s' = config s -> plain_run s -> plain_run s'.
Proof.
  unfold plain_run, config. intros Hc (? & ? & ? & ? & ? & ?).
  injection Hc. intros. repeat split; congruence.
Qed.

Abbreviation runs_plain := (runs plain_run).

Lemma runs_optimise_batch (x : net_input) :
  runs_plain (optimise_batch F x) [EvOptimiseBatch x; EvOptimizerStep]
    (fun loss => dom loss = K).
Proof.
  unfold optimise_batch, optimise_batch_body. eapply runs_weaken.
  - eapply runs_bind; [apply plain_run_config|apply runs_emit|intros _ _].
    eapply (runs_bind _ plain_run_config _ _ _ _ (fun _ => True));
      [|intros fwd _].
    { apply runs_call. intros net.
      destruct (forward_ok x net) as (fwd & net' & ->). eauto. }
    eapply (runs_bind _ plain_run_config _ _ _ _ (fun loss => dom loss = K));
      [|intros loss Hloss].
    { apply runs_call. intros net.
      destruct (loss_ok x fwd net) as (loss & net' & -> & Hd). eauto. }
    eapply runs_bind; [apply plain_run_config|apply runs_torch|intros _ _].
    assert (Ht : is_Some (loss !! "total"%string)).
    { apply elem_of_dom. by rewrite Hloss. }
    destruct Ht as [t ->].
    eapply runs_bind; [apply plain_run_config|apply runs_torch|intros _ _].
    eapply runs_bind; [apply plain_run_config|apply runs_torch|intros _ _].
    eapply runs_bind; [apply plain_run_config|apply runs_emit|intros _ _].
    apply runs_ret. exact Hloss.
  - reflexivity.
  - intros a Ha. exact Ha.
Qed.

(** The events of one pass over the training batches. *)
Definition epoch_events : list event :=
  concat (map (fun i =>
                 [EvOptimiseBatch
                    (Unlabelled (map (batch_rows (Z.to_nat b) i) views));
                  EvOptimizerStep])
            (seq 0 ((n + Z.to_nat b - 1) / Z.to_nat b))).

Lemma batches_nonzero : 0 < (n + Z.to_nat b - 1) / Z.to_nat b.
Proof. apply Nat.div_str_pos. lia. Qed.

Lemma runs_iterate_batch epoch verbose :
  runs_plain (iterate_batch F (map (plain_loader b) views) epoch verbose)
    epoch_events (fun loss => dom loss = K).
Proof.
  unfold iterate_batch.
  rewrite (zip_generators_plain b n views b_pos views_ne views_n).
  set (nb := (n + Z.to_nat b - 1) / Z.to_nat b).
  set (xs := map _ (seq 0 nb)).
  set (ev := fun fetched : result (list batch) =>
               match fetched with
               | Ok bs => [EvOptimiseBatch (Unlabelled (map batch_data bs));
                           EvOptimizerStep]
               | Raise _ => []
               end).
  set (I := fun (i : nat) (l : option loss_record) =>
              match i with
              | 0 => l = None
              | S _ => exists loss, l = Some loss /\ dom loss = K
              end).
  eapply runs_weaken.
  - eapply (runs_bind _ plain_run_config _ _ _ _ (I (length xs))).
    + apply (runs_for_each _ plain_run_config xs _ ev I); [done|].
      intros i x l Hx _. subst xs.
      rewrite list_lookup_fmap in Hx.
      destruct (seq 0 nb !! i) as [i'|] eqn:Hi; [|done].
      apply lookup_seq in Hi as [-> _]. injection Hx as <-.
      unfold iterate_step.
      apply runs_lift_bind.
      apply runs_get. intros self (Hb & Hv & Hl & Hs & _).
      rewrite (prepare_batch_data self _ views) by done.
      apply runs_lift_bind. rewrite Hv. eapply runs_weaken.
      * eapply (runs_bind _ plain_run_config _ _ _ _ _
                  (fun l => exists loss, l = Some loss /\ dom loss = K));
          [apply runs_optimise_batch|intros loss Hloss].
        apply runs_ret. exists loss. by split.
      * simpl. by rewrite <- list_fmap_compose.
      * intros a Ha. exact Ha.
    + intros l Hl. unfold xs in Hl. rewrite length_map, length_seq in Hl.
      pose proof batches_nonzero as Hnb. fold nb in Hnb.
      destruct nb as [|k]; [lia|]. destruct Hl as (loss & -> & Hd).
      cbn [bound]. apply runs_ret. exact Hd.
  - rewrite app_nil_r. unfold epoch_events, xs. fold nb.
    rewrite <- list_fmap_compose. f_equal. apply list_fmap_ext.
    intros _ i _; simpl. by rewrite <- list_fmap_compose.
  - intros a Ha. exact Ha.
Qed.

Abbreviation gens := (map (plain_loader b) views).

(** What the loop variable [logger] holds after [i] epochs. *)
Definition logger_after (i : nat) (l : option Logger.t) : Prop :=
  match i with
  | 0 => l = None
  | S j => exists lg, l = Some lg /\ logged K j lg
  end.

Lemma runs_epoch_step (i : nat) (l : option Logger.t) data vd :
  logger_after i l ->
  runs_plain (epoch_step F (Some gens) None data vd (Z.of_nat (S i)) l)
    epoch_events (logger_after (S i)).
Proof.
  intros Hl. unfold epoch_step, train_epoch, val_epoch, init_optimisation.
  eapply runs_weaken.
  - eapply (runs_bind _ plain_run_config _ _ _ _ (logger_after (S i))).
    + eapply runs_bind; [apply plain_run_config|apply runs_torch|intros _ _].
      apply runs_get. intros self (Hb & _). rewrite Hb.
      eapply (runs_bind _ plain_run_config);
        [apply runs_iterate_batch|intros loss Hloss]; cbv beta in Hloss.
      destruct i as [|j].
      * simpl. apply runs_ret. eexists. split; [done|].
        rewrite <- Hloss. apply on_train_init_logged.
      * destruct (Z.eqb_spec (Z.of_nat (S (S j))) 1) as [|_]; [lia|].
        destruct Hl as (lg0 & -> & Hlg0). cbn [bound].
        apply runs_ret_bind.
        destruct (on_step_fi_logged K j lg0 loss Hlg0 Hloss)
          as (lg & -> & Hlg).
        apply runs_lift_bind. apply runs_ret. by exists lg.
    + intros l' Hl'.
      eapply (runs_bind _ plain_run_config _ _ _ _ (fun _ => True)).
      * apply runs_get. intros self (_ & Hv & _). rewrite Hv.
        by apply runs_ret.
      * intros _ _. apply runs_ret. exact Hl'.
  - by rewrite !app_nil_r.
  - intros a Ha. exact Ha.
Qed.

Lemma runs_optimise :
  runs_plain (optimise F (Some (Whole gens)) None)
    (concat (replicate (Z.to_nat E) epoch_events))
    (logged K (Z.to_nat E - 1)).
Proof.
  unfold optimise. apply runs_get. intros self (_ & Hv & _ & _ & He & _).
  rewrite Hv, He. apply runs_ret_bind. cbn beta iota.
  eapply runs_weaken.
  - eapply (runs_bind _ plain_run_config _ _ _ _ _
              (logged K (Z.to_nat E - 1))).
    + apply (runs_for_each _ plain_run_config (epochs E) _
               (fun _ => epoch_events) logger_after); [done|].
      intros i x l Hx Hl. unfold epochs in Hx.
      rewrite list_lookup_fmap in Hx.
      destruct (seq 1 (Z.to_nat E) !! i) as [i'|] eqn:Hi; [|done].
      apply lookup_seq in Hi as [-> _]. injection Hx as <-.
      by apply runs_epoch_step.
    + intros l Hl. unfold epochs in Hl. rewrite length_map, length_seq in Hl.
      destruct (Z.to_nat E) as [|j] eqn:HE; [lia|].
      destruct Hl as (lg & -> & Hlg). cbn [bound]. apply runs_ret.
      by rewrite Nat.sub_succ, Nat.sub_0_r.
  - rewrite app_nil_r. f_equal.
    assert (Hc : forall l : list Z,
               map (fun _ => epoch_events) l
               = replicate (length l) epoch_events).
    { induction l as [|x l IH]; simpl; [done|]. by rewrite IH. }
    rewrite Hc. unfold epochs. by rewrite length_map, length_seq.
  - intros a Ha. exact Ha.
Qed.

(** What saving adds to the ghost record. *)
Definition save_events : list event :=
  if sm then [EvSaveModel; EvPlotLosses] else [].

Lemma runs_fit_run :
  runs_plain (fit_run F views)
    (concat (replicate (Z.to_nat E) epoch_events) ++ save_events)
    (logged K (Z.to_nat E - 1)).
Proof.
  unfold fit_run. apply runs_get. intros self (Hb & Hv & Hl & Hs & _).
  rewrite Hv, Hl, (generate_data_plain self views b) by done.
  refine (runs_ret_bind _ (Whole gens) _ _ _ _).
  apply runs_get. intros self2 (Hb2 & _). rewrite Hb2.
  eapply (runs_bind _ plain_run_config); [apply runs_optimise|].
  intros logger Hlogger. unfold fit_finish, end_optimisation.
  eapply runs_weaken.
  - eapply runs_bind; [apply plain_run_config|apply runs_torch|intros _ _].
    apply runs_get. intros self3 (_ & Hv3 & _ & _ & _ & Hsm). rewrite Hsm.
    eapply (runs_bind _ plain_run_config _ _ save_events _ (fun _ => True)).
    + unfold save_events. destruct sm; [|by apply runs_ret].
      eapply runs_weaken.
      * eapply runs_bind; [apply plain_run_config|apply runs_emit|intros _ _].
        eapply runs_bind; [apply plain_run_config|apply runs_emit|intros _ _].
        apply runs_get. intros self4 (_ & Hv4 & _). rewrite Hv4.
        by apply (runs_ret _ _ (fun _ => True)).
      * reflexivity.
      * done.
    + intros _ _. apply runs_ret. exact Hlogger.
  - by rewrite app_nil_r.
  - intros a Ha. exact Ha.
Qed.

End PlainRun.

(** [fit] in the mini-batch path without validation split, labels or SNP
    centring, on views that share a sample count [n >= 1], with a model
    family whose training-mode [forward] and [loss_function] always answer
    and whose loss records all have the fields [K], ["total"] among them.
    The call returns a logger.  Each of the [E] epochs hands every batch to
    [optimise_batch] once, in order, and takes one optimizer step per
    batch, [E * ceil(n/b)] steps in all; nothing is validated; the model is
    saved and the losses plotted once, at the end, when [save_model] is set.
    The logger holds the fields [K] with exactly [E - 1] records each. *)
Theorem fit_plain_minibatch_run
    (views : list tensor) (kw : fit_kw) (s : Self) (b : Z) (n : nat)
    (K : gset string) :
  batch_size s = Some b ->
  (0 < b)%Z ->
  SNP_model s = false ->
  kw_val_set kw = false ->
  kw_labels kw = None ->
  (1 <= kw_n_epochs kw)%Z ->
  views <> [] ->
  Forall (fun v => length v = n) views ->
  0 < n ->
  (forall x net, exists fwd net', forward F true x net = (Ok fwd, net')) ->
  (forall x fwd net,
      exists loss net',
        loss_function F true x fwd net = (Ok loss, net') /\ dom loss = K) ->
  "total"%string ∈ K ->
  exists logger s',
    fit F views kw s = (Ok logger, s')
    /\ trace s'
       = trace s
         ++ concat (replicate (Z.to_nat (kw_n_epochs kw))
                      (epoch_events b views n))
         ++ (if kw_save_model kw then [EvSaveModel; EvPlotLosses] else [])
    /\ logged K (Z.to_nat (kw_n_epochs kw) - 1) logger.
Proof.
  intros Hb Hpos Hs Hv Hl He Hne Hn Hnpos Hfwd Hloss Htotal.
  rewrite fit_unfold.
  destruct (runs_fit_run b (kw_n_epochs kw) (kw_save_model kw) views n K
              Hpos He Hne Hn Hnpos Hfwd Hloss Htotal
              (fit_assign F views kw s).2)
    as (logger & s' & Hrun & _ & Htrace & Hlogged).
  { repeat split; assumption. }
  exists logger, s'. split; [exact Hrun|]. split; [|exact Hlogged].
  rewrite Htrace. reflexivity.
Qed.

End ExactRun.

(** The scenario: two epochs over four batches of 25 rows. *)
Lemma fit_plain_minibatch_run_witness :
  exists logger s',
    Scenario.run false = (Ok logger, s')
    /\ Optimisation_VAE.trace s'
       = [] ++ concat (replicate 2 (epoch_events 25 Scenario.views 100))
            ++ []
    /\ logged (dom Toy.loss) (2 - 1) logger.
Proof.
  apply (fit_plain_minibatch_run (RG := Lcg_RandomGen) Toy.family
           Scenario.views (Scenario.kw false) (Toy.model (Some 25%Z))
           25%Z 100 (dom Toy.loss)).
  - reflexivity.
  - lia.
  - reflexivity.
  - reflexivity.
  - reflexivity.
  - simpl. lia.
  - discriminate.
  - repeat constructor.
  - lia.
  - intros x net. by eexists _, _.
  - intros x fwd net. by eexists _, _.
  - apply elem_of_dom. by eexists.
Defined.


(* ===================================================================== *)
(** * A loss record without the field [total]                             *)
(* ===================================================================== *)

Section FailedRun.
Import Optimisation_VAE.
Context `{RG : RandomGen} {Net Fwd Enc : Type}.
Variable F : Family Net Fwd Enc.

Abbreviation Self := (Model rng Net).

Section Raises.
Variable Q : Self -> Prop.
Hypothesis Q_config : forall s s', config s' = config s -> Q s -> Q s'.

(** From any state that satisfies [Q], [m] ends in the exception [e],
    having left the configuration as it was and added exactly the events
    [evs] to the ghost record. *)
Definition raises {A} (m : M Self A) (evs : list event) (e : exn) : Prop :=
  forall s, Q s ->
    exists s', m s = (Raise e, s') /\ config s' = config s
               /\ trace s' = trace s ++ evs.

Lemma raises_raise {A} (e : exn) : raises (raise (A := A) e) [] e.
Proof. intros s _. exists s. by rewrite app_nil_r. Qed.

Lemma raises_bind_l {A B} (m : M Self A) (k : A -> M Self B) evs e :
  raises m evs e -> raises (bind m k) evs e.
Proof.
  intros Hm s HQ. destruct (Hm s HQ) as (s' & Hs & Hc & Ht).
  exists s'. unfold bind. by rewrite Hs.
Qed.

Lemma raises_bind_r {A B} (m : M Self A) (k : A -> M Self B) evs1 evs2
    (R : A -> Prop) e :
  runs Q m evs1 R -> (forall a, R a -> raises (k a) evs2 e) ->
  raises (bind m k) (evs1 ++ evs2) e.
Proof.
  intros Hm Hk s HQ. destruct (Hm s HQ) as (a & s1 & Hs1 & Hc1 & Ht1 & Ha).
  destruct (Hk a Ha s1) as (s2 & Hs2 & Hc2 & Ht2).
  { by eapply Q_config. }
  exists s2. unfold bind. rewrite Hs1. split; [done|].
  split; [congruence|]. by rewrite Ht2, Ht1, app_assoc.
Qed.

Lemma raises_get {B} (k : Self -> M Self B) evs e :
  (forall self, Q self -> raises (k self) evs e) -> raises (bind get k) evs e.
Proof. intros Hk s HQ. unfold bind, get. by apply Hk. Qed.

Lemma raises_lift_bind {A B} (a : A) (k : A -> M Self B) evs e :
  raises (k a) evs e -> raises (bind (lift (Ok a)) k) evs e.
Proof. intros H. exact H. Qed.

Lemma raises_ret_bind {A B} (a : A) (k : A -> M Self B) evs e :
  raises (k a) evs e -> raises (bind (ret a) k) evs e.
Proof. intros H. exact H. Qed.

End Raises.

Section NoTotal.
Variables (b : Z) (views : list tensor).
Hypothesis b_pos : (0 < b)%Z.
Hypothesis views_ne : views <> [].
Hypothesis views_rows : Forall (fun v => v <> []) views.
Hypothesis forward_ok : forall x net,
  exists fwd net', forward F true x net = (Ok fwd, net').
Hypothesis loss_no_total : forall x fwd net,
  exists loss net',
    loss_function F true x fwd net = (Ok loss, net')
    /\ loss !! "total"%string = None.

Abbreviation fails_plain := (raises (plain_minibatch b)).
Abbreviation first := (Unlabelled (map (take (Z.to_nat b)) views)).

Lemma raises_optimise_batch (x : net_input) :
  fails_plain (optimise_batch F x) [EvOptimiseBatch x] KeyError.
Proof.
  unfold optimise_batch, optimise_batch_body.
  apply (raises_bind_r _ (plain_minibatch_config b) _ _ [_] [] (fun _ => True));
    [apply runs_emit|intros _ _].
  apply (raises_bind_r _ (plain_minibatch_config b) _ _ [] [] (fun _ => True));
    [|intros fwd _].
  { apply runs_call. intros net.
    destruct (forward_ok x net) as (fwd & net' & ->). eauto. }
  apply (raises_bind_r _ (plain_minibatch_config b) _ _ [] []
           (fun loss => loss !! "total"%string = None));
    [|intros loss Hloss].
  { apply runs_call. intros net.
    destruct (loss_no_total x fwd net) as (loss & net' & -> & Hd). eauto. }
  apply (raises_bind_r _ (plain_minibatch_config b) _ _ [] [] (fun _ => True));
    [apply runs_torch|intros _ _].
  rewrite Hloss. apply raises_raise.
Qed.

Lemma raises_fit_run :
  fails_plain (fit_run F views) [EvOptimiseBatch first] KeyError.
Proof.
  unfold fit_run. apply raises_get. intros self (Hb & Hv & Hl & Hs & He).
  rewrite Hv, Hl, (generate_data_plain self views b) by done.
  refine (raises_ret_bind _ (Whole (map (plain_loader b) views)) _ _ _ _).
  apply raises_get. intros self2 (Hb2 & _). rewrite Hb2.
  apply raises_bind_l. unfold optimise.
  apply raises_get. intros self3 (_ & Hv3 & _ & _ & He3). rewrite Hv3.
  apply raises_ret_bind. cbn beta iota.
  destruct (epochs_first _ He3) as [rest ->]. cbn [for_each].
  do 2 apply raises_bind_l. unfold epoch_step. apply raises_bind_l.
  unfold train_epoch, init_optimisation.
  apply (raises_bind_r _ (plain_minibatch_config b) _ _ [] [_]
           (fun _ => True)); [apply runs_torch|intros _ _].
  apply raises_get. intros self4 (Hb4 & Hv4 & Hl4 & Hs4 & _). rewrite Hb4.
  apply raises_bind_l. unfold iterate_batch.
  destruct (zip_generators_first b views b_pos views_ne views_rows)
    as [rest' ->].
  cbn [for_each]. do 2 apply raises_bind_l. unfold iterate_step.
  apply raises_lift_bind. apply raises_get.
  intros self5 (_ & Hv5 & Hl5 & Hs5 & _).
  rewrite prepare_batch_plain by done. apply raises_lift_bind.
  rewrite Hv5. apply raises_bind_l. apply raises_optimise_batch.
Qed.

End NoTotal.


End FailedRun.

(** A family like [Toy.family] whose loss records carry the fields of the
    adversarial models ([recon], [disc], [gen]) and no [total]. *)
Definition family_without_total : Family Toy.Net unit (list tensor) := {|
  train := train Toy.family;
  eval := eval Toy.family;
  manual_seed := manual_seed Toy.family;
  forward := forward Toy.family;
  loss_function := fun _ _ _ n =>
    (Ok {[ "recon"%string := F32.one; "disc"%string := F32.zero;
           "gen"%string := F32.one ]}, n);
  zero_grad := zero_grad Toy.family;
  backward := backward Toy.family;
  step := step Toy.family;
  encode := encode Toy.family;
  reparameterise := reparameterise Toy.family;
  apply_threshold := apply_threshold Toy.family
|}.


(* ===================================================================== *)
(** * The mode the model is left in                                       *)
(* ===================================================================== *)

Section AfterFit.
Import Optimisation_VAE.
Context `{RG : RandomGen} {Net Fwd Enc : Type}.
Variable F : Family Net Fwd Enc.

Abbreviation Self := (Model rng Net).

Lemma fit_finish_net lg lg' (s s' : Self) :
  fit_finish F lg s = (Ok lg', s') -> net s' = eval F (net s).
Proof.
  unfold fit_finish, end_optimisation. intros H.
  apply bind_Ok_inv in H as (u1 & s1 & H1 & H). injection H1 as _ <-.
  apply bind_Ok_inv in H as (self & s2 & H2 & H). injection H2 as <- <-.
  apply bind_Ok_inv in H as (u3 & s3 & Hsave & H). injection H as _ <-.
  destruct (save_model _); [|by injection Hsave as _ <-].
  apply bind_Ok_inv in Hsave as (u4 & s4 & H4 & Hsave). injection H4 as _ <-.
  apply bind_Ok_inv in Hsave as (u5 & s5 & H5 & Hsave). injection H5 as _ <-.
  apply bind_Ok_inv in Hsave as (self' & s6 & H6 & Hsave).
  injection H6 as <- <-.
  destruct (val_set _); [|by injection Hsave as _ <-].
  destruct (val_logger _); [|done]. by injection Hsave as _ <-.
Qed.

(** Whenever [fit] returns, the last thing done to the module was
    [self.eval()]: the model is handed back in evaluation mode, whichever
    path the run took and whether or not it was saved. *)
Theorem fit_returns_model_in_eval_mode
    (views : list tensor) (kw : fit_kw) (s s' : Self) (logger : Logger.t) :
  fit F views kw s = (Ok logger, s') ->
  exists n, net s' = eval F n.
Proof.
  rewrite fit_unfold. unfold fit_run. intros H.
  apply bind_Ok_inv in H as (self & s1 & _ & H).
  apply bind_Ok_inv in H as (generators & s2 & _ & H).
  apply bind_Ok_inv in H as (self2 & s3 & _ & H).
  apply bind_Ok_inv in H as (lg & s4 & _ & H).
  apply fit_finish_net in H. eauto.
Qed.

End AfterFit.

Lemma fit_returns_model_in_eval_mode_witness :
  exists logger s' n,
    Optimisation_VAE.fit Toy.family Scenario.views (Scenario.kw false)
      (Toy.model (Some 25%Z)) = (Ok logger, s')
    /\ Optimisation_VAE.net s' = eval Toy.family n.
Proof.
  assert (Hrun : exists logger s',
             Optimisation_VAE.fit Toy.family Scenario.views
               (Scenario.kw false) (Toy.model (Some 25%Z))
             = (Ok logger, s')).
  { eexists _, _. vm_compute. reflexivity. }
  destruct Hrun as (logger & s' & Hrun).
  destruct (fit_returns_model_in_eval_mode (RG := Lcg_RandomGen) Toy.family
              Scenario.views (Scenario.kw false) (Toy.model (Some 25%Z)) s'
              logger Hrun) as [n Hn].
  exists logger, s', n. split; [exact Hrun | exact Hn].
Defined.


(* ===================================================================== *)
(** * Calls without views                                                 *)
(* ===================================================================== *)

Section NoViews.
Import Optimisation_VAE.
Context `{RG : RandomGen} {Net Fwd Enc : Type}.
Variable F : Family Net Fwd Enc.

Abbreviation Self := (Model rng Net).

Lemma generate_data_nil (self : Self) labels :
  generate_data self [] labels = Ok [].
Proof. unfold generate_data. by destruct (SNP_model self), labels. Qed.

Lemma data_split_nil (g : rng) (split : spec_float) :
  data_split g [] split = (Raise IndexError, seed 42).
Proof. reflexivity. Qed.

Lemma iterate_batch_nil epoch verbose (s : Self) :
  iterate_batch F [] epoch verbose s = (Raise UnboundLocalError, s).
Proof. reflexivity. Qed.

Lemma preprocess_run_nil (labels : bool) :
  preprocess_run [] labels = Raise UnboundLocalError.
Proof. reflexivity. Qed.

Lemma optimise_nil (s : Self) :
  val_set s = false -> is_Some (batch_size s) ->
  exists s', optimise F (Some (Whole [])) None s
             = (Raise UnboundLocalError, s')
             /\ trace s' = trace s.
Proof.
  intros Hv [b Hb]. unfold optimise, bind at 1, get. rewrite Hv.
  unfold bind at 1, ret at 1.
  destruct (epochs (n_epochs s)) as [|e rest]; [by exists s|].
  cbn [for_each]. unfold bind at 1, bind at 1, epoch_step, bind at 1.
  unfold train_epoch, init_optimisation, bind at 1, torch, modify.
  unfold bind at 1, get. cbn [batch_size set_net]. rewrite Hb.
  unfold bind at 1. rewrite iterate_batch_nil. by eexists.
Qed.

Lemma fit_run_nil (s : Self) :
  exists s',
    fit_run F [] s
    = (Raise (if val_set s then IndexError else UnboundLocalError), s')
    /\ trace s' = trace s.
Proof.
  unfold fit_run, bind at 1, get at 1. destruct (val_set s) eqn:Hv.
  - unfold bind at 1, bind at 1. rewrite data_split_nil. by eexists.
  - unfold bind at 1, bind at 1, lift at 1. rewrite generate_data_nil.
    unfold ret at 1, bind at 1, get at 1.
    destruct (batch_size s) as [b|] eqn:Hb.
    + unfold bind at 1.
      destruct (optimise_nil s Hv) as (s' & -> & Ht'); [by eexists|].
      by exists s'.
    + unfold bind at 1, bind at 1, lift at 1, preprocess. rewrite Hv.
      rewrite preprocess_run_nil. by eexists.
Qed.

Lemma predict_latents_run_nil (s : Self) :
  data s = [] -> val_set s = false ->
  (predict_latents_run F s).1
  = Raise (match batch_size s with
           | Some _ => IndexError
           | None => UnboundLocalError
           end).
Proof.
  intros Hd Hv. unfold predict_latents_run, bind at 1, get at 1.
  rewrite Hd, generate_data_nil. unfold bind at 1, lift at 1.
  destruct (batch_size s) as [b|].
  - unfold bind at 1, ret at 1, bind at 1, lift at 1. reflexivity.
  - unfold bind at 1, bind at 1, lift at 1, preprocess. rewrite Hv.
    rewrite preprocess_run_nil. reflexivity.
Qed.

(** Called without a single view, the entry points fail before the model
    sees anything.  [fit] ends in [IndexError] with a validation split (the
    splitter reads [data[0]]) and in [UnboundLocalError] without one (a loop
    over no batches leaves its result unassigned), and enters neither
    [optimise_batch] nor [validate_batch]; [predict_latents], called
    without [val_set], ends in [IndexError] in the mini-batch path and in
    [UnboundLocalError] under the whole-dataset policy. *)
Theorem entry_points_without_views
    (kw : fit_kw) (labels : option (option (list label))) (s : Self) :
  ((fit F [] kw s).1
   = Raise (if kw_val_set kw then IndexError else UnboundLocalError)
   /\ trace (fit F [] kw s).2 = trace s)
  /\ (predict_latents F [] labels None s).1
     = Raise (match batch_size s with
              | Some _ => IndexError
              | None => UnboundLocalError
              end).
Proof.
  split.
  - rewrite fit_unfold.
    destruct (fit_run_nil (fit_assign F [] kw s).2) as (s' & Hrun & Ht).
    rewrite Hrun. split; [reflexivity|exact Ht].
  - rewrite predict_latents_unfold.
    apply (predict_latents_run_nil
             (predict_latents_assign [] labels None s).2); reflexivity.
Qed.

End NoViews.

(* ===================================================================== *)
(** * The sizes of the fixed 80/20 split                                  *)
(* ===================================================================== *)

(** [int(n * 0.8)] is [4n // 5] for the [count] integers from [n] on. *)
Fixpoint four_fifths_from (count : nat) (n : Z) : bool :=
  match count with
  | 0 => true
  | S count' =>
      match int_of_product n F64.lit_0_8 with
      | Ok k => (k =? 4 * n / 5)%Z
      | Raise _ => false
      end && four_fifths_from count' (n + 1)
  end.

Lemma four_fifths_from_spec (count : nat) (start n : Z) :
  four_fifths_from count start = true ->
  (start <= n < start + Z.of_nat count)%Z ->
  int_of_product n F64.lit_0_8 = Ok (4 * n / 5)%Z.
Proof.
  revert start. induction count as [|count IH]; intros start H Hn; [lia|].
  cbn [four_fifths_from] in H. apply andb_true_iff in H as [H0 H1].
  destruct (Z.eq_dec n start) as [->|Hne].
  - destruct (int_of_product start F64.lit_0_8) as [k|e]; [|done].
    f_equal. by apply Z.eqb_eq.
  - apply (IH (start + 1)%Z); [done|lia].
Qed.

Lemma four_fifths_upto_100000 :
  four_fifths_from (Z.to_nat 100001) 0 = true.
Proof. vm_cast_no_check (eq_refl true). Qed.

Lemma int_of_product_four_fifths (n : nat) :
  (Z.of_nat n <= 100000)%Z ->
  int_of_product (Z.of_nat n) F64.lit_0_8 = Ok (4 * Z.of_nat n / 5)%Z.
Proof.
  intros Hn. apply (four_fifths_from_spec (Z.to_nat 100001) 0).
  - apply four_fifths_upto_100000.
  - lia.
Qed.

(** [data_split] on views that share a sample count [n] between 1 and
    100000: whatever [split] is passed and whatever state [random] is in,
    the double-precision product [n * 0.8] truncates to [4n // 5]; so the
    first part has [4n // 5] rows of every view and the second the other
    [n - 4n // 5], at least one, and the two index lists split
    [{0, ..., n-1}]. *)
Theorem data_split_keeps_four_fifths `{RG : RandomGen}
    (g : rng) (data : list tensor) (split : spec_float) (n : nat) :
  sample_count data = Ok n ->
  Forall (fun v => length v = n) data ->
  0 < n ->
  (Z.of_nat n <= 100000)%Z ->
  exists idx_1 idx_2 g',
    Optimisation_VAE.data_split g data split
    = (Ok (map (select_rows idx_1) data, map (select_rows idx_2) data), g')
    /\ length idx_1 = 4 * n / 5
    /\ length idx_2 = n - 4 * n / 5
    /\ 0 < length idx_2
    /\ is_partition n idx_1 idx_2.
Proof.
  intros Hn Hviews Hpos Hle.
  pose proof (Nat.div_mod_eq (4 * n) 5) as Hdm.
  pose proof (Nat.mod_upper_bound (4 * n) 5 ltac:(lia)) as Hmod.
  assert (Hk : Z.to_nat (4 * Z.of_nat n / 5) = 4 * n / 5).
  { replace 4%Z with (Z.of_nat 4) by done.
    replace 5%Z with (Z.of_nat 5) by done.
    by rewrite <- Nat2Z.inj_mul, <- Nat2Z.inj_div, Nat2Z.id. }
  destruct (data_split_correct g data split n (4 * Z.of_nat n / 5)%Z Hn Hviews)
    as (idx_1 & idx_2 & g' & Hs & _ & H1 & H2 & Hp).
  { by apply int_of_product_four_fifths. }
  { split; [apply Z.div_pos; lia|].
    apply Z.div_le_upper_bound; lia. }
  exists idx_1, idx_2, g'. rewrite Hk in H1, H2.
  split; [exact Hs|]. split; [exact H1|]. split; [exact H2|].
  split; [lia|exact Hp].
Qed.

(** A hundred samples: eighty and twenty. *)
Lemma data_split_keeps_four_fifths_witness :
  exists idx_1 idx_2 g',
    Optimisation_VAE.data_split (7%Z : @rng Lcg_RandomGen) Scenario.views
      Optimisation_VAE.lit_0_9
    = (Ok (map (select_rows idx_1) Scenario.views,
           map (select_rows idx_2) Scenario.views), g')
    /\ length idx_1 = 4 * 100 / 5
    /\ length idx_2 = 100 - 4 * 100 / 5
    /\ 0 < length idx_2
    /\ is_partition 100 idx_1 idx_2.
Proof.
  apply (data_split_keeps_four_fifths (RG := Lcg_RandomGen) 7%Z
           Scenario.views Optimisation_VAE.lit_0_9 100).
  - reflexivity.
  - repeat constructor.
  - lia.
  - lia.
Defined.


(* ===================================================================== *)
(** * The shape of the predicted latents                                  *)
(* ===================================================================== *)

(** A tensor of [rows] rows and [cols] columns. *)
Definition has_shape (rows cols : nat) (t : tensor) : Prop :=
  length t = rows /\ Forall (fun r => length r = cols) t.

(** The result of [predict_latents] on [m] views: one tensor of the
    shape when the representation is joint, else [m] of them. *)
Definition latents_shape (rows cols m : nat) (joint : bool) (l : latents)
  : Prop :=
  match l with
  | Joint z => joint = true /\ has_shape rows cols z
  | PerView zs =>
      joint = false /\ length zs = m /\ Forall (has_shape rows cols) zs
  end.

Lemma zeros_shape (n : nat) (z : Z) :
  has_shape n (Z.to_nat z) (Optimisation_VAE.zeros n z).
Proof.
  unfold has_shape, Optimisation_VAE.zeros. split.
  - apply length_replicate.
  - apply Forall_replicate, length_replicate.
Qed.

Lemma slice_assign_shape (acc acc' v : tensor) (start end_ : Z)
    (rows cols : nat) :
  has_shape rows cols acc ->
  Optimisation_VAE.slice_assign acc start end_ v = Ok acc' ->
  has_shape rows cols acc'.
Proof.
  intros [Hlen Hw]. unfold Optimisation_VAE.slice_assign. cbv zeta.
  set (s := Nat.min (Z.to_nat start) (length acc)).
  set (e := Nat.max s (Nat.min (Z.to_nat end_) (length acc))).
  destruct (Nat.eqb (length v) (e - s)) eqn:Hv; cbn [andb].
  2:{ by destruct (_ || _). }
  apply Nat.eqb_eq in Hv.
  match goal with
  | |- context [forallb ?f v] => destruct (forallb f v) eqn:Hfw
  end; [|by destruct (_ || _)].
  intros [= <-]. split.
  - rewrite !length_app, length_take, length_drop, Hv. lia.
  - apply Forall_app. split; [by apply Forall_take|].
    apply Forall_app. split; [|by apply Forall_drop].
    destruct acc as [|r0 acc].
    + simpl in *. destruct v; [done|]. simpl in Hv. lia.
    + inversion Hw as [|? ? Hr0 _]; subst.
      apply Forall_forall. intros r Hr.
      rewrite forallb_forall in Hfw.
      specialize (Hfw r (proj1 (list_elem_of_In _ _) Hr)).
      by apply Nat.eqb_eq in Hfw.
Qed.

Lemma write_prediction_shape (joint j : bool) (predictions pred out : latents)
    (start end_ : Z) (rows cols m : nat) :
  latents_shape rows cols m j predictions ->
  Optimisation_VAE.write_prediction joint predictions pred start end_
  = Ok out ->
  latents_shape rows cols m j out.
Proof.
  unfold Optimisation_VAE.write_prediction.
  destruct joint, predictions as [acc|accs], pred as [z|zs]; try done.
  - intros [Hj Hs]. destruct (Optimisation_VAE.slice_assign _ _ _ _)
      as [acc'|] eqn:Ha; simpl; [|done].
    intros [= <-]. split; [done|]. by eapply slice_assign_shape.
  - intros (Hj & Hm & Hs). revert Hm Hs. generalize 0. revert accs.
    induction zs as [|z zs IH]; intros accs i Hm Hs; simpl.
    + intros [= <-]. by split.
    + destruct (accs !! i) as [acc|] eqn:Hi; [|done].
      destruct (Optimisation_VAE.slice_assign acc start end_ z)
        as [acc'|] eqn:Ha; simpl; [|done].
      apply IH.
      * by rewrite length_insert.
      * apply Forall_insert; [done|].
        eapply slice_assign_shape; [|exact Ha].
        by eapply Forall_lookup_1 in Hs.
Qed.

Lemma for_each_Ok_inv {S A L} (xs : list A) (body : A -> L -> M S L)
    (I : L -> Prop) (l l' : L) (s s' : S) :
  for_each xs body l s = (Ok l', s') ->
  I l ->
  (forall x l s l' s', body x l s = (Ok l', s') -> I l -> I l') ->
  I l'.
Proof.
  intros H Hl Hbody. revert l s H Hl.
  induction xs as [|x xs IH]; intros l s H Hl; simpl in H.
  - by injection H as <- _.
  - apply bind_Ok_inv in H as (l1 & s1 & H1 & H).
    eapply IH; [exact H|]. by eapply Hbody.
Qed.

Section PredictShape.
Import Optimisation_VAE.
Context `{RG : RandomGen} {Net Fwd Enc : Type}.
Variable F : Family Net Fwd Enc.

Abbreviation Self := (Model rng Net).

(** The first generator measures the first view. *)
Lemma generate_data_first (self : Self) data labels g gens (ne : nat) :
  generate_data self data labels = Ok (g :: gens) ->
  dataset_len (dataset g) = Ok ne ->
  exists v0 rest,
    data = v0 :: rest /\ ne = length v0
    /\ length (g :: gens) = length data.
Proof.
  intros Hgen Hne. destruct (SNP_model self) eqn:Hs.
  - unfold generate_data in Hgen. rewrite Hs in Hgen.
    apply snp_generators_wrap in Hgen as [_ Hwrap].
    rewrite (Hwrap 0 g eq_refl) in Hne. done.
  - rewrite generate_data_unfold in Hgen by done.
    pose proof (rmap_length _ _ _ Hgen) as Hlen.
    destruct data as [|v0 rest]; [done|]. exists v0, rest.
    split; [done|]. split; [|done].
    destruct (rmap_lookup _ _ _ 0 v0 Hgen eq_refl) as (g' & [= <-] & Hg).
    unfold new_DataLoader in Hg.
    destruct (_ <=? 0)%Z; [done|]. injection Hg as <-.
    destruct labels; simpl in Hne; by injection Hne.
Qed.

Lemma predict_latents_run_shape (s s' : Self) (out : latents) :
  is_Some (batch_size s) ->
  predict_latents_run F s = (Ok out, s') ->
  exists v0 rest,
    data s = v0 :: rest
    /\ latents_shape (length v0) (Z.to_nat (z_dim s)) (length (data s))
         (joint_representation s) out.
Proof.
  intros [b Hb] H. unfold predict_latents_run in H.
  apply bind_Ok_inv in H as (self & s1 & Hget & H). injection Hget as <- <-.
  apply bind_Ok_inv in H as (generators & s2 & Hgen & H).
  injection Hgen as Hgen <-. rewrite Hb in H.
  apply bind_Ok_inv in H as (d & s3 & Hd & H). injection Hd as <- <-.
  apply bind_Ok_inv in H as (g0 & s4 & Hg0 & H).
  destruct generators as [|g gens]; [done|]. injection Hg0 as <- <-.
  apply bind_Ok_inv in H as (ne & s5 & Hne & H). injection Hne as Hne <-.
  apply bind_Ok_inv in H as (nb & s6 & Hnb & H). injection Hnb as Hnb <-.
  destruct (generate_data_first _ _ _ _ _ _ Hgen Hne)
    as (v0 & rest & Hdata & -> & Hlen).
  exists v0, rest. split; [done|].
  apply bind_Ok_inv in H as (predictions & s7 & Hpred & H).
  assert (Hshape : latents_shape (length v0) (Z.to_nat (z_dim s))
                     (length (data s)) (joint_representation s) predictions).
  { apply bind_Ok_inv in Hpred as (bsz & s8 & Hbsz & Hpred).
    apply bind_Ok_inv in Hpred as ([idx preds] & s9 & Hloop & Hret).
    injection Hret as <- _.
    apply (for_each_Ok_inv _ _
             (fun l => latents_shape (length v0) (Z.to_nat (z_dim s))
                         (length (data s)) (joint_representation s) l.2)
             _ _ _ _ Hloop).
    - cbn [snd]. destruct (joint_representation s); cbn [latents_shape].
      + split; [done|]. apply zeros_shape.
      + split; [done|]. split; [by rewrite length_map|].
        apply Forall_fmap, Forall_forall. intros ? _. apply zeros_shape.
    - clear. intros fetched [idx preds] st [idx' preds'] st' Hbody Hinv.
      cbn [snd] in *.
      apply bind_Ok_inv in Hbody as (lb & st1 & _ & Hbody).
      apply bind_Ok_inv in Hbody as (self & st2 & _ & Hbody).
      apply bind_Ok_inv in Hbody as (lb' & st3 & _ & Hbody).
      apply bind_Ok_inv in Hbody as (enc & st4 & _ & Hbody).
      apply bind_Ok_inv in Hbody as (pred & st5 & _ & Hbody).
      apply bind_Ok_inv in Hbody as (pred' & st6 & _ & Hbody).
      destruct (batch_window _ _ _ _) as [start end_].
      apply bind_Ok_inv in Hbody as (out' & st7 & Hw & Hbody).
      injection Hbody as _ <- _. injection Hw as Hw _.
      by eapply write_prediction_shape. }
  apply bind_Ok_inv in H as (self' & s8 & _ & H).
  destruct (joint_representation self'), predictions;
    try done; by injection H as <- _.
Qed.

(** In the mini-batch path, whatever the model's [encode],
    [reparameterise] and [apply_threshold] hand back, a [predict_latents]
    call that returns hands back arrays of the announced shape: one row per
    sample of the first view and [z_dim] columns; one array per view, or
    with a joint representation a single array. *)
Theorem predict_latents_output_shape
    (data : list tensor) (labels : option (option (list label)))
    (val_set : option bool) (s s' : Self) (out : latents) :
  is_Some (batch_size s) ->
  (0 <= z_dim s)%Z ->
  predict_latents F data labels val_set s = (Ok out, s') ->
  exists v0 rest,
    data = v0 :: rest
    /\ latents_shape (length v0) (Z.to_nat (z_dim s)) (length data)
         (joint_representation s) out.
Proof.
  intros Hb _. rewrite predict_latents_unfold. intros H.
  apply predict_latents_run_shape in H; [exact H|exact Hb].
Qed.

End PredictShape.

(** The scenario's two views in batches of 25, one latent column. *)
Lemma predict_latents_output_shape_witness :
  exists out s' v0 rest,
    Optimisation_VAE.predict_latents Toy.family Scenario.views None None
      (Toy.model (Some 25%Z)) = (Ok out, s')
    /\ Scenario.views = v0 :: rest
    /\ latents_shape (length v0) (Z.to_nat 1) (length Scenario.views) false
         out.
Proof.
  assert (Hrun : exists out s',
             Optimisation_VAE.predict_latents Toy.family Scenario.views
               None None (Toy.model (Some 25%Z)) = (Ok out, s')).
  { eexists _, _. vm_compute. reflexivity. }
  destruct Hrun as (out & s' & Hrun).
  destruct (predict_latents_output_shape (RG := Lcg_RandomGen) Toy.family
              Scenario.views None None (Toy.model (Some 25%Z)) s' out)
    as (v0 & rest & Hv & Hshape).
  - by eexists.
  - simpl. lia.
  - exact Hrun.
  - exists out, s', v0, rest.
    split; [exact Hrun|]. split; [exact Hv|exact Hshape].
Defined.


(* ===================================================================== *)
(** * The predicted latents, batch by batch                               *)
(* ===================================================================== *)

(** What joins the output of a joint representation, and of view [v]. *)
Definition joint_part (p : latents) : tensor :=
  match p with Joint z => z | PerView _ => [] end.
Definition view_part (v : nat) (p : latents) : tensor :=
  match p with PerView zs => default [] (zs !! v) | Joint _ => [] end.

(** The per-batch outputs laid end to end along the first axis: one array
    with a joint representation, else one per view. *)
Definition stack (joint : bool) (m : nat) (parts : list latents) : latents :=
  if joint then Joint (concat (map joint_part parts))
  else PerView (map (fun v => concat (map (view_part v) parts)) (seq 0 m)).

(** Lines 315-318: the inference calls on one batch. *)
Definition infer_net {Net Fwd Enc} (F : Family Net Fwd Enc) (sparse : bool)
    (x : net_input) (n : Net) : result latents * Net :=
  match encode F false x n with
  | (Ok enc, n1) =>
      match reparameterise F false enc n1 with
      | (Ok pred, n2) =>
          if sparse then apply_threshold F pred n2 else (Ok pred, n2)
      | (Raise e, n2) => (Raise e, n2)
      end
  | (Raise e, n1) => (Raise e, n1)
  end.

Abbreviation zero_row cols := (replicate cols F32.zero).

Lemma first_row_width (acc : tensor) (cols : nat) :
  Forall (fun r => length r = cols) acc ->
  acc = [] \/ match acc with r :: _ => length r | [] => 0 end = cols.
Proof. destruct 1; [by left|by right]. Qed.

(** Writing the rows [z] right behind the rows [P] already written, into
    an accumulator whose other [k] rows are still zero. *)
Lemma slice_assign_next (P z : tensor) (k cols : nat) (start end_ : Z) :
  Forall (fun r => length r = cols) P ->
  Forall (fun r => length r = cols) z ->
  Z.to_nat start = length P ->
  length z <= k ->
  Nat.min (Z.to_nat end_) (length P + k) = length P + length z ->
  Optimisation_VAE.slice_assign (P ++ replicate k (zero_row cols)) start end_ z
  = Ok ((P ++ z) ++ replicate (k - length z) (zero_row cols)).
Proof.
  intros HP Hz Hs Hk He. unfold Optimisation_VAE.slice_assign. cbv zeta.
  rewrite length_app, length_replicate, Hs, He.
  replace (Nat.min (length P) (length P + k)) with (length P) by lia.
  replace (Nat.max (length P) (length P + length z))
    with (length P + length z) by lia.
  replace (length P + length z - length P) with (length z) by lia.
  rewrite Nat.eqb_refl. cbn [andb].
  assert (Hacc : Forall (fun r => length r = cols)
                   (P ++ replicate k (zero_row cols))).
  { apply Forall_app. split; [done|].
    apply Forall_replicate, length_replicate. }
  assert (Hw : forallb (fun r : list spec_float =>
                          length r =? match P ++ replicate k (zero_row cols)
                                      with
                                      | r0 :: _ => length r0
                                      | [] => 0
                                      end) z = true).
  { destruct (first_row_width _ _ Hacc) as [Hnil| ->].
    - apply app_eq_nil in Hnil as [_ Hnil].
      assert (k = 0) as -> by (by destruct k).
      by destruct z; [|simpl in Hk; lia].
    - apply forallb_forall. intros r Hr. apply Nat.eqb_eq.
      eapply Forall_forall in Hz; [exact Hz|]. by apply list_elem_of_In. }
  rewrite Hw. f_equal. rewrite <- (assoc_L (++)). f_equal.
  - by rewrite take_app_length.
  - f_equal. rewrite drop_app_add, drop_replicate. done.
Qed.

(** The per-view write, view by view. *)
Lemma write_prediction_per_view (m : nat) (A A' : nat -> tensor)
    (zs : list tensor) (start end_ : Z) :
  length zs = m ->
  (forall v z, zs !! v = Some z ->
               Optimisation_VAE.slice_assign (A v) start end_ z = Ok (A' v)) ->
  Optimisation_VAE.write_prediction false (PerView (map A (seq 0 m)))
    (PerView zs) start end_
  = Ok (PerView (map A' (seq 0 m))).
Proof.
  intros Hm Hz. unfold Optimisation_VAE.write_prediction.
  assert (Hgo : forall zs' i,
             i + length zs' = m ->
             (forall k z, zs' !! k = Some z ->
                Optimisation_VAE.slice_assign (A (i + k)) start end_ z
                = Ok (A' (i + k))) ->
             (fix go (i : nat) (zs accs : list tensor) {struct zs}
                : result (list tensor) :=
                match zs with
                | [] => Ok accs
                | pred_ :: zs' =>
                    match accs !! i with
                    | Some acc =>
                        (try acc0 <- Optimisation_VAE.slice_assign acc start
                                       end_ pred_;
                         go (S i) zs' (<[i:=acc0]> accs))%res
                    | None => Raise IndexError
                    end
                end) i zs' (map A' (seq 0 i) ++ map A (seq i (m - i)))
             = Ok (map A' (seq 0 m))).
  { clear Hm Hz zs. induction zs' as [|z zs' IH]; intros i Hi Hz.
    - simpl in Hi. replace (m - i) with 0 by lia. simpl.
      rewrite app_nil_r. by replace i with m by lia.
    - simpl in Hi.
      replace (m - i) with (S (m - S i)) by lia. cbn [seq map].
      rewrite lookup_app_r by (by rewrite length_map, length_seq).
      rewrite length_map, length_seq, Nat.sub_diag. cbn [lookup list_lookup].
      pose proof (Hz 0 z eq_refl) as Hz0. rewrite Nat.add_0_r in Hz0.
      rewrite Hz0. cbn [rbind].
      replace (<[i:=A' i]> (map A' (seq 0 i) ++ A i :: map A (seq (S i) (m - S i))))
        with (map A' (seq 0 (S i)) ++ map A (seq (S i) (m - S i))).
      + apply IH; [lia|]. intros k z' Hk.
        replace (S i + k) with (i + S k) by lia. by apply Hz.
      + rewrite seq_S, map_app, <- (assoc_L (++)). simpl.
        rewrite insert_app_r_alt by (by rewrite length_map, length_seq).
        by rewrite length_map, length_seq, Nat.sub_diag. }
  specialize (Hgo zs 0). simpl in Hgo. rewrite Nat.sub_0_r in Hgo.
  rewrite Hgo; [done|lia|]. intros k z Hk. by apply Hz.
Qed.

Lemma ceil_div_bounds (n b i : nat) :
  0 < b -> i < (n + b - 1) / b ->
  i * b < n
  /\ (S i = (n + b - 1) / b -> n <= i * b + b)
  /\ (S i <> (n + b - 1) / b -> i * b + b < n).
Proof.
  intros Hb Hi. set (nb := (n + b - 1) / b) in *.
  pose proof (Nat.div_mod_eq (n + b - 1) b) as Hdm. fold nb in Hdm.
  pose proof (Nat.mod_upper_bound (n + b - 1) b ltac:(lia)) as Hmod.
  split; [nia|]. split; [intros <-; nia|]. intros Hne. nia.
Qed.

Lemma map_const_seq {A X} (c : A) (l : list X) (k : nat) :
  map (fun _ => c) (seq k (length l)) = map (fun _ => c) l.
Proof.
  revert k. induction l as [|x l IH]; intros k; simpl; [done|].
  by rewrite IH.
Qed.

Section PredictConcat.
Import Optimisation_VAE.
Context `{RG : RandomGen} {Net Fwd Enc : Type}.
Variable F : Family Net Fwd Enc.

Abbreviation Self := (Model rng Net).

Lemma runs_infer (Q : Self -> Prop)
    (Q_config : forall s s', config s' = config s -> Q s -> Q s')
    {B} (sp : bool) (x : net_input) (K : latents -> M Self B)
    (evs : list event) (R : B -> Prop) (p : latents) :
  (forall n, exists n', infer_net F sp x n = (Ok p, n')) ->
  runs Q (K p) evs R ->
  runs Q (bind (call (encode F false x))
            (fun enc =>
               bind (call (reparameterise F false enc))
                 (fun pred =>
                    bind (if sp then call (apply_threshold F pred)
                          else ret pred) K))) evs R.
Proof.
  intros Hinf HK s HQ. destruct (Hinf (net s)) as [n' Hn].
  unfold infer_net in Hn. unfold bind at 1, call at 1.
  destruct (encode F false x (net s)) as [[enc|e] n1]; [|done].
  unfold bind at 1, call at 1. cbn [net set_net].
  destruct (reparameterise F false enc n1) as [[pred|e] n2]; [|done].
  unfold bind at 1. destruct sp.
  - unfold call at 1. cbn [net set_net]. rewrite Hn.
    apply (HK (set_net n' s)). by eapply Q_config; [|exact HQ].
  - injection Hn as -> ->. unfold ret at 1.
    apply (HK (set_net n' s)). by eapply Q_config; [|exact HQ].
Qed.

Section Batches.
Variables (b : Z) (views : list tensor) (n : nat) (sp j : bool) (zd : Z).
Variable pred : nat -> latents.
Hypothesis b_pos : (0 < b)%Z.
Hypothesis views_ne : views <> [].
Hypothesis views_n : Forall (fun v => length v = n) views.

Abbreviation B := (Z.to_nat b).
Abbreviation nb := ((n + B - 1) / B).
Abbreviation cols := (Z.to_nat zd).
Abbreviation m := (length views).

Hypothesis infer_ok : forall i, i < nb -> forall net,
  exists net',
    infer_net F sp (Unlabelled (map (batch_rows B i) views)) net
    = (Ok (pred i), net').
Hypothesis pred_shape : forall i, i < nb ->
  latents_shape (Nat.min B (n - i * B)) cols m j (pred i).

(** The mini-batch path on the views, without labels. *)
Definition batched (st : Self) : Prop :=
  batch_size st = Some b /\ SNP_model st = false /\ labels st = None
  /\ data st = views /\ sparse st = sp /\ joint_representation st = j
  /\ z_dim st = zd.

Lemma batched_config (s s' : Self) :
  config s' = config s -> batched s -> batched s'.
Proof.
  unfold batched, config. intros Hc (? & ? & ? & ? & ? & ? & ?).
  injection Hc. intros. repeat split; congruence.
Qed.

(** The rows written so far, and zeros below them. *)
Definition pad (P : tensor) : tensor :=
  P ++ replicate (n - length P) (zero_row cols).

(** The accumulator after the outputs [parts] have been written. *)
Definition padded (parts : list latents) : latents :=
  if j then Joint (pad (concat (map joint_part parts)))
  else PerView (map (fun v => pad (concat (map (view_part v) parts)))
                  (seq 0 m)).

Abbreviation parts i := (map pred (seq 0 i)).

Lemma parts_S (part : latents -> tensor) (i : nat) :
  concat (map part (parts (S i)))
  = concat (map part (parts i)) ++ part (pred i).
Proof.
  rewrite seq_S, !map_app, concat_app. simpl. by rewrite app_nil_r.
Qed.

Lemma prefix_shape (part : latents -> tensor) (i : nat) :
  (forall k, k < nb -> has_shape (Nat.min B (n - k * B)) cols (part (pred k))) ->
  i <= nb ->
  has_shape (Nat.min (i * B) n) cols (concat (map part (parts i))).
Proof.
  intros Hpart. induction i as [|i IH]; intros Hi.
  - split; [done|constructor].
  - destruct IH as [Hlen Hw]; [lia|].
    destruct (Hpart i) as [Hlen' Hw']; [lia|].
    rewrite parts_S. split.
    + rewrite length_app, Hlen, Hlen'.
      destruct (ceil_div_bounds n B i) as (Hlt & Hlast & Hmid);
        [lia|exact Hi|].
      change (S i * B) with (B + i * B).
      clear -Hlt. generalize dependent (i * B). generalize B. lia.
    + by apply Forall_app.
Qed.

Lemma slice_assign_part (part : latents -> tensor) (i : nat) :
  (forall k, k < nb -> has_shape (Nat.min B (n - k * B)) cols (part (pred k))) ->
  i < nb ->
  let w := batch_window (Z.of_nat n) b ((Z.of_nat n + b - 1) / b)
             (Z.of_nat i) in
  slice_assign (pad (concat (map part (parts i)))) w.1 w.2 (part (pred i))
  = Ok (pad (concat (map part (parts (S i))))).
Proof.
  intros Hpart Hi w.
  destruct (prefix_shape part i Hpart) as [Hlen Hw]; [lia|].
  destruct (Hpart i Hi) as [Hlen' Hw'].
  destruct (ceil_div_bounds n B i) as (Hlt & Hlast & Hmid); [lia|done|].
  unfold pad. rewrite parts_S.
  rewrite slice_assign_next; try done.
  - by rewrite length_app, Nat.sub_add_distr.
  - subst w. unfold batch_window. cbn [fst]. rewrite Hlen.
    rewrite Nat.min_l by (clear -Hlt; lia).
    rewrite <- (Z2Nat.id b) at 1 by lia.
    by rewrite <- Nat2Z.inj_mul, Nat2Z.id.
  - rewrite Hlen, Hlen'. clear -Hlt. generalize dependent (i * B).
    generalize B. lia.
  - subst w. unfold batch_window. cbn [snd].
    rewrite <- (ceil_div_nat_Z n b) by done. rewrite Hlen, Hlen'.
    assert (Hend : (Z.of_nat i * b + b)%Z = Z.of_nat (i * B + B)).
    { rewrite Nat2Z.inj_add, Nat2Z.inj_mul, Z2Nat.id by lia. done. }
    rewrite Hend.
    destruct (Z.eqb_spec (Z.of_nat i) (Z.of_nat nb - 1)) as [He|He].
    + rewrite Nat2Z.id. assert (He' : S i = nb) by (clear -He; lia).
      specialize (Hlast He'). clear -Hlt Hlast.
      generalize dependent (i * B). generalize B. lia.
    + rewrite Nat2Z.id. assert (He' : S i <> nb) by (clear -He; lia).
      specialize (Hmid He'). clear -Hlt Hmid.
      generalize dependent (i * B). generalize B. lia.
Qed.

Lemma write_prediction_step (i : nat) :
  i < nb ->
  let w := batch_window (Z.of_nat n) b ((Z.of_nat n + b - 1) / b)
             (Z.of_nat i) in
  write_prediction j (padded (parts i)) (pred i) w.1 w.2
  = Ok (padded (parts (S i))).
Proof.
  intros Hi w. unfold padded. pose proof (pred_shape i Hi) as Hp.
  destruct j.
  - assert (Hpart : forall k, k < nb ->
               has_shape (Nat.min B (n - k * B)) cols (joint_part (pred k))).
    { intros k Hk. pose proof (pred_shape k Hk) as Hk'.
      destruct (pred k); [by destruct Hk'|by destruct Hk']. }
    pose proof (slice_assign_part joint_part i Hpart Hi) as Hs.
    destruct (pred i) as [z|zs] eqn:Hpi; [|by destruct Hp].
    unfold write_prediction. cbn [joint_part] in Hs. cbv zeta in Hs.
    fold w in Hs. by rewrite Hs.
  - destruct (pred i) as [z|zs] eqn:Hpi; [by destruct Hp|].
    destruct Hp as (_ & Hm & Hzs).
    apply write_prediction_per_view; [done|]. intros v z Hz.
    assert (Hv : v < m) by (rewrite <- Hm; by eapply lookup_lt_Some).
    assert (Hpart : forall k, k < nb ->
               has_shape (Nat.min B (n - k * B)) cols (view_part v (pred k))).
    { intros k Hk. pose proof (pred_shape k Hk) as Hk'.
      destruct (pred k) as [|zs']; [by destruct Hk'|].
      destruct Hk' as (_ & Hm' & Hzs').
      cbn [view_part].
      match goal with
      | |- context [default [] ?o] => destruct o as [z'|] eqn:Hz'
      end.
      - by eapply Forall_lookup_1 in Hzs'.
      - apply lookup_ge_None in Hz'. clear -Hz' Hm' Hv.
        unfold tensor, row in *. lia. }
    pose proof (slice_assign_part (view_part v) i Hpart Hi) as Hs.
    rewrite Hpi in Hs. cbn [view_part] in Hs.
    unfold tensor, row in *. rewrite Hz in Hs. exact Hs.
Qed.

Lemma joint_part_shape :
  j = true -> forall k, k < nb ->
  has_shape (Nat.min B (n - k * B)) cols (joint_part (pred k)).
Proof.
  intros Hj k Hk. pose proof (pred_shape k Hk) as Hk'.
  destruct (pred k); destruct Hk' as [Hj' Hk']; [done|congruence].
Qed.

Lemma view_part_shape (v : nat) :
  j = false -> v < m -> forall k, k < nb ->
  has_shape (Nat.min B (n - k * B)) cols (view_part v (pred k)).
Proof.
  intros Hj Hv k Hk. pose proof (pred_shape k Hk) as Hk'.
  destruct (pred k) as [|zs']; destruct Hk' as [Hj' Hk']; [congruence|].
  destruct Hk' as [Hm' Hzs']. cbn [view_part].
  match goal with
  | |- context [default [] ?o] => destruct o as [z'|] eqn:Hz'
  end.
  - by eapply Forall_lookup_1 in Hzs'.
  - apply lookup_ge_None in Hz'. clear -Hz' Hm' Hv.
    unfold tensor, row in *. lia.
Qed.

Lemma pad_full (P : tensor) : length P = n -> pad P = P.
Proof.
  intros HP. unfold pad. rewrite HP, Nat.sub_diag. apply app_nil_r.
Qed.

Lemma full_length : Nat.min (nb * B) n = n.
Proof.
  pose proof (Nat.div_mod_eq (n + B - 1) B) as Hdm.
  pose proof (Nat.mod_upper_bound (n + B - 1) B ltac:(lia)) as Hmod.
  apply Nat.min_r. rewrite (Nat.mul_comm nb B).
  clear -Hdm Hmod. generalize dependent (B * nb).
  generalize dependent ((n + B - 1) mod B). generalize B. lia.
Qed.

Lemma padded_full : padded (parts nb) = stack j m (parts nb).
Proof.
  unfold padded, stack. destruct (Bool.bool_dec j true) as [Hj|Hj].
  - rewrite Hj. f_equal. apply pad_full.
    destruct (prefix_shape joint_part nb (joint_part_shape Hj))
      as [Hlen _]; [done|].
    by rewrite Hlen, full_length.
  - apply not_true_is_false in Hj. rewrite Hj. f_equal.
    apply map_ext_in. intros v Hv. apply in_seq in Hv.
    apply pad_full.
    destruct (prefix_shape (view_part v) nb
                (view_part_shape v Hj ltac:(lia)))
      as [Hlen _]; [done|].
    by rewrite Hlen, full_length.
Qed.

Lemma padded_nil :
  padded []
  = if j then Joint (zeros n zd)
    else PerView (map (fun _ => zeros n zd) (map (plain_loader b) views)).
Proof.
  unfold padded, pad, zeros. simpl. rewrite Nat.sub_0_r.
  destruct j; [done|]. f_equal.
  rewrite <- list_fmap_compose. apply map_const_seq.
Qed.

Lemma tensors_of_data (f : tensor -> tensor) (vs : list tensor) :
  tensors_of (map (fun v => BData (f v)) vs) = Ok (map f vs).
Proof.
  replace (map (fun v => BData (f v)) vs) with (map BData (map f vs))
    by (by rewrite <- list_fmap_compose).
  apply tensors_of_BData.
Qed.

Lemma concat_map_nil {A X} (l : list X) :
  concat (map (fun _ => @nil A) l) = [].
Proof. induction l; simpl; done. Qed.

Lemma runs_predict_latents_run :
  runs batched (predict_latents_run F) []
    (fun out => out = stack j m (parts nb)).
Proof.
  unfold predict_latents_run.
  apply runs_get. intros self (Hb & Hs & Hl & Hd & Hsp & Hj & Hz).
  rewrite Hd, Hl, (generate_data_plain self views b), Hb, Hj, Hz by done.
  apply runs_lift_bind. apply runs_ret_bind.
  assert (Hv0 : exists v0 rest, views = v0 :: rest /\ length v0 = n).
  { destruct views as [|v0 rest]; [done|]. exists v0, rest.
    split; [done|]. by inversion views_n. }
  destruct Hv0 as (v0 & rest & Hviews & Hn0).
  assert (Hhead : match map (plain_loader b) views with
                  | g :: _ => Ok g
                  | [] => Raise IndexError
                  end = Ok (plain_loader b v0)) by (by rewrite Hviews).
  rewrite Hhead. apply runs_lift_bind.
  cbn [plain_loader dataset dataset_len loader_batch_size].
  unfold loader_len. cbn [dataset dataset_len loader_batch_size rbind].
  repeat match goal with
         | |- context [@length ?T v0] =>
             replace (@length T v0) with n by (symmetry; exact Hn0)
         end.
  apply runs_lift_bind. apply runs_lift_bind.
  rewrite <- padded_nil.
  eapply runs_weaken.
  - eapply (runs_bind _ batched_config _ _ _ _
              (fun p => p = padded (parts nb))
              (fun out => out = stack j m (parts nb))).
    + apply runs_lift_bind.
      eapply (runs_bind _ batched_config _ _ _ _
                (fun l => l = (Z.of_nat nb, padded (parts nb)))).
      * rewrite (zip_generators_plain b n views b_pos views_ne views_n).
        eapply runs_weaken.
        -- apply (runs_for_each _ batched_config _ _ (fun _ => [])
                    (fun i l => l = (Z.of_nat i, padded (parts i))));
             [done|].
           intros i x l Hx ->. rewrite list_lookup_fmap in Hx.
           destruct (seq 0 nb !! i) as [i'|] eqn:Hi; [|done].
           apply lookup_seq in Hi as [-> Hi]. injection Hx as <-.
           simpl in Hi. apply runs_lift_bind.
           apply runs_get. intros self' (_ & _ & Hl' & _ & Hsp' & Hj' & _).
           rewrite Hl', tensors_of_data, Hsp', Hj'. cbn [rbind].
           apply runs_lift_bind.
           apply (runs_infer _ batched_config _ _ _ _ _ (pred i));
             [by apply infer_ok|].
           pose proof (write_prediction_step i Hi) as Hw. cbv zeta in Hw.
           cbn beta.
           repeat match goal with
                  | |- context [@length ?T v0] =>
                      replace (@length T v0) with n by (symmetry; exact Hn0)
                  end.
           destruct (batch_window _ _ _ _) as [start end_].
           cbn [fst snd] in Hw. rewrite Hw. apply runs_lift_bind.
           apply runs_ret. by rewrite Nat2Z.inj_succ, Z.add_1_r.
        -- apply concat_map_nil.
        -- intros l Hl0. rewrite length_map, length_seq in Hl0. exact Hl0.
      * intros l ->. apply runs_ret. reflexivity.
    + intros p ->. apply runs_get. intros self' (_ & _ & _ & _ & _ & Hj' & _).
      rewrite Hj', padded_full. unfold stack.
      destruct (Bool.bool_dec j true) as [Hjt|Hjf].
      * rewrite Hjt. by apply runs_ret.
      * apply not_true_is_false in Hjf. rewrite Hjf. by apply runs_ret.
  - reflexivity.
  - intros a Ha. exact Ha.
Qed.

End Batches.

(** Batched prediction puts the batches back together.  In the mini-batch
    path, without labels, on views that share a sample count [n]: if on
    batch [i] (the rows [i*b, ..., min((i+1)*b, n) - 1] of every view) the
    model's inference calls hand back [pred i], of as many rows as the
    batch and [z_dim] columns, then [predict_latents] returns the outputs
    [pred 0, pred 1, ...] of the [ceil(n/b)] batches laid end to end, per
    view or as one joint array: row [r] of the result is the latent of
    sample [r]. *)
Theorem predict_latents_stacks_the_batches
    (views : list tensor) (s : Self) (b : Z) (n : nat)
    (pred : nat -> latents) :
  batch_size s = Some b ->
  (0 < b)%Z ->
  SNP_model s = false ->
  (0 <= z_dim s)%Z ->
  views <> [] ->
  Forall (fun v => length v = n) views ->
  (forall i, i < (n + Z.to_nat b - 1) / Z.to_nat b -> forall net,
      exists net',
        infer_net F (sparse s)
          (Unlabelled (map (batch_rows (Z.to_nat b) i) views)) net
        = (Ok (pred i), net')) ->
  (forall i, i < (n + Z.to_nat b - 1) / Z.to_nat b ->
      latents_shape (Nat.min (Z.to_nat b) (n - i * Z.to_nat b))
        (Z.to_nat (z_dim s)) (length views) (joint_representation s)
        (pred i)) ->
  exists s',
    predict_latents F views None None s
    = (Ok (stack (joint_representation s) (length views)
             (map pred (seq 0 ((n + Z.to_nat b - 1) / Z.to_nat b)))), s')
    /\ trace s' = trace s.
Proof.
  intros Hb Hpos Hs _ Hne Hn Hinf Hshape. rewrite predict_latents_unfold.
  destruct (runs_predict_latents_run b views n (sparse s)
              (joint_representation s) (z_dim s) pred Hpos Hne Hn Hinf
              Hshape (predict_latents_assign views None None s).2)
    as (out & s' & Hrun & _ & Ht & ->).
  { repeat split; assumption. }
  exists s'. split; [exact Hrun|]. rewrite Ht. simpl. apply app_nil_r.
Qed.

End PredictConcat.

(** The scenario's two views in four batches of 25; the toy family's
    latent of a sample is its first feature. *)
Lemma predict_latents_stacks_the_batches_witness :
  let pred := fun i =>
    PerView (map (map (take 1)) (map (batch_rows 25 i) Scenario.views)) in
  exists s',
    Optimisation_VAE.predict_latents Toy.family Scenario.views None None
      (Toy.model (Some 25%Z))
    = (Ok (stack false (length Scenario.views)
             (map pred (seq 0 ((100 + Z.to_nat 25 - 1) / Z.to_nat 25)))), s')
    /\ Optimisation_VAE.trace s' = [].
Proof.
  intros pred.
  apply (predict_latents_stacks_the_batches (RG := Lcg_RandomGen) Toy.family
           Scenario.views (Toy.model (Some 25%Z)) 25%Z 100 pred).
  - reflexivity.
  - lia.
  - reflexivity.
  - simpl. lia.
  - discriminate.
  - repeat constructor.
  - intros i _ net. by exists net.
  - intros i Hi. change (i < 4) in Hi.
    do 4 (destruct i as [|i]; [vm_compute; repeat constructor|]).
    lia.
Defined.
